(** * Verification of the test-setup downloader of the selenium client

    The repository carries two programs that prepare the working directory
    of the integration tests:

    - [vendor/init.go], the sequential downloader (module [vendor_init]);
    - the concurrent downloader with the "latest version" resolvers
      [latestGitHubRelease] and [latestSeleniumRelease] (module [init]).

    Both are embedded as functions in a small monad that threads the state
    of the outside world and records every call made to it.  Library
    packages the programs import (strings, path, encoding/hex, semver) are
    modelled first. *)

From Stdlib Require Import String Ascii List Bool ZArith NArith Lia.
Import ListNotations.
Local Open Scope string_scope.
Local Open Scope Z_scope.

Set Implicit Arguments.

(* ===================================================================== *)
(** ** Byte strings *)
(* ===================================================================== *)

(** A Go string is a sequence of bytes; so is a [string] of the standard
    library.  [len] is Go's [len(s)]. *)
Definition len (s : string) : Z := Z.of_nat (String.length s).

(** [s[lo:hi]]: a slice expression panics unless [0 <= lo <= hi <= len(s)];
    [None] stands for that panic. *)
Definition slice (s : string) (lo hi : Z) : option string :=
  if (0 <=? lo) && (lo <=? hi) && (hi <=? len s)
  then Some (substring (Z.to_nat lo) (Z.to_nat (hi - lo)) s)
  else None.

Fixpoint string_of_bytes (l : list N) : string :=
  match l with
  | [] => ""
  | b :: l' => String (ascii_of_N b) (string_of_bytes l')
  end.

Fixpoint string_rev_append (s acc : string) : string :=
  match s with
  | "" => acc
  | String c s' => string_rev_append s' (String c acc)
  end.

Definition string_rev (s : string) : string := string_rev_append s "".

(* ===================================================================== *)
(** ** Package strings *)
(* ===================================================================== *)

Module strings.

Fixpoint HasPrefix (s prefix : string) {struct prefix} : bool :=
  match prefix with
  | "" => true
  | String p prefix' =>
      match s with
      | "" => false
      | String c s' => Ascii.eqb c p && HasPrefix s' prefix'
      end
  end.

Definition HasSuffix (s suffix : string) : bool :=
  HasPrefix (string_rev s) (string_rev suffix).

(** Index of the first instance of [substr] in [s], or -1. *)
Fixpoint Index (s substr : string) : Z :=
  if HasPrefix s substr then 0
  else match s with
       | "" => -1
       | String _ s' =>
           let i := Index s' substr in
           if i <? 0 then -1 else i + 1
       end.

Definition Contains (s substr : string) : bool := 0 <=? Index s substr.

Fixpoint IndexByte (s : string) (c : ascii) : Z :=
  match s with
  | "" => -1
  | String d s' =>
      if Ascii.eqb d c then 0
      else let i := IndexByte s' c in if i <? 0 then -1 else i + 1
  end.

Fixpoint ContainsAny (s chars : string) : bool :=
  match s with
  | "" => false
  | String c s' => (0 <=? IndexByte chars c) || ContainsAny s' chars
  end.

Fixpoint drop (n : nat) (s : string) : string :=
  match n, s with
  | O, _ => s
  | S _, "" => ""
  | S n', String _ s' => drop n' s'
  end.

Definition TrimPrefix (s prefix : string) : string :=
  if HasPrefix s prefix then drop (String.length prefix) s else s.

(** The part of [s] before the first [sep], and the part after it when
    [sep] occurs. *)
Fixpoint cut (s : string) (sep : ascii) : string * option string :=
  match s with
  | "" => ("", None)
  | String c s' =>
      if Ascii.eqb c sep then ("", Some s')
      else let (a, r) := cut s' sep in (String c a, r)
  end.

(** [SplitN(s, sep, n)] for a one-byte separator and [n > 0]: at most [n]
    substrings, the last one being the unsplit remainder. *)
Fixpoint SplitN (s : string) (sep : ascii) (n : nat) : list string :=
  match n with
  | O => []
  | S O => [s]
  | S n' =>
      match cut s sep with
      | (a, Some r) => a :: SplitN r sep n'
      | (a, None) => [a]
      end
  end.

(** [Split(s, sep)] for a one-byte separator: all substrings. *)
Definition Split (s : string) (sep : ascii) : list string :=
  SplitN s sep (S (S (String.length s))).

Fixpoint Join (elems : list string) (sep : string) : string :=
  match elems with
  | [] => ""
  | [e] => e
  | e :: rest => e ++ sep ++ Join rest sep
  end.

(** White space as defined by Unicode ([unicode.IsSpace]), each rune in
    its UTF-8 encoding. *)
Definition spaces : list string :=
  map string_of_bytes
    [ [9%N]; [10%N]; [11%N]; [12%N]; [13%N]; [32%N];
      [194%N; 133%N]; [194%N; 160%N];
      [225%N; 154%N; 128%N];
      [226%N; 128%N; 128%N]; [226%N; 128%N; 129%N]; [226%N; 128%N; 130%N];
      [226%N; 128%N; 131%N]; [226%N; 128%N; 132%N]; [226%N; 128%N; 133%N];
      [226%N; 128%N; 134%N]; [226%N; 128%N; 135%N]; [226%N; 128%N; 136%N];
      [226%N; 128%N; 137%N]; [226%N; 128%N; 138%N];
      [226%N; 128%N; 168%N]; [226%N; 128%N; 169%N]; [226%N; 128%N; 175%N];
      [226%N; 129%N; 159%N];
      [227%N; 128%N; 128%N] ].

Definition leadingSpace (s : string) : option string :=
  find (HasPrefix s) spaces.

Fixpoint trimLeft (fuel : nat) (s : string) : string :=
  match fuel with
  | O => s
  | S fuel' =>
      match leadingSpace s with
      | Some sp => trimLeft fuel' (drop (String.length sp) s)
      | None => s
      end
  end.

Definition trailingSpace (r : string) : option string :=
  find (fun sp => HasPrefix r (string_rev sp)) spaces.

(** [r] is the string reversed. *)
Fixpoint trimRightRev (fuel : nat) (r : string) : string :=
  match fuel with
  | O => r
  | S fuel' =>
      match trailingSpace r with
      | Some sp => trimRightRev fuel' (drop (String.length sp) r)
      | None => r
      end
  end.

Definition TrimSpace (s : string) : string :=
  let t := trimLeft (String.length s) s in
  string_rev (trimRightRev (String.length t) (string_rev t)).

Definition lowerASCII (c : ascii) : ascii :=
  let n := N_of_ascii c in
  if ((65 <=? n) && (n <=? 90))%N then ascii_of_N (n + 32) else c.

Fixpoint mapBytes (f : ascii -> ascii) (s : string) : string :=
  match s with
  | "" => ""
  | String c s' => String (f c) (mapBytes f s')
  end.

Fixpoint isASCII (s : string) : bool :=
  match s with
  | "" => true
  | String c s' => (N_of_ascii c <? 128)%N && isASCII s'
  end.

End strings.

(* ===================================================================== *)
(** ** Package path *)
(* ===================================================================== *)

Module path.

(** [Ext] scans the reversed name: the extension is the suffix that starts
    at the last dot of the final slash-separated element. *)
Fixpoint extRev (r acc : string) : string :=
  match r with
  | "" => ""
  | String c r' =>
      if Ascii.eqb c "/" then ""
      else if Ascii.eqb c "." then String c acc
      else extRev r' (String c acc)
  end.

Definition Ext (p : string) : string := extRev (string_rev p) "".

Fixpoint dropSlashes (r : string) : string :=
  match r with
  | String c r' => if Ascii.eqb c "/" then dropSlashes r' else r
  | "" => ""
  end.

Fixpoint lastElemRev (r acc : string) : string :=
  match r with
  | "" => acc
  | String c r' => if Ascii.eqb c "/" then acc else lastElemRev r' (String c acc)
  end.

Definition Base (p : string) : string :=
  if String.eqb p "" then "."
  else
    let r := dropSlashes (string_rev p) in
    let e := lastElemRev r "" in
    if String.eqb e "" then "/" else e.

End path.

(* ===================================================================== *)
(** ** Package encoding/hex *)
(* ===================================================================== *)

Module hex.

Definition hextable : string := "0123456789abcdef".

Definition digit (n : N) : ascii :=
  match String.get (N.to_nat n) hextable with
  | Some c => c
  | None => "0"%char
  end.

Fixpoint EncodeToString (src : list Byte.byte) : string :=
  match src with
  | [] => ""
  | b :: src' =>
      let v := Byte.to_N b in
      String (digit (N.shiftr v 4)) (String (digit (N.land v 15)) (EncodeToString src'))
  end.

End hex.

(* ===================================================================== *)
(** ** Package semver *)
(* ===================================================================== *)

(** Modelled from the spec: the semantic-version package the resolvers
    import (github.com/blang/semver) is a dependency that is not under
    src/.  The spec asks for "tolerant semantic-version parsing (accepts
    versions missing some components)" and a comparison by "strictly
    greatest parsed version"; the definitions below follow the package's
    [Version], [Compare], [GT], [Parse] and [ParseTolerant]. *)
Module semver.

Record PRVersion := {
  VersionStr : string;
  VersionNum : N;          (* uint64 *)
  IsNum : bool
}.

Record Version := {
  Major : N;               (* uint64 *)
  Minor : N;
  Patch : N;
  Pre : list PRVersion;
  Build : list string
}.

(** The zero value [Version{}]. *)
Definition zero : Version :=
  {| Major := 0; Minor := 0; Patch := 0; Pre := []; Build := [] |}.

(** Three-way comparisons return [Lt], [Eq], [Gt] for -1, 0, 1. *)
Definition comparePR (v o : PRVersion) : comparison :=
  if IsNum v && negb (IsNum o) then Lt
  else if negb (IsNum v) && IsNum o then Gt
  else if IsNum v && IsNum o then N.compare (VersionNum v) (VersionNum o)
  else String.compare (VersionStr v) (VersionStr o).

(** The loop over the common prefix of the two prerelease lists, then the
    comparison of their lengths. *)
Fixpoint comparePreLoop (v o : list PRVersion) : comparison :=
  match v, o with
  | [], [] => Eq
  | [], _ :: _ => Lt
  | _ :: _, [] => Gt
  | a :: v', b :: o' =>
      match comparePR a b with
      | Eq => comparePreLoop v' o'
      | c => c
      end
  end.

Definition comparePre (v o : list PRVersion) : comparison :=
  match v, o with
  | [], [] => Eq
  | [], _ :: _ => Gt
  | _ :: _, [] => Lt
  | _, _ => comparePreLoop v o
  end.

Definition Compare (v o : Version) : comparison :=
  match N.compare (Major v) (Major o) with
  | Eq =>
      match N.compare (Minor v) (Minor o) with
      | Eq =>
          match N.compare (Patch v) (Patch o) with
          | Eq => comparePre (Pre v) (Pre o)
          | c => c
          end
      | c => c
      end
  | c => c
  end.

Definition GT (v o : Version) : bool :=
  match Compare v o with Gt => true | _ => false end.

Definition numbers : string := "0123456789".
Definition alphas : string :=
  "abcdefghijklmnopqrstuvwxyzABCDEFGHIJKLMNOPQRSTUVWXYZ-".
Definition alphanum : string := alphas ++ numbers.

Fixpoint containsOnly (s set : string) : bool :=
  match s with
  | "" => true
  | String c s' => (0 <=? strings.IndexByte set c) && containsOnly s' set
  end.

Definition hasLeadingZeroes (s : string) : bool :=
  match s with
  | String "0" (String _ _) => true
  | _ => false
  end.

(** [strconv.ParseUint(s, 10, 64)]: [None] on the empty string, on a byte
    that is no decimal digit and on a value above 2^64 - 1. *)
Fixpoint parseDigits (s : string) (acc : N) : option N :=
  match s with
  | "" => Some acc
  | String c s' =>
      let d := N_of_ascii c in
      if ((48 <=? d) && (d <=? 57))%N
      then parseDigits s' (acc * 10 + (d - 48))%N
      else None
  end.

Definition ParseUint (s : string) : option N :=
  match s with
  | "" => None
  | _ => match parseDigits s 0%N with
         | Some n => if (n <? 2 ^ 64)%N then Some n else None
         | None => None
         end
  end.

(** A version number component: digits only, no leading zero. *)
Definition parseNumber (s : string) : option N :=
  if negb (containsOnly s numbers) then None
  else if hasLeadingZeroes s then None
  else ParseUint s.

Definition NewPRVersion (s : string) : option PRVersion :=
  if String.eqb s "" then None
  else if containsOnly s numbers then
    if hasLeadingZeroes s then None
    else match ParseUint s with
         | Some num => Some {| VersionStr := ""; VersionNum := num; IsNum := true |}
         | None => None
         end
  else if containsOnly s alphanum then
    Some {| VersionStr := s; VersionNum := 0; IsNum := false |}
  else None.

Fixpoint parsePre (l : list string) : option (list PRVersion) :=
  match l with
  | [] => Some []
  | s :: l' =>
      match NewPRVersion s with
      | None => None
      | Some p => match parsePre l' with
                  | None => None
                  | Some ps => Some (p :: ps)
                  end
      end
  end.

Definition buildOK (s : string) : bool :=
  negb (String.eqb s "") && containsOnly s alphanum.

(** [None] is a returned error. *)
Definition Parse (s : string) : option Version :=
  if String.eqb s "" then None
  else
    match strings.SplitN s "." 3 with
    | [p0; p1; p2] =>
        match parseNumber p0, parseNumber p1 with
        | Some major, Some minor =>
            let (patchStr, build) :=
              match strings.cut p2 "+" with
              | (a, Some b) => (a, strings.Split b ".")
              | (a, None) => (a, [])
              end in
            let (patchStr', prerelease) :=
              match strings.cut patchStr "-" with
              | (a, Some b) => (a, strings.Split b ".")
              | (a, None) => (a, [])
              end in
            match parseNumber patchStr', parsePre prerelease with
            | Some patch, Some pre =>
                if forallb buildOK build
                then Some {| Major := major; Minor := minor; Patch := patch;
                             Pre := pre; Build := build |}
                else None
            | _, _ => None
            end
        | _, _ => None
        end
    | _ => None
    end.

Fixpoint padParts (parts : list string) (missing : nat) : list string :=
  match missing with
  | O => parts
  | S m => padParts (parts ++ ["0"]) m
  end.

Definition ParseTolerant (s : string) : option Version :=
  let s := strings.TrimSpace s in
  let s := strings.TrimPrefix s "v" in
  let parts := strings.SplitN s "." 3 in
  if (List.length parts <? 3)%nat then
    if strings.ContainsAny (last parts "") "+-" then None
    else Parse (strings.Join (padParts parts (3 - List.length parts)) ".")
  else Parse s.

End semver.

(* ===================================================================== *)
(** ** Errors, log lines and the calls a program makes *)
(* ===================================================================== *)

(** An [error] is either produced by a call to the outside ([ErrExternal])
    or built by [fmt.Errorf]; the format string is kept as written in the
    source, next to its arguments ([AError None] is a nil error printed
    with %v). *)
Inductive error : Type :=
| ErrExternal (msg : string)
| Errorf (format : string) (args : list fmtarg)
with fmtarg : Type :=
| AString (s : string)
| AError (e : option error).

(** A Go result [(v, err)]. *)
Inductive result (T : Type) : Type :=
| Ok (v : T)
| Err (e : error).
Arguments Ok {T} v.
Arguments Err {T} e.

Inductive severity := INFO | WARNING | ERROR | FATAL | VERBOSE (level : nat).

(** The two digest accumulators of package hash the programs create. *)
Inductive Hash := MD5 | SHA256.

Inductive event : Type :=
| Stat (name : string)                       (* os.Stat *)
| Open (name : string)                       (* os.Open *)
| Create (name : string)                     (* os.Create *)
| Close (name : string)                      (* f.Close *)
| Get (url : string)                         (* http.Get *)
| BodyClose (url : string)                   (* resp.Body.Close *)
| Copy (url name : string) (h : Hash)        (* io.Copy(io.MultiWriter(f, h), resp.Body) *)
| CopyFile (name : string) (h : Hash)        (* io.Copy(h, f) *)
| Run (cmd : string) (args : list string)    (* exec.Command(cmd, args...).Run() *)
| RemoveAll (path : string)                  (* os.RemoveAll *)
| Rename (oldpath newpath : string)          (* os.Rename *)
| ListReleases (owner repo : string)         (* client.Repositories.ListReleases *)
| NewClient                                  (* storage.NewClient *)
| Objects (bucket : string)                  (* bkt.Objects and its iteration *)
| Glog (s : severity) (format : string) (args : list fmtarg).

(** Data the hosted-releases API returns; pointer fields are options. *)
Record ReleaseAsset := { BrowserDownloadURL : option string }.
Record RepositoryRelease := {
  TagName : option string;
  Assets : list ReleaseAsset
}.

(** Attributes of an object of a bucket. *)
Record ObjectAttrs := { Name : string; Bucket : string }.

(** The outside world of a run: its state has type [W]; each call returns
    its Go result and the next state.
    - [io_Copy url name] is the copy of the body of the response to [url]
      into the file created as [name] and into a digest accumulator: it
      returns the bytes copied and the error, if any, that ended the copy;
    - [file_Read name] is [io.Copy(h, f)] on the file opened as [name]: the
      bytes read into the accumulator and the error, if any;
    - [bucket_Objects b] is the whole iteration over a bucket: the objects
      [it.Next] yields and the error that ends it ([None] for
      [iterator.Done]). *)
Class OS (W : Type) := {
  os_Stat : string -> W -> option error * W;
  os_Open : string -> W -> option error * W;
  os_Create : string -> W -> option error * W;
  file_Close : string -> W -> option error * W;
  file_Read : string -> W -> (list Byte.byte * option error) * W;
  http_Get : string -> W -> option error * W;
  io_Copy : string -> string -> W -> (list Byte.byte * option error) * W;
  body_Close : string -> W -> unit * W;
  exec_Run : string -> list string -> W -> option error * W;
  os_RemoveAll : string -> W -> option error * W;
  os_Rename : string -> string -> W -> option error * W;
  github_ListReleases : string -> string -> W -> result (list RepositoryRelease) * W;
  storage_NewClient : W -> option error * W;
  bucket_Objects : string -> W -> (list ObjectAttrs * option error) * W
}.

(** Library functions taken as given, one class each:
    - the tolerant version parser, [semver.ParseTolerant] (the examples
      instantiate it by the model above, see [GoSemver]);
    - the lower-case mapping of a string that is not pure ASCII,
      [strings.Map(unicode.ToLower, s)];
    - the SHA-256 sum of the bytes written to an accumulator. *)
Class Semver := ParseTolerant : string -> result semver.Version.
Class Unicode := unicodeLower : string -> string.
Class Sha256 := sha256_Sum : list Byte.byte -> list Byte.byte.


(** [strings.ToLower] *)
Definition ToLower {u : Unicode} (s : string) : string :=
  if strings.isASCII s then strings.mapBytes strings.lowerASCII s
  else unicodeLower s.

(* ===================================================================== *)
(** ** The monad of the programs *)
(* ===================================================================== *)

Record State (W : Type) := { world : W; calls : list event }.

(** A computation returns, panics, or ends the process ([glog.Exit]). *)
Inductive outcome (A : Type) : Type :=
| Return (a : A)
| Panic (msg : string)
| Exited.
Arguments Return {A} a.
Arguments Panic {A} msg.
Arguments Exited {A}.

Definition M (W A : Type) : Type := State W -> outcome A * State W.

Definition ret {W A} (a : A) : M W A := fun s => (Return a, s).

Definition bind {W A B} (m : M W A) (k : A -> M W B) : M W B :=
  fun s =>
    match m s with
    | (Return a, s') => k a s'
    | (Panic msg, s') => (Panic msg, s')
    | (Exited, s') => (Exited, s')
    end.

Notation "x <- m ;; k" := (bind m (fun x => k))
  (at level 61, m at next level, right associativity).
Notation "m ;; k" := (bind m (fun _ => k))
  (at level 61, right associativity).

Definition panic {W A} (msg : string) : M W A := fun s => (Panic msg, s).

(** Record the event, perform the call on the world. *)
Definition call {W R} (e : event) (f : W -> R * W) : M W R :=
  fun s =>
    let (r, w') := f (world s) in
    (Return r, {| world := w'; calls := calls s ++ [e] |}).

Definition glog {W} (sev : severity) (format : string) (args : list fmtarg) : M W unit :=
  fun s => (Return tt, {| world := world s; calls := calls s ++ [Glog sev format args] |}).

(** [glog.Exitf]: the line is logged and the process ends. *)
Definition Exitf {W A} (format : string) (args : list fmtarg) : M W A :=
  fun s => (Exited, {| world := world s; calls := calls s ++ [Glog FATAL format args] |}).

(** A run from a world, with no call made yet. *)
Definition run {W A} (m : M W A) (w : W) : outcome A * State W :=
  m {| world := w; calls := [] |}.

Definition nilDeref : string :=
  "runtime error: invalid memory address or nil pointer dereference".
Definition sliceBounds : string :=
  "runtime error: slice bounds out of range".

(* ===================================================================== *)
(** ** vendor/init.go: the sequential downloader *)
(* ===================================================================== *)

Module vendor_init.

(** [file] represents a file to download. *)
Record file := {
  url : string;
  name : string;
  hash : string;              (* the expected sha256 hash *)
  rename : list string
}.

Definition files : list file :=
  [ {| url := "http://selenium-release.storage.googleapis.com/3.0/selenium-server-standalone-3.0.1.jar";
       name := "selenium-server-standalone-3.0.1.jar";
       hash := "1537b6d1b259191ed51586378791bc62b38b0cb18ae5ba1433009dc365e9f26b";
       rename := [] |};
    {| url := "http://selenium-release.storage.googleapis.com/2.53/selenium-server-standalone-2.53.1.jar";
       name := "selenium-server-standalone-2.53.1.jar";
       hash := "1cce6d3a5ca5b2e32be18ca5107d4f21bddaa9a18700e3b117768f13040b7cf8";
       rename := [] |};
    {| url := "https://chromedriver.storage.googleapis.com/2.26/chromedriver_linux64.zip";
       name := "chromedriver_linux64.zip";
       hash := "59e6b1b1656a20334d5731b3c5a7400f92a9c6f5043bb4ab67f1ccf1979ee486";
       rename := ["chromedriver"; "chromedriver-linux64-2.26"] |} ].

Section Program.
Context {W : Type} {os : OS W} {sha : Sha256}.

(** The deferred [f.Close()]: its error replaces a nil result only. *)
Definition closing (name : string) (body : M W (option error)) : M W (option error) :=
  err <- body ;;
  closeErr <- call (Close name) (file_Close name) ;;
  match closeErr, err with
  | Some _, None =>
      ret (Some (Errorf "error closing %q: %v" [AString name; AError err]))
  | _, _ => ret err
  end.

Definition downloadFile (file : file) : M W (option error) :=
  err <- call (Create (name file)) (os_Create (name file)) ;;
  match err with
  | Some e =>
      ret (Some (Errorf "error creating %q: %v" [AString (name file); AError (Some e)]))
  | None =>
      closing (name file)
        (err <- call (Get (url file)) (http_Get (url file)) ;;
         match err with
         | Some e =>
             ret (Some (Errorf "%s: error downloading %q: %v"
                          [AString (name file); AString (url file); AError (Some e)]))
         | None =>
             r <- (c <- call (Copy (url file) (name file) SHA256)
                             (io_Copy (url file) (name file)) ;;
                   match c with
                   | (_, Some e) =>
                       ret (Some (Errorf "%s: error downloading %q: %v"
                                    [AString (name file); AString (url file); AError (Some e)]))
                   | (data, None) =>
                       let h := hex.EncodeToString (sha256_Sum data) in
                       if negb (String.eqb h (hash file))
                       then ret (Some (Errorf "%s: got sha256 hash %q, want %q"
                                         [AString (name file); AString h; AString (hash file)]))
                       else ret None
                   end) ;;
             call (BodyClose (url file)) (body_Close (url file)) ;;
             ret r
         end)
  end.

Definition fileSameHash (fileName wantHash : string) : M W bool :=
  err <- call (Stat fileName) (os_Stat fileName) ;;
  match err with
  | Some _ => ret false
  | None =>
      err <- call (Open fileName) (os_Open fileName) ;;
      match err with
      | Some _ => ret false
      | None =>
          c <- call (CopyFile fileName SHA256) (file_Read fileName) ;;
          call (Close fileName) (file_Close fileName) ;;
          match c with
          | (_, Some _) => ret false
          | (data, None) =>
              ret (String.eqb (hex.EncodeToString (sha256_Sum data)) wantHash)
          end
      end
  end.

(** The three steps of the body of the loop of [main]. *)
Definition fetchStep (file : file) : M W unit :=
  same <- fileSameHash (name file) (hash file) ;;
  if negb same then
    err <- downloadFile file ;;
    match err with
    | Some e => Exitf "%s" [AError (Some e)]        (* glog.Exit(err.Error()) *)
    | None => ret tt
    end
  else
    glog INFO "Skipping file %q which has already been downloaded." [AString (name file)].

Definition extractStep (file : file) : M W unit :=
  if String.eqb (path.Ext (name file)) ".zip" then
    err <- call (Run "unzip" [name file]) (exec_Run "unzip" [name file]) ;;
    match err with
    | Some e => Exitf "Error unzipping %q: %v" [AString (name file); AError (Some e)]
    | None => ret tt
    end
  else ret tt.

Definition renameStep (file : file) : M W unit :=
  match rename file with
  | [from; to] =>
      err <- call (Rename from to) (os_Rename from to) ;;
      match err with
      | Some e =>
          glog WARNING "Error renaming %q to %q: %v"
            [AString from; AString to; AError (Some e)]
      | None => ret tt
      end
  | _ => ret tt
  end.

Definition step (file : file) : M W unit :=
  fetchStep file ;; extractStep file ;; renameStep file.

Fixpoint forEach (l : list file) : M W unit :=
  match l with
  | [] => ret tt
  | file :: l' => step file ;; forEach l'
  end.

Definition main : M W unit := forEach files.

End Program.

End vendor_init.

(* ===================================================================== *)
(** ** The concurrent downloader and its resolvers *)
(* ===================================================================== *)

Module init.

Record file := {
  url : string;
  name : string;
  hash : string;
  hashType : string;          (* default is sha256 *)
  rename : list string;
  browser : bool
}.

Definition files : list file :=
  [ {| url := "http://selenium-release.storage.googleapis.com/3.4/selenium-server-standalone-3.4.0.jar";
       name := "selenium-server-standalone-3.4.jar";
       hash := "21cbbd775678821b6b72c208b8d59664a4c7381b3c50b008b331914d2834ec8d";
       hashType := ""; rename := []; browser := false |};
    {| url := "https://chromedriver.storage.googleapis.com/2.31/chromedriver_linux64.zip";
       name := "chromedriver_2.31_linux64.zip";
       hash := "3e372ef676beb3a03aba72089ec0624bb9d3b52597635f907d4c23390fb485a0";
       hashType := "";
       rename := ["chromedriver"; "chromedriver-linux64-2.31"]; browser := false |};
    {| url := "https://archive.mozilla.org/pub/firefox/nightly/2017/08/2017-08-21-10-03-50-mozilla-central/firefox-57.0a1.en-US.linux-x86_64.tar.bz2";
       name := "firefox-57.0a1.en-US.linux-x86_64.tar.bz2";
       hash := "77c57356935f66a5a59b1b2cffeaa53b70204195e6a7b15ee828fd3308561e46";
       hashType := "";
       rename := ["firefox"; "firefox-nightly"]; browser := true |};
    {| url := "https://saucelabs.com/downloads/sc-4.4.9-linux.tar.gz";
       name := "sauce-connect-4.4.9-linux.tar.gz";
       hash := "b1bedccc2690b48d6708ac71f23189c85b0da62c56ee943a1b20d8f17fa8bbde";
       hashType := "";
       rename := ["sc-4.4.9-linux"; "sauce-connect"]; browser := false |} ].

Record gitHubRelease := { owner : string; repo : string; filter : string }.

Definition gitHubReleases : list gitHubRelease :=
  [ {| owner := "mozilla"; repo := "geckodriver"; filter := "-linux64" |} ].

Definition storageBktName : string := "selenium-release".
Definition filePrefix : string := "selenium-server-standalone-".

Section Program.
Context {W : Type} {os : OS W} {sv : Semver} {u : Unicode}.

(** The flag [--download_browsers]. *)
Variable downloadBrowsers : bool.

(** *** latestGitHubRelease *)

(** The loop over the releases, with its two variables. *)
Fixpoint releaseLoop (g : gitHubRelease) (rels : list RepositoryRelease)
    (latest : semver.Version) (latestRelease : option RepositoryRelease)
    : M W (semver.Version * option RepositoryRelease) :=
  match rels with
  | [] => ret (latest, latestRelease)
  | r :: rels' =>
      match TagName r with
      | None => panic nilDeref
      | Some tag =>
          match ParseTolerant tag with
          | Err _ =>
              glog (VERBOSE 1) "Invalid tag name: %s/%s %s"
                [AString (owner g); AString (repo g); AString tag] ;;
              releaseLoop g rels' latest latestRelease
          | Ok ver =>
              if semver.GT ver latest
              then releaseLoop g rels' ver (Some r)
              else releaseLoop g rels' latest latestRelease
          end
      end
  end.

(** The loop over the assets of the release. *)
Fixpoint assetLoop (assets : list ReleaseAsset) (filter : string) : option string :=
  match assets with
  | [] => None
  | a :: assets' =>
      match BrowserDownloadURL a with
      | None => assetLoop assets' filter
      | Some u => if strings.Contains u filter then Some u else assetLoop assets' filter
      end
  end.

Definition latestGitHubRelease (g : gitHubRelease) : M W (result string) :=
  res <- call (ListReleases (owner g) (repo g)) (github_ListReleases (owner g) (repo g)) ;;
  match res with
  | Err e => ret (Err e)
  | Ok rels =>
      p <- releaseLoop g rels semver.zero None ;;
      match snd p with
      | None => panic nilDeref                      (* latestRelease.Assets *)
      | Some latestRelease =>
          match assetLoop (Assets latestRelease) (filter g) with
          | Some u => ret (Ok u)
          | None =>
              ret (Err (Errorf "release for %s/%s containing %q not found"
                          [AString (owner g); AString (repo g); AString (filter g)]))
          end
      end
  end.

(** *** latestSeleniumRelease *)

(** The body of the loop for the objects [it.Next] yields. *)
Fixpoint objectLoop (objs : list ObjectAttrs) (latest : semver.Version)
    (object : string) : M W (semver.Version * string) :=
  match objs with
  | [] => ret (latest, object)
  | o :: objs' =>
      let i := strings.Index (Name o) filePrefix in
      if i <? 0 then objectLoop objs' latest object
      else
        match slice (Name o) (i + len filePrefix) (len (Name o) - 4) with
        | None => panic sliceBounds
        | Some n =>
            match ParseTolerant n with
            | Err err =>
                glog (VERBOSE 1) "Error parsing object name %s in bucket %s: %s"
                  [AString (Name o); AString (Bucket o); AError (Some err)] ;;
                objectLoop objs' latest object
            | Ok v =>
                if semver.GT v latest
                then objectLoop objs' v (Name o)
                else objectLoop objs' latest object
            end
        end
  end.

Definition latestSeleniumRelease : M W (result string) :=
  err <- call NewClient storage_NewClient ;;
  match err with
  | Some e =>
      ret (Err (Errorf "cannot create a storage client for downloading the chrome browser: %v"
                  [AError (Some e)]))
  | None =>
      it <- call (Objects storageBktName) (bucket_Objects storageBktName) ;;
      p <- objectLoop (fst it) semver.zero "" ;;
      match snd it with
      | Some e => ret (Err e)
      | None =>
          if String.eqb (snd p) "" then ret (Err (Errorf "no release found" []))
          else ret (Ok (snd p))
      end
  end.

(** *** downloadFile *)

Definition newHash (hashType : string) : Hash :=
  if String.eqb (ToLower hashType) "md5" then MD5 else SHA256.

Definition closing (name : string) (body : M W (option error)) : M W (option error) :=
  err <- body ;;
  closeErr <- call (Close name) (file_Close name) ;;
  match closeErr, err with
  | Some _, None =>
      ret (Some (Errorf "error closing %q: %v" [AString name; AError err]))
  | _, _ => ret err
  end.

Definition downloadFile (file : file) : M W (option error) :=
  err <- call (Create (name file)) (os_Create (name file)) ;;
  match err with
  | Some e =>
      ret (Some (Errorf "error creating %q: %v" [AString (name file); AError (Some e)]))
  | None =>
      closing (name file)
        (err <- call (Get (url file)) (http_Get (url file)) ;;
         match err with
         | Some e =>
             ret (Some (Errorf "%s: error downloading %q: %v"
                          [AString (name file); AString (url file); AError (Some e)]))
         | None =>
             let h := newHash (hashType file) in
             r <- (c <- call (Copy (url file) (name file) h)
                             (io_Copy (url file) (name file)) ;;
                   match snd c with
                   | Some e =>
                       ret (Some (Errorf "%s: error downloading %q: %v"
                                    [AString (name file); AString (url file); AError (Some e)]))
                   | None => ret None
                   end) ;;
             call (BodyClose (url file)) (body_Close (url file)) ;;
             ret r
         end)
  end.

(** *** handleFile *)

Definition fetchStep (file : file) : M W (option error) :=
  err <- call (Stat (name file)) (os_Stat (name file)) ;;
  match err with
  | Some _ =>
      glog INFO "Downloading %q from %q" [AString (name file); AString (url file)] ;;
      downloadFile file
  | None => ret None
  end.

Definition unpack (file : file) (cmd flag : string) : M W (option error) :=
  glog INFO "Unzipping %q" [AString (name file)] ;;
  err <- call (Run cmd [flag; name file]) (exec_Run cmd [flag; name file]) ;;
  match err with
  | Some e =>
      ret (Some (Errorf "Error unzipping %q: %v" [AString (name file); AError (Some e)]))
  | None => ret None
  end.

Definition extractStep (file : file) : M W (option error) :=
  let ext := path.Ext (name file) in
  if String.eqb ext ".zip" then unpack file "unzip" "-o"
  else if String.eqb ext ".gz" then unpack file "tar" "-xzf"
  else if String.eqb ext ".bz2" then unpack file "tar" "-xjf"
  else ret None.

Definition renameStep (file : file) : M W unit :=
  match rename file with
  | [from; to] =>
      glog INFO "Renaming %q to %q" [AString from; AString to] ;;
      call (RemoveAll to) (os_RemoveAll to) ;;          (* Ignore error. *)
      err <- call (Rename from to) (os_Rename from to) ;;
      match err with
      | Some e =>
          glog WARNING "Error renaming %q to %q: %v"
            [AString from; AString to; AError (Some e)]
      | None => ret tt
      end
  | _ => ret tt
  end.

Definition handleFile (file : file) : M W (option error) :=
  if browser file && negb downloadBrowsers then
    glog INFO "Skipping %q because --download_browser is not set." [AString (name file)] ;;
    ret None
  else
    err <- fetchStep file ;;
    match err with
    | Some e => ret (Some e)
    | None =>
        err <- extractStep file ;;
        match err with
        | Some e => ret (Some e)
        | None => renameStep file ;; ret None
        end
    end.

(** *** The tasks [main] starts *)

Definition resolved (u : string) : file :=
  {| url := u; name := path.Base u; hash := ""; hashType := "";
     rename := []; browser := false |}.

Definition gitHubTask (r : gitHubRelease) : M W unit :=
  res <- latestGitHubRelease r ;;
  match res with
  | Err e =>
      Exitf "Error handling %s/%s: %s"
        [AString (owner r); AString (repo r); AError (Some e)]
  | Ok u =>
      err <- handleFile (resolved u) ;;
      match err with
      | Some e =>
          Exitf "Error handling %s/%s: %s"
            [AString (owner r); AString (repo r); AError (Some e)]
      | None => ret tt
      end
  end.

Definition seleniumTask : M W unit :=
  res <- latestSeleniumRelease ;;
  match res with
  | Err e => Exitf "Error fetching the latest Selenium release: %s" [AError (Some e)]
  | Ok u =>
      err <- handleFile (resolved u) ;;
      match err with
      | Some e => Exitf "Error fetching the latest Selenium release: %s" [AError (Some e)]
      | None => ret tt
      end
  end.

End Program.

End init.


(* ===================================================================== *)
(** ** Notions the statements use *)
(* ===================================================================== *)

(** *** Absolute URLs

    A URL is absolute when it has a scheme; [getScheme] is the scan of
    package net/url: letters, then also digits, [+], [-] and [.], up to a
    colon. *)
Module url.

Definition isLetter (c : ascii) : bool :=
  let n := N_of_ascii c in
  (((97 <=? n) && (n <=? 122)) || ((65 <=? n) && (n <=? 90)))%N.

Definition isSchemeByte (c : ascii) : bool :=
  let n := N_of_ascii c in
  (((48 <=? n) && (n <=? 57)) || (n =? 43) || (n =? 45) || (n =? 46))%N.

(** [first] tells that the scan is at the first byte. *)
Fixpoint getScheme (rawURL : string) (first : bool) (acc : string) : string :=
  match rawURL with
  | "" => ""
  | String c rest =>
      if isLetter c then getScheme rest false (acc ++ String c "")
      else if isSchemeByte c then
        if first then "" else getScheme rest false (acc ++ String c "")
      else if Ascii.eqb c ":" then (if first then "" else acc)
      else ""
  end.

Definition IsAbs (rawURL : string) : bool :=
  negb (String.eqb (getScheme rawURL true "") "").

End url.

(** *** The newest of a list of candidates

    What both resolver loops compute: a candidate replaces the current
    choice when its version is strictly greater than the latest one. *)
Fixpoint newest {X : Type} (l : list (X * option semver.Version))
    (latest : semver.Version) (cur : option X) : semver.Version * option X :=
  match l with
  | [] => (latest, cur)
  | (_, None) :: l' => newest l' latest cur
  | (x, Some v) :: l' =>
      if semver.GT v latest then newest l' v (Some x) else newest l' latest cur
  end.

(** [x], with version [v], is the first of the candidates with the greatest
    version: strictly newer than every versioned candidate before it and no
    older than any after it. *)
Definition FirstGreatest {X : Type} (l : list (X * option semver.Version))
    (x : X) (v : semver.Version) : Prop :=
  exists pre post,
    l = (pre ++ (x, Some v) :: post)%list /\
    Forall (fun c => forall w, snd c = Some w -> semver.GT v w = true) pre /\
    Forall (fun c => forall w, snd c = Some w -> semver.GT w v = false) post.

(** No candidate has a version above 0.0.0. *)
Definition NoneAboveZero {X : Type} (l : list (X * option semver.Version)) : Prop :=
  Forall (fun c => forall w, snd c = Some w -> semver.GT w semver.zero = false) l.

Section Candidates.
Context {sv : Semver}.

Definition parsed (s : string) : option semver.Version :=
  match ParseTolerant s with
  | Ok v => Some v
  | Err _ => None
  end.

(** The version of a release: its tag, parsed. *)
Definition releaseVersion (r : RepositoryRelease) : option semver.Version :=
  match TagName r with
  | Some tag => parsed tag
  | None => None
  end.

Definition releaseCandidates (rels : list RepositoryRelease)
    : list (RepositoryRelease * option semver.Version) :=
  map (fun r => (r, releaseVersion r)) rels.

(** The version of an object: the text between the first instance of the
    file prefix in its name and the last four bytes, parsed. *)
Definition objectVersion (name : string) : option semver.Version :=
  let i := strings.Index name init.filePrefix in
  if i <? 0 then None
  else match slice name (i + len init.filePrefix) (len name - 4) with
       | Some n => parsed n
       | None => None
       end.

Definition objectCandidates (objs : list ObjectAttrs)
    : list (string * option semver.Version) :=
  map (fun o => (Name o, objectVersion (Name o))) objs.

End Candidates.

(** An object name is long enough when four bytes or more follow the first
    instance of the file prefix, if there is one. *)
Definition longEnough (name : string) : Prop :=
  let i := strings.Index name init.filePrefix in
  i < 0 \/ i + len init.filePrefix <= len name - 4.

(** The first asset with a download URL that contains [filter]. *)
Definition FirstMatch (assets : list ReleaseAsset) (filter u : string) : Prop :=
  exists pre a post,
    assets = (pre ++ a :: post)%list /\
    BrowserDownloadURL a = Some u /\
    strings.Contains u filter = true /\
    Forall (fun a' => forall u', BrowserDownloadURL a' = Some u' ->
                                 strings.Contains u' filter = false) pre.

Definition NoMatch (assets : list ReleaseAsset) (filter : string) : Prop :=
  Forall (fun a' => forall u', BrowserDownloadURL a' = Some u' ->
                               strings.Contains u' filter = false) assets.

(** Calls of the fetch step: the network request and the writing of the
    target file. *)
Definition isFetch (e : event) : bool :=
  match e with
  | Get _ | Create _ | Copy _ _ _ => true
  | _ => false
  end.

(** Calls that read a file to compute its digest. *)
Definition isDigestRead (e : event) : bool :=
  match e with
  | Open _ | CopyFile _ _ => true
  | _ => false
  end.

Definition isRemoveAll (e : event) : bool :=
  match e with
  | RemoveAll _ => true
  | _ => false
  end.


(* ===================================================================== *)
(** ** A simulated world for the examples *)
(* ===================================================================== *)

(** Files of the working directory and documents of the web, by name; the
    releases and the objects the two listings return; the commands that
    fail. *)
Record Sim := {
  disk : list (string * list Byte.byte);
  web : list (string * list Byte.byte);
  releases : list RepositoryRelease;
  objects : list ObjectAttrs;
  broken : list string
}.

Fixpoint lookup {V : Type} (k : string) (l : list (string * V)) : option V :=
  match l with
  | [] => None
  | (k', v) :: l' => if String.eqb k k' then Some v else lookup k l'
  end.

Fixpoint remove {V : Type} (k : string) (l : list (string * V)) : list (string * V) :=
  match l with
  | [] => []
  | (k', v) :: l' => if String.eqb k k' then remove k l' else (k', v) :: remove k l'
  end.

Definition withDisk (w : Sim) (d : list (string * list Byte.byte)) : Sim :=
  {| disk := d; web := web w; releases := releases w; objects := objects w;
     broken := broken w |}.

Definition present (name : string) (w : Sim) : option error :=
  match lookup name (disk w) with
  | Some _ => None
  | None => Some (ErrExternal "no such file or directory")
  end.

#[global] Instance SimOS : OS Sim := {
  os_Stat name w := (present name w, w);
  os_Open name w := (present name w, w);
  os_Create name w := (None, withDisk w ((name, []) :: remove name (disk w)));
  file_Close name w := (None, w);
  file_Read name w :=
    (match lookup name (disk w) with
     | Some data => (data, None)
     | None => ([], Some (ErrExternal "bad file descriptor"))
     end, w);
  http_Get u w :=
    (match lookup u (web w) with
     | Some _ => None
     | None => Some (ErrExternal "unsupported protocol scheme")
     end, w);
  io_Copy u name w :=
    match lookup u (web w) with
    | Some data => ((data, None), withDisk w ((name, data) :: remove name (disk w)))
    | None => (([], Some (ErrExternal "read on closed response body")), w)
    end;
  body_Close u w := (tt, w);
  exec_Run cmd args w :=
    (if existsb (String.eqb cmd) (broken w)
     then Some (ErrExternal "exit status 1") else None, w);
  os_RemoveAll p w := (None, withDisk w (remove p (disk w)));
  os_Rename from to w :=
    match lookup from (disk w) with
    | Some data => (None, withDisk w ((to, data) :: remove to (remove from (disk w))))
    | None => (Some (ErrExternal "no such file or directory"), w)
    end;
  github_ListReleases owner repo w := (Ok (releases w), w);
  storage_NewClient w := (None, w);
  bucket_Objects b w := ((objects w, None), w)
}.

(** The parser of the examples: the model of package semver. *)
#[global] Instance GoSemver : Semver := fun s =>
  match semver.ParseTolerant s with
  | Some v => Ok v
  | None => Err (ErrExternal "invalid version")
  end.

(** A lower-case mapping for the examples: letters of ASCII only. *)
#[global] Instance ASCIILower : Unicode := strings.mapBytes strings.lowerASCII.

Definition emptyWorld : Sim :=
  {| disk := []; web := []; releases := []; objects := []; broken := [] |}.

(** *** Three-way comparisons

    [c] orders its type as a total preorder: swapping the arguments
    reverses the answer, [Lt] is transitive, and equivalent elements compare
    alike. *)
Record ThreeWay {A : Type} (c : A -> A -> comparison) : Prop := {
  tw_sym : forall a b, c b a = CompOpp (c a b);
  tw_lt : forall a b d, c a b = Lt -> c b d = Lt -> c a d = Lt;
  tw_eq : forall a b d, c a b = Eq -> c a d = c b d
}.

(** First [c1], then [c2] on a tie. *)
Definition lexi {A : Type} (c1 c2 : A -> A -> comparison) (a b : A) : comparison :=
  match c1 a b with
  | Eq => c2 a b
  | r => r
  end.

(** Lists, position by position; a proper prefix is smaller. *)
Fixpoint lexList {A : Type} (c : A -> A -> comparison) (v o : list A) : comparison :=
  match v, o with
  | [], [] => Eq
  | [], _ :: _ => Lt
  | _ :: _, [] => Gt
  | a :: v', b :: o' =>
      match c a b with
      | Eq => lexList c v' o'
      | r => r
      end
  end.


(** *** Inputs of the examples *)

Definition asset (u : string) : ReleaseAsset := {| BrowserDownloadURL := Some u |}.

Definition release (tag : string) (urls : list string) : RepositoryRelease :=
  {| TagName := Some tag; Assets := map asset urls |}.

Definition object (name : string) : ObjectAttrs :=
  {| Name := name; Bucket := init.storageBktName |}.

Definition geckodriver : init.gitHubRelease :=
  {| init.owner := "mozilla"; init.repo := "geckodriver"; init.filter := "-linux64" |}.

(** Releases tagged v1.2.0, v1.10.0, not-a-version and v1.3.0-rc1. *)
Definition taggedReleases : list RepositoryRelease :=
  [ release "v1.2.0" ["https://example.org/v1.2.0/driver-linux64.tar.gz"];
    release "v1.10.0" ["https://example.org/v1.10.0/driver-macos.tar.gz";
                       "https://example.org/v1.10.0/driver-linux64.tar.gz"];
    release "not-a-version" ["https://example.org/other/driver-linux64.tar.gz"];
    release "v1.3.0-rc1" ["https://example.org/v1.3.0-rc1/driver-linux64.tar.gz"] ].

Definition releaseWorld (rels : list RepositoryRelease) : Sim :=
  {| disk := []; web := []; releases := rels; objects := []; broken := [] |}.


Definition bucketWorld (names : list string) : Sim :=
  {| disk := []; web := []; releases := []; objects := map object names; broken := [] |}.

(** Objects named prefix-2.26.jar, prefix-3.0.1.jar, prefix-x.jar and
    prefix-3.4.0.jar, for the file prefix of the resolver. *)
Definition listedJars : list string :=
  [ "selenium-server-standalone-2.26.jar";
    "selenium-server-standalone-3.0.1.jar";
    "selenium-server-standalone-x.jar";
    "selenium-server-standalone-3.4.0.jar" ].

(** The object name the source gives as an example. *)
Definition objectName381 : string := "3.8/selenium-server-standalone-3.8.1.jar".

(** A file of the working directory [data] and a web that serves [body] at
    [u]. *)
Definition fileWorld (name : string) (data : list Byte.byte)
    (u : string) (body : list Byte.byte) : Sim :=
  {| disk := [(name, data)]; web := [(u, body)]; releases := []; objects := [];
     broken := [] |}.

Definition webWorld (u : string) (body : list Byte.byte) : Sim :=
  {| disk := []; web := [(u, body)]; releases := []; objects := []; broken := [] |}.

(** The descriptors of the source, by position. *)
Definition seleniumJar : init.file := nth 0 init.files (init.resolved "").
Definition chromedriverZip : init.file := nth 1 init.files (init.resolved "").
Definition firefoxNightly : init.file := nth 2 init.files (init.resolved "").
Definition sauceConnect : init.file := nth 3 init.files (init.resolved "").

Definition vendorChromedriver : vendor_init.file :=
  nth 2 vendor_init.files
    {| vendor_init.url := ""; vendor_init.name := ""; vendor_init.hash := "";
       vendor_init.rename := [] |}.

Definition tarball : vendor_init.file :=
  {| vendor_init.url := "https://example.org/file.tar.gz";
     vendor_init.name := "file.tar.gz"; vendor_init.hash := "";
     vendor_init.rename := [] |}.

(** A descriptor with a target name only. *)
Definition named (n : string) : init.file :=
  {| init.url := ""; init.name := n; init.hash := ""; init.hashType := "";
     init.rename := []; init.browser := false |}.

(** The warning a failed rename leaves in the log. *)
Definition renameWarning (from to : string) (err : option error) : list event :=
  match err with
  | Some e =>
      [Glog WARNING "Error renaming %q to %q: %v"
         [AString from; AString to; AError (Some e)]]
  | None => []
  end.

(* ===================================================================== *)
(** ** The rest of the programs *)
(* ===================================================================== *)

(** *** Package crypto/sha256

    The digest of FIPS 180-4, for the examples that run the sequential
    downloader. *)
Module sha256.
Section Digest.
Local Open Scope N_scope.

Definition mask (x : N) : N := N.land x 4294967295.

Definition add (a b : N) : N := mask (a + b).

Definition rotr (n x : N) : N :=
  N.lor (N.shiftr x n) (mask (N.shiftl x (32 - n))).

Definition K : list N :=
  [ 1116352408; 1899447441; 3049323471; 3921009573; 961987163; 1508970993; 2453635748; 2870763221; 3624381080; 310598401; 607225278; 1426881987; 1925078388; 2162078206; 2614888103; 3248222580; 3835390401; 4022224774; 264347078; 604807628; 770255983; 1249150122; 1555081692; 1996064986; 2554220882; 2821834349; 2952996808; 3210313671; 3336571891; 3584528711; 113926993; 338241895; 666307205; 773529912; 1294757372; 1396182291; 1695183700; 1986661051; 2177026350; 2456956037; 2730485921; 2820302411; 3259730800; 3345764771; 3516065817; 3600352804; 4094571909; 275423344; 430227734; 506948616; 659060556; 883997877; 958139571; 1322822218; 1537002063; 1747873779; 1955562222; 2024104815; 2227730452; 2361852424; 2428436474; 2756734187; 3204031479; 3329325298 ].

Definition init : list N :=
  [ 1779033703; 3144134277; 1013904242; 2773480762; 1359893119; 2600822924; 528734635; 1541459225 ].

(** Zero bytes up to 56 modulo 64, after the byte 0x80. *)
Definition zeros (len : N) : list N :=
  repeat 0 (N.to_nat ((119 - len mod 64) mod 64)).

Definition be (width : nat) (x : N) : list N :=
  map (fun i => N.land (N.shiftr x (8 * N.of_nat i)) 255) (rev (seq 0 width)).

Definition pad (msg : list N) : list N :=
  let len := N.of_nat (length msg) in
  msg ++ [128] ++ zeros len ++ be 8 (8 * len).

Fixpoint words (bytes : list N) : list N :=
  match bytes with
  | b0 :: b1 :: b2 :: b3 :: rest =>
      (N.shiftl b0 24 + N.shiftl b1 16 + N.shiftl b2 8 + b3) :: words rest
  | _ => []
  end.

Definition s0 (x : N) : N := N.lxor (N.lxor (rotr 7 x) (rotr 18 x)) (N.shiftr x 3).
Definition s1 (x : N) : N := N.lxor (N.lxor (rotr 17 x) (rotr 19 x)) (N.shiftr x 10).

(** The message schedule: [n] more words after those of [w]. *)
Fixpoint extend (n : nat) (w : list N) : list N :=
  match n with
  | O => w
  | S n' =>
      let i := length w in
      let at' k := nth (i - k) w 0 in
      extend n' (w ++ [add (add (s1 (at' 2%nat)) (at' 7%nat))
                           (add (s0 (at' 15%nat)) (at' 16%nat))])
  end.

Definition round (st : list N) (kw : N * N) : list N :=
  match st with
  | [a; b; c; d; e; f; g; h] =>
      let S1 := N.lxor (N.lxor (rotr 6 e) (rotr 11 e)) (rotr 25 e) in
      let ch := N.lxor (N.land e f) (N.land (N.lxor e 4294967295) g) in
      let t1 := add (add (add h S1) (add ch (fst kw))) (snd kw) in
      let S0 := N.lxor (N.lxor (rotr 2 a) (rotr 13 a)) (rotr 22 a) in
      let maj := N.lxor (N.lxor (N.land a b) (N.land a c)) (N.land b c) in
      let t2 := add S0 maj in
      [add t1 t2; a; b; c; add d t1; e; f; g]
  | _ => st
  end.

Definition compress (h : list N) (block : list N) : list N :=
  let w := extend 48 (words block) in
  map (fun p => add (fst p) (snd p)) (combine h (fold_left round (combine K w) h)).

Fixpoint blocks (n : nat) (h : list N) (bytes : list N) : list N :=
  match n with
  | O => h
  | S n' => blocks n' (compress h (firstn 64 bytes)) (skipn 64 bytes)
  end.

Definition Sum256 (data : list Byte.byte) : list Byte.byte :=
  let bytes := pad (map Byte.to_N data) in
  let h := blocks (length bytes / 64) init bytes in
  map (fun b => match Byte.of_N b with Some x => x | None => Byte.x00 end)
      (flat_map (be 4) h).

End Digest.
End sha256.


#[global] Instance GoSha256 : Sha256 := sha256.Sum256.

(** *** Package path: Clean and Join

    [Clean] keeps the output buffer reversed; [w], the write index of the
    source, is its length. *)
Module path_clean.

(** [out.w--; for out.w > dotdot && out.index(out.w) != '/' { out.w-- }] *)
Fixpoint backtrack (out : string) (dotdot : nat) : string :=
  match out with
  | "" => ""
  | String c out' =>
      if (dotdot <? String.length out')%nat && negb (Ascii.eqb c "/")
      then backtrack out' dotdot
      else out'
  end.

(** [for ; r < n && path[r] != '/'; r++ { out.append(path[r]) }] *)
Fixpoint copyElement (rest out : string) : string * string :=
  match rest with
  | "" => ("", out)
  | String c rest' =>
      if Ascii.eqb c "/" then (rest, out) else copyElement rest' (String c out)
  end.

(** The byte at [r + k] is the end of the path or a slash. *)
Definition endsElement (rest : string) : bool :=
  match rest with
  | "" => true
  | String c _ => Ascii.eqb c "/"
  end.

Fixpoint loop (fuel : nat) (rooted : bool) (rest out : string) (dotdot : nat) : string :=
  match fuel with
  | O => out
  | S fuel' =>
      match rest with
      | "" => out
      | String c r1 =>
          if Ascii.eqb c "/" then loop fuel' rooted r1 out dotdot
          else if Ascii.eqb c "." && endsElement r1 then loop fuel' rooted r1 out dotdot
          else if Ascii.eqb c "." && strings.HasPrefix r1 "." && endsElement (strings.drop 1 r1)
          then
            let r2 := strings.drop 1 r1 in
            if (dotdot <? String.length out)%nat
            then loop fuel' rooted r2 (backtrack out dotdot) dotdot
            else if negb rooted then
              let out1 := if (0 <? String.length out)%nat then String "/" out else out in
              let out2 := String "." (String "." out1) in
              loop fuel' rooted r2 out2 (String.length out2)
            else loop fuel' rooted r2 out dotdot
          else
            let w := String.length out in
            let out1 :=
              if (rooted && negb (w =? 1)%nat) || (negb rooted && negb (w =? 0)%nat)
              then String "/" out else out in
            let (rest', out2) := copyElement rest out1 in
            loop fuel' rooted rest' out2 dotdot
      end
  end.

Definition Clean (p : string) : string :=
  match p with
  | "" => "."
  | String c rest =>
      let rooted := Ascii.eqb c "/" in
      let out :=
        if rooted then loop (String.length p) true rest "/" 1
        else loop (String.length p) false p "" 0 in
      if (String.length out =? 0)%nat then "." else string_rev out
  end.

Fixpoint Join (elem : list string) : string :=
  match elem with
  | [] => ""
  | e :: rest => if String.eqb e "" then Join rest else Clean (strings.Join elem "/")
  end.

End path_clean.


(** *** addChrome and the start of main *)

(** The fields of the attributes of an object that [addChrome] reads. *)
Record PackageAttrs := { AttrsMD5 : list Byte.byte; MediaLink : string }.

(** The calls on single objects of a bucket, by bucket and object name:
    [bkt.Object(name).NewReader], [ioutil.ReadAll] and [Close] on that
    reader, [bkt.Object(name).Attrs]. *)
Class ObjectStore (W : Type) := {
  object_NewReader : string -> string -> W -> option error * W;
  reader_ReadAll : string -> string -> W -> (list Byte.byte * option error) * W;
  reader_Close : string -> string -> W -> unit * W;
  object_Attrs : string -> string -> W -> result PackageAttrs * W
}.

(** A call on the world that the recorded events do not list. *)
Definition perform {W R} (f : W -> R * W) : M W R :=
  fun s =>
    let (r, w') := f (world s) in
    (Return r, {| world := w'; calls := calls s |}).

Definition chromeBktName : string := "chromium-browser-snapshots".
Definition prefixLinux64 : string := "Linux_x64".
Definition lastChangeFile : string := "Linux_x64/LAST_CHANGE".
Definition chromeFilename : string := "chrome-linux.zip".
Definition gcsPath : string := "gs://" ++ chromeBktName ++ "/".

(** The descriptor [addChrome] appends. *)
Definition chromeFile (cpAttrs : PackageAttrs) : init.file :=
  {| init.name := chromeFilename;
     init.browser := true;
     init.hash := hex.EncodeToString (AttrsMD5 cpAttrs);
     init.hashType := "md5";
     init.url := MediaLink cpAttrs;
     init.rename := [] |}.

Section Chrome.
Context {W : Type} {os : OS W} {store : ObjectStore W}.

(** The package variable [files] is passed in and returned. *)
Definition addChrome (files : list init.file) : M W (option error * list init.file) :=
  err <- call NewClient storage_NewClient ;;
  match err with
  | Some e =>
      ret (Some (Errorf "cannot create a storage client for downloading the chrome browser: %v"
                   [AError (Some e)]), files)
  | None =>
      err <- perform (object_NewReader chromeBktName lastChangeFile) ;;
      match err with
      | Some e =>
          ret (Some (Errorf "cannot create a reader for %s%s file: %v"
                       [AString gcsPath; AString lastChangeFile; AError (Some e)]), files)
      | None =>
          r <- (rd <- perform (reader_ReadAll chromeBktName lastChangeFile) ;;
                match snd rd with
                | Some e =>
                    ret (Some (Errorf "cannot read from %s%s file: %v"
                                 [AString gcsPath; AString lastChangeFile; AError (Some e)]),
                         files)
                | None =>
                    let latestChromeBuild := string_of_list_byte (fst rd) in
                    let latestChromePackage :=
                      path_clean.Join [prefixLinux64; latestChromeBuild; chromeFilename] in
                    a <- perform (object_Attrs chromeBktName latestChromePackage) ;;
                    match a with
                    | Err e =>
                        ret (Some (Errorf "cannot get the chrome package %s%s attrs: %v"
                                     [AString gcsPath; AString latestChromePackage;
                                      AError (Some e)]), files)
                    | Ok cpAttrs => ret (None, (files ++ [chromeFile cpAttrs])%list)
                    end
                end) ;;
          perform (reader_Close chromeBktName lastChangeFile) ;;
          ret r
      end
  end.

(** The first statements of [main]. *)
Definition mainSetup (downloadBrowsers : bool) (files : list init.file)
    : M W (list init.file) :=
  if downloadBrowsers then
    r <- addChrome files ;;
    match fst r with
    | Some e =>
        glog ERROR "unable to Download Google Chrome browser: %v" [AError (Some e)] ;;
        ret (snd r)
    | None => ret (snd r)
    end
  else ret files.

End Chrome.

(** An element of a path that [Clean] copies as it is: not empty, without
    a slash, and not starting with a dot. *)
Definition plainElement (e : string) : Prop :=
  match e with
  | "" => False
  | String c _ => c <> "."%char /\ strings.IndexByte e "/" = (-1)%Z
  end.

(** *** A world with faults, for the examples of the error paths *)

Inductive fault :=
| FStat | FOpen | FCreate | FClose | FRead | FGet | FCopy | FRun | FRemoveAll
| FRename | FListReleases | FNewClient | FObjects | FNewReader | FReadAll | FAttrs.

Definition fault_eqb (a b : fault) : bool :=
  match a, b with
  | FStat, FStat | FOpen, FOpen | FCreate, FCreate | FClose, FClose
  | FRead, FRead | FGet, FGet | FCopy, FCopy | FRun, FRun
  | FRemoveAll, FRemoveAll | FRename, FRename | FListReleases, FListReleases
  | FNewClient, FNewClient | FObjects, FObjects | FNewReader, FNewReader
  | FReadAll, FReadAll | FAttrs, FAttrs => true
  | _, _ => false
  end.

(** A simulated world, the calls that fail in it, the content of the
    LAST_CHANGE object and the attributes of the packages of the bucket. *)
Record Lab := {
  sim : Sim;
  faults : list fault;
  lastChange : list Byte.byte;
  packages : list (string * PackageAttrs)
}.

Definition injected : error := ErrExternal "injected fault".

Definition fails (k : fault) (w : Lab) : bool := existsb (fault_eqb k) (faults w).

Definition withSim (w : Lab) (s : Sim) : Lab :=
  {| sim := s; faults := faults w; lastChange := lastChange w; packages := packages w |}.

(** A call that returns an optional error: the fault, or the call on the
    simulated world. *)
Definition faulty {R : Type} (k : fault) (bad : R) (f : Sim -> R * Sim) (w : Lab)
    : R * Lab :=
  if fails k w then (bad, w)
  else let (r, s) := f (sim w) in (r, withSim w s).

#[global] Instance LabOS : OS Lab := {
  os_Stat name := faulty FStat (Some injected) (os_Stat name);
  os_Open name := faulty FOpen (Some injected) (os_Open name);
  os_Create name := faulty FCreate (Some injected) (os_Create name);
  file_Close name := faulty FClose (Some injected) (file_Close name);
  file_Read name := faulty FRead ([], Some injected) (file_Read name);
  http_Get u := faulty FGet (Some injected) (http_Get u);
  io_Copy u name := faulty FCopy ([], Some injected) (io_Copy u name);
  body_Close u := faulty FClose tt (body_Close u);
  exec_Run cmd args := faulty FRun (Some injected) (exec_Run cmd args);
  os_RemoveAll p := faulty FRemoveAll (Some injected) (os_RemoveAll p);
  os_Rename from to := faulty FRename (Some injected) (os_Rename from to);
  github_ListReleases owner repo :=
    faulty FListReleases (Err injected) (github_ListReleases owner repo);
  storage_NewClient := faulty FNewClient (Some injected) storage_NewClient;
  bucket_Objects b w :=
    if fails FObjects w then ((objects (sim w), Some injected), w)
    else ((objects (sim w), None), w)
}.

#[global] Instance LabStore : ObjectStore Lab := {
  object_NewReader b o w := (if fails FNewReader w then Some injected else None, w);
  reader_ReadAll b o w :=
    (if fails FReadAll w then ([], Some injected) else (lastChange w, None), w);
  reader_Close b o w := (tt, w);
  object_Attrs b o w :=
    (if fails FAttrs w then Err injected
     else match lookup o (packages w) with
          | Some a => Ok a
          | None => Err (ErrExternal "storage: object doesn't exist")
          end, w)
}.

Definition lab (s : Sim) (fs : list fault) : Lab :=
  {| sim := s; faults := fs; lastChange := []; packages := [] |}.

(** A bucket whose LAST_CHANGE object holds [build] and that has the
    package of that build. *)
Definition chromeLab (build : string) (a : PackageAttrs) (fs : list fault) : Lab :=
  {| sim := emptyWorld; faults := fs;
     lastChange := list_byte_of_string build;
     packages := [(("Linux_x64/" ++ build ++ "/chrome-linux.zip")%string, a)] |}.

(** *** Counting calls *)

Definition isClose (name : string) (e : event) : bool :=
  match e with
  | Close n => String.eqb n name
  | _ => false
  end.

Definition isGet (e : event) : bool :=
  match e with
  | Get _ => true
  | _ => false
  end.

Definition isBodyClose (e : event) : bool :=
  match e with
  | BodyClose _ => true
  | _ => false
  end.

Definition count (p : event -> bool) (l : list event) : nat := length (filter p l).

(** The calls of [fileSameHash]. *)
Definition isHashCall (e : event) : bool :=
  match e with
  | Stat _ | Open _ | CopyFile _ _ | Close _ => true
  | _ => false
  end.

(** Calls that change the working directory. *)
Definition isChange (e : event) : bool :=
  match e with
  | Create _ | Copy _ _ _ | Run _ _ | RemoveAll _ | Rename _ _ => true
  | _ => false
  end.

Definition isGlog (e : event) : bool :=
  match e with
  | Glog _ _ _ => true
  | _ => false
  end.

(** A computation only adds to the recorded calls, and what it does is the
    same after any calls made before. *)
Definition framed {W A : Type} (m : M W A) : Prop :=
  forall (w : W) (c : list event),
    m {| world := w; calls := c |} =
    (fst (run m w),
     {| world := world (snd (run m w));
        calls := (c ++ calls (snd (run m w)))%list |}).

(** What [handleFile] may call for a descriptor: the target name, the URL,
    the three unpack commands on the target, the rename pair, the log. *)
Definition allowed {u : Unicode} (f : init.file) (e : event) : Prop :=
  match e with
  | Stat n | Create n | Close n => n = init.name f
  | Get l | BodyClose l => l = init.url f
  | Copy l n h =>
      l = init.url f /\ n = init.name f /\ h = init.newHash (init.hashType f)
  | Run cmd args =>
      (cmd = "unzip" /\ args = ["-o"; init.name f]) \/
      (cmd = "tar" /\ args = ["-xzf"; init.name f]) \/
      (cmd = "tar" /\ args = ["-xjf"; init.name f])
  | RemoveAll p => exists a, init.rename f = [a; p]
  | Rename a b => init.rename f = [a; b]
  | Glog _ _ _ => True
  | _ => False
  end.


(** Calls of the steps after the download: the unpack command, the removal
    and the rename. *)
Definition isRun (e : event) : bool :=
  match e with
  | Run _ _ => true
  | _ => false
  end.

Definition isRename (e : event) : bool :=
  match e with
  | Rename _ _ => true
  | _ => false
  end.

Definition isLater (e : event) : bool := isRun e || isRemoveAll e || isRename e.

(** The lines the resolvers log at verbosity 1: one for each tag, and one
    for each object name with the file prefix, that does not parse. *)
Definition invalidTagLogs {sv : Semver} (g : init.gitHubRelease)
    (rels : list RepositoryRelease) : list event :=
  flat_map (fun r =>
    match TagName r with
    | Some tag =>
        match ParseTolerant tag with
        | Err _ =>
            [Glog (VERBOSE 1) "Invalid tag name: %s/%s %s"
               [AString (init.owner g); AString (init.repo g); AString tag]]
        | Ok _ => []
        end
    | None => []
    end) rels.

Definition objectParseLogs {sv : Semver} (objs : list ObjectAttrs) : list event :=
  flat_map (fun o =>
    let i := strings.Index (Name o) init.filePrefix in
    if i <? 0 then []
    else match slice (Name o) (i + len init.filePrefix) (len (Name o) - 4) with
         | Some n =>
             match ParseTolerant n with
             | Err err =>
                 [Glog (VERBOSE 1) "Error parsing object name %s in bucket %s: %s"
                    [AString (Name o); AString (Bucket o); AError (Some err)]]
             | Ok _ => []
             end
         | None => []
         end) objs.

Unset Implicit Arguments.

(* ===================================================================== *)
(** ** Tactics *)
(* ===================================================================== *)

(** Case analysis on every test of a byte of a reversed name. *)
Ltac ext_cases :=
  repeat match goal with
         | |- context [Ascii.eqb ?c ?d] =>
             destruct (Ascii.eqb_spec c d); subst;
             cbn [path.extRev strings.HasPrefix andb]
         end.

(** [long] tells that a scan that goes on past four bytes returns nothing
    or a longer extension. *)
Ltac ext_tail long :=
  match goal with
  | |- context [path.extRev ?r ?acc] =>
      let H := fresh in
      let H' := fresh in
      destruct (long r acc) as [H|H];
      [ rewrite H
      | split; [ intros H'; rewrite H' in H; simpl in H; lia | discriminate ] ]
  end.

(* ===================================================================== *)
(** ** The order of versions *)
(* ===================================================================== *)

Section ThreeWayFacts.
Context {A : Type} {c : A -> A -> comparison} (Hc : ThreeWay c).

Lemma tw_refl a : c a a = Eq.
Proof.
  pose proof (tw_sym Hc a a) as H.
  destruct (c a a); simpl in H; congruence.
Qed.

Lemma tw_eq_r a b d : c a b = Eq -> c d a = c d b.
Proof.
  intros H.
  rewrite (tw_sym Hc a d), (tw_sym Hc b d).
  now rewrite (tw_eq Hc a b d H).
Qed.

Lemma tw_gt_lt a b : c a b = Gt <-> c b a = Lt.
Proof.
  rewrite (tw_sym Hc a b). destruct (c a b); simpl; split; congruence.
Qed.

(** [a <= b < d] gives [a < d]. *)
Lemma tw_le_lt a b d : c a b <> Gt -> c b d = Lt -> c a d = Lt.
Proof.
  intros Hab Hbd.
  destruct (c a b) eqn:E.
  - now rewrite (tw_eq Hc a b d E).
  - eapply tw_lt; eauto.
  - congruence.
Qed.

End ThreeWayFacts.

Lemma ThreeWay_N : ThreeWay N.compare.
Proof.
  split.
  - intros a b. apply N.compare_antisym.
  - intros a b d H1 H2. rewrite N.compare_lt_iff in *. lia.
  - intros a b d H. apply N.compare_eq in H. now subst.
Qed.

Lemma ThreeWay_on {A B : Type} (f : B -> A) {c : A -> A -> comparison} :
  ThreeWay c -> ThreeWay (fun x y => c (f x) (f y)).
Proof.
  intros Hc. split.
  - intros a b. apply (tw_sym Hc).
  - intros a b d. apply (tw_lt Hc).
  - intros a b d. apply (tw_eq Hc).
Qed.

Lemma ThreeWay_lexi {A : Type} {c1 c2 : A -> A -> comparison} :
  ThreeWay c1 -> ThreeWay c2 -> ThreeWay (lexi c1 c2).
Proof.
  intros H1 H2. split; unfold lexi.
  - intros a b. rewrite (tw_sym H1 a b).
    destruct (c1 a b); simpl; auto. apply (tw_sym H2).
  - intros a b d.
    destruct (c1 a b) eqn:Eab; try discriminate;
      destruct (c1 b d) eqn:Ebd; try discriminate; intros Hab Hbd.
    + rewrite (tw_eq H1 a b d Eab), Ebd. eapply tw_lt; eauto.
    + now rewrite (tw_eq H1 a b d Eab), Ebd.
    + now rewrite <- (tw_eq_r H1 b d a Ebd), Eab.
    + now rewrite (tw_lt H1 a b d Eab Ebd).
  - intros a b d.
    destruct (c1 a b) eqn:Eab; try discriminate. intros Hab.
    rewrite (tw_eq H1 a b d Eab).
    destruct (c1 b d); auto. apply (tw_eq H2); auto.
Qed.

Lemma ThreeWay_lexList {A : Type} {c : A -> A -> comparison} :
  ThreeWay c -> ThreeWay (lexList c).
Proof.
  intros Hc. split.
  - induction a as [|x a IH]; destruct b as [|y b]; simpl; auto.
    rewrite (tw_sym Hc x y). destruct (c x y); simpl; auto.
  - induction a as [|x a IH]; destruct b as [|y b]; destruct d as [|z d];
      simpl; try discriminate; auto.
    destruct (c x y) eqn:Exy; try discriminate;
      destruct (c y z) eqn:Eyz; try discriminate; intros Hab Hbd.
    + rewrite (tw_eq Hc x y z Exy), Eyz. eapply IH; eauto.
    + now rewrite (tw_eq Hc x y z Exy), Eyz.
    + now rewrite <- (tw_eq_r Hc y z x Eyz), Exy.
    + now rewrite (tw_lt Hc x y z Exy Eyz).
  - induction a as [|x a IH]; destruct b as [|y b]; simpl; try discriminate; auto.
    intros d. destruct (c x y) eqn:Exy; try discriminate. intros Hab.
    destruct d as [|z d]; auto.
    rewrite (tw_eq Hc x y z Exy). destruct (c y z); auto.
Qed.

Lemma String_compare_lexList s t :
  String.compare s t =
  lexList Ascii.compare (list_ascii_of_string s) (list_ascii_of_string t).
Proof.
  revert t. induction s as [|a s IH]; destruct t as [|b t]; simpl; auto.
  now rewrite IH.
Qed.

Lemma ThreeWay_String : ThreeWay String.compare.
Proof.
  assert (H : ThreeWay (fun s t =>
            lexList Ascii.compare (list_ascii_of_string s) (list_ascii_of_string t))).
  { apply (ThreeWay_on list_ascii_of_string), ThreeWay_lexList.
    apply (ThreeWay_on N_of_ascii ThreeWay_N). }
  split; intros; rewrite !String_compare_lexList in *.
  - apply (tw_sym H).
  - eapply (tw_lt H); eauto.
  - eapply (tw_eq H); eauto.
Qed.

Lemma ThreeWay_comparePR : ThreeWay semver.comparePR.
Proof.
  pose proof ThreeWay_N as HN. pose proof ThreeWay_String as HS.
  split; unfold semver.comparePR.
  - intros a b. destruct (semver.IsNum a), (semver.IsNum b); simpl; auto.
    + apply (tw_sym HN).
    + apply (tw_sym HS).
  - intros a b d.
    destruct (semver.IsNum a), (semver.IsNum b), (semver.IsNum d); simpl;
      try discriminate; auto.
    + apply (tw_lt HN).
    + apply (tw_lt HS).
  - intros a b d.
    destruct (semver.IsNum a), (semver.IsNum b), (semver.IsNum d); simpl;
      try discriminate; auto.
    + apply (tw_eq HN).
    + apply (tw_eq HS).
Qed.

Lemma comparePreLoop_lexList v o :
  semver.comparePreLoop v o = lexList semver.comparePR v o.
Proof.
  revert o. induction v as [|a v IH]; destruct o as [|b o]; simpl; auto.
  now rewrite IH.
Qed.

Lemma ThreeWay_comparePre : ThreeWay semver.comparePre.
Proof.
  pose proof (ThreeWay_lexList ThreeWay_comparePR) as HL.
  split.
  - intros [|x a] [|y b]; unfold semver.comparePre; auto.
    rewrite !comparePreLoop_lexList. apply (tw_sym HL).
  - intros [|x a] [|y b] [|z d]; unfold semver.comparePre; try discriminate; auto.
    rewrite !comparePreLoop_lexList. apply (tw_lt HL).
  - intros [|x a] [|y b] [|z d]; unfold semver.comparePre; try discriminate; auto.
    rewrite !comparePreLoop_lexList. apply (tw_eq HL).
Qed.

Lemma Compare_lexi v o :
  semver.Compare v o =
  lexi (fun x y => N.compare (semver.Major x) (semver.Major y))
    (lexi (fun x y => N.compare (semver.Minor x) (semver.Minor y))
       (lexi (fun x y => N.compare (semver.Patch x) (semver.Patch y))
          (fun x y => semver.comparePre (semver.Pre x) (semver.Pre y)))) v o.
Proof. reflexivity. Qed.

Lemma ThreeWay_Compare : ThreeWay semver.Compare.
Proof.
  assert (H : ThreeWay
    (lexi (fun x y => N.compare (semver.Major x) (semver.Major y))
      (lexi (fun x y => N.compare (semver.Minor x) (semver.Minor y))
         (lexi (fun x y => N.compare (semver.Patch x) (semver.Patch y))
            (fun x y => semver.comparePre (semver.Pre x) (semver.Pre y)))))).
  { repeat apply ThreeWay_lexi;
      first [ apply (ThreeWay_on semver.Major ThreeWay_N)
            | apply (ThreeWay_on semver.Minor ThreeWay_N)
            | apply (ThreeWay_on semver.Patch ThreeWay_N)
            | apply (ThreeWay_on semver.Pre ThreeWay_comparePre) ]. }
  split; intros; rewrite !Compare_lexi in *.
  - apply (tw_sym H).
  - eapply (tw_lt H); eauto.
  - eapply (tw_eq H); eauto.
Qed.

Lemma GT_irrefl v : semver.GT v v = false.
Proof. unfold semver.GT. now rewrite (tw_refl ThreeWay_Compare). Qed.

Lemma GT_asym a b : semver.GT a b = true -> semver.GT b a = false.
Proof.
  unfold semver.GT. rewrite (tw_sym ThreeWay_Compare a b).
  destruct (semver.Compare a b); simpl; congruence.
Qed.

Lemma GT_trans a b d :
  semver.GT a b = true -> semver.GT b d = true -> semver.GT a d = true.
Proof.
  unfold semver.GT. intros H1 H2.
  assert (E1 : semver.Compare b a = Lt).
  { apply (tw_gt_lt ThreeWay_Compare). destruct (semver.Compare a b); congruence. }
  assert (E2 : semver.Compare d b = Lt).
  { apply (tw_gt_lt ThreeWay_Compare). destruct (semver.Compare b d); congruence. }
  pose proof (tw_lt ThreeWay_Compare _ _ _ E2 E1) as E.
  apply (tw_gt_lt ThreeWay_Compare) in E. now rewrite E.
Qed.

(** [w <= m < l] gives [w < l]. *)
Lemma GT_le_lt w m l :
  semver.GT w m = false -> semver.GT l m = true -> semver.GT l w = true.
Proof.
  unfold semver.GT. intros H1 H2.
  assert (E1 : semver.Compare w m <> Gt).
  { destruct (semver.Compare w m); congruence. }
  assert (E2 : semver.Compare m l = Lt).
  { apply (tw_gt_lt ThreeWay_Compare). destruct (semver.Compare l m); congruence. }
  pose proof (tw_le_lt ThreeWay_Compare _ _ _ E1 E2) as E.
  apply (tw_gt_lt ThreeWay_Compare) in E. now rewrite E.
Qed.

(* ===================================================================== *)
(** ** The newest candidate *)
(* ===================================================================== *)

Section Newest.
Context {X : Type}.
Implicit Types (l pre post : list (X * option semver.Version)).

(** The current choice only matters when no candidate replaces it. *)
Lemma newest_cur l : forall latest cur,
  newest l latest cur =
  (fst (newest l latest None),
   match snd (newest l latest None) with
   | Some x => Some x
   | None => cur
   end).
Proof.
  induction l as [|[x [v|]] l IH]; intros latest cur; simpl; auto.
  destruct (semver.GT v latest); auto.
  rewrite (IH v (Some x)), (IH v None).
  destruct (snd (newest l v None)); auto.
Qed.

Lemma newest_older pre : forall post v latest cur,
  semver.GT v latest = true ->
  Forall (fun c => forall w, snd c = Some w -> semver.GT v w = true) pre ->
  exists latest' cur',
    newest (pre ++ post) latest cur = newest post latest' cur' /\
    semver.GT v latest' = true.
Proof.
  induction pre as [|[x [w|]] pre IH]; intros post v latest cur Hv Hpre; simpl.
  - eauto.
  - inversion Hpre as [|? ? Hw Hpre']; subst.
    destruct (semver.GT w latest); eauto.
  - inversion Hpre; subst. eauto.
Qed.

Lemma newest_not_newer post : forall v cur,
  Forall (fun c => forall w, snd c = Some w -> semver.GT w v = false) post ->
  newest post v cur = (v, cur).
Proof.
  induction post as [|[x [w|]] post IH]; intros v cur Hpost; simpl; auto;
    inversion Hpost as [|? ? Hw Hpost']; subst; auto.
  rewrite (Hw w eq_refl). auto.
Qed.

(** The first of the greatest candidates is the one chosen, once it is
    newer than the initial [latest]. *)
Lemma newest_FirstGreatest l x v latest cur :
  FirstGreatest l x v ->
  semver.GT v latest = true ->
  newest l latest cur = (v, Some x).
Proof.
  intros (pre & post & -> & Hpre & Hpost) Hv.
  destruct (@newest_older pre ((x, Some v) :: post) v latest cur Hv Hpre)
    as (latest' & cur' & -> & Hv').
  simpl. rewrite Hv'. now apply newest_not_newer.
Qed.

Lemma newest_none l latest cur :
  Forall (fun c => forall w, snd c = Some w -> semver.GT w latest = false) l ->
  newest l latest cur = (latest, cur).
Proof. apply newest_not_newer. Qed.

Lemma FirstGreatest_cons c l x v :
  (forall w, snd c = Some w -> semver.GT v w = true) ->
  FirstGreatest l x v -> FirstGreatest (c :: l) x v.
Proof.
  intros Hc (pre & post & -> & Hpre & Hpost).
  exists (c :: pre), post. repeat split; auto.
Qed.

(** Either no candidate is newer than [latest], or there is a first
    greatest candidate, which is newer than [latest]. *)
Lemma newest_cases l : forall latest,
  Forall (fun c => forall w, snd c = Some w -> semver.GT w latest = false) l \/
  exists x v, FirstGreatest l x v /\ semver.GT v latest = true.
Proof.
  induction l as [|[y [w|]] l IH]; intros latest.
  - left. constructor.
  - destruct (semver.GT w latest) eqn:E.
    + right. destruct (IH w) as [Hall | (x & v & HF & Hv)].
      * exists y, w. split; auto. exists [], l. repeat split; auto.
      * exists x, v. split.
        -- apply FirstGreatest_cons; auto. simpl. intros ? [= <-]. auto.
        -- eapply GT_trans; eauto.
    + destruct (IH latest) as [Hall | (x & v & HF & Hv)].
      * left. constructor; auto. simpl. intros ? [= <-]. auto.
      * right. exists x, v. split; auto.
        apply FirstGreatest_cons; auto. simpl. intros ? [= <-].
        eapply GT_le_lt; eauto.
  - destruct (IH latest) as [Hall | (x & v & HF & Hv)].
    + left. constructor; auto. simpl. discriminate.
    + right. exists x, v. split; auto.
      apply FirstGreatest_cons; auto. simpl. discriminate.
Qed.

(** There is one first greatest candidate at most. *)
Lemma FirstGreatest_member l x v :
  FirstGreatest l x v -> In (x, Some v) l.
Proof.
  intros (pre & post & -> & _). apply in_or_app. right. now left.
Qed.

End Newest.

(* ===================================================================== *)
(** ** Strings: index, slices, suffixes, extensions *)
(* ===================================================================== *)

Lemma HasPrefix_app s t : strings.HasPrefix (s ++ t) s = true.
Proof.
  induction s as [|c s IH]; cbn [strings.HasPrefix String.append]; auto.
  now rewrite Ascii.eqb_refl.
Qed.

Lemma HasPrefix_inv s p :
  strings.HasPrefix s p = true -> exists t, s = p ++ t.
Proof.
  revert s. induction p as [|c p IH]; intros s H; cbn [strings.HasPrefix String.append] in *.
  - now exists s.
  - destruct s as [|d s]; try discriminate.
    apply andb_true_iff in H as [H1 H2].
    apply Ascii.eqb_eq in H1. subst d.
    destruct (IH s H2) as [t ->]. now exists t.
Qed.

Lemma Index_cons c s sub :
  strings.Index (String c s) sub =
  if strings.HasPrefix (String c s) sub then 0
  else if strings.Index s sub <? 0 then -1 else strings.Index s sub + 1.
Proof. reflexivity. Qed.

Lemma Index_nil sub :
  strings.Index "" sub = if strings.HasPrefix "" sub then 0 else -1.
Proof. reflexivity. Qed.

Lemma Index_range s sub :
  strings.Index s sub = -1 \/ 0 <= strings.Index s sub <= len s.
Proof.
  unfold len. induction s as [|c s IH].
  - rewrite Index_nil. destruct (strings.HasPrefix "" sub); simpl; lia.
  - rewrite Index_cons. destruct (strings.HasPrefix (String c s) sub); [simpl; lia|].
    destruct (strings.Index s sub <? 0) eqn:E; [lia|].
    apply Z.ltb_ge in E. cbn [String.length]. lia.
Qed.

Lemma Index_app_ge a sub b : 0 <= strings.Index (a ++ sub ++ b) sub.
Proof.
  induction a as [|c a IH].
  - cbn [String.append].
    destruct (sub ++ b) eqn:E.
    + rewrite Index_nil. rewrite <- E, HasPrefix_app. lia.
    + rewrite Index_cons. rewrite <- E, HasPrefix_app. lia.
  - cbn [String.append]. rewrite Index_cons.
    destruct (strings.HasPrefix (String c (a ++ sub ++ b)) sub); [lia|].
    destruct (strings.Index (a ++ sub ++ b) sub <? 0) eqn:E; [|lia].
    apply Z.ltb_lt in E. lia.
Qed.

(** [Contains] finds exactly the strings with the wanted part inside. *)
Lemma Contains_spec s sub :
  strings.Contains s sub = true <-> exists a b, s = a ++ sub ++ b.
Proof.
  unfold strings.Contains. rewrite Z.leb_le. split.
  - induction s as [|c s IH].
    + rewrite Index_nil. destruct (strings.HasPrefix "" sub) eqn:E; [|lia].
      intros _. apply HasPrefix_inv in E as [t E]. now exists "", t.
    + rewrite Index_cons. destruct (strings.HasPrefix (String c s) sub) eqn:E.
      * intros _. apply HasPrefix_inv in E as [t E]. now exists "", t.
      * destruct (strings.Index s sub <? 0) eqn:E'; [lia|].
        apply Z.ltb_ge in E'. intros _.
        destruct (IH E') as (a & b & ->). now exists (String c a), b.
  - intros (a & b & ->). apply Index_app_ge.
Qed.

Lemma append_assoc (a b c : string) : (a ++ b) ++ c = a ++ b ++ c.
Proof. induction a; simpl; congruence. Qed.

Lemma append_nil_r (s : string) : s ++ "" = s.
Proof. induction s; simpl; congruence. Qed.

Lemma string_rev_append_app s : forall acc,
  string_rev_append s acc = string_rev s ++ acc.
Proof.
  unfold string_rev.
  induction s as [|c s IH]; intros acc; cbn [string_rev_append]; auto.
  rewrite (IH (String c acc)), (IH (String c "")).
  now rewrite append_assoc.
Qed.

Lemma string_rev_cons c s : string_rev (String c s) = string_rev s ++ String c "".
Proof. unfold string_rev at 1. cbn [string_rev_append]. apply string_rev_append_app. Qed.

Lemma string_rev_app a b : string_rev (a ++ b) = string_rev b ++ string_rev a.
Proof.
  induction a as [|c a IH]; cbn [String.append].
  - now rewrite append_nil_r.
  - rewrite !string_rev_cons, IH. now rewrite append_assoc.
Qed.

Lemma string_rev_involutive s : string_rev (string_rev s) = s.
Proof.
  induction s as [|c s IH]; auto.
  rewrite string_rev_cons, string_rev_app, IH. reflexivity.
Qed.

(** [HasSuffix] finds exactly the strings that end in [suffix]. *)
Lemma HasSuffix_spec s suffix :
  strings.HasSuffix s suffix = true <-> exists stem, s = stem ++ suffix.
Proof.
  unfold strings.HasSuffix. split.
  - intros H. apply HasPrefix_inv in H as [t H].
    exists (string_rev t).
    rewrite <- (string_rev_involutive s), H, string_rev_app.
    now rewrite string_rev_involutive.
  - intros [stem ->]. rewrite string_rev_app. apply HasPrefix_app.
Qed.

Lemma extRev_long r : forall acc,
  path.extRev r acc = "" \/
  (String.length acc < String.length (path.extRev r acc))%nat.
Proof.
  induction r as [|c r IH]; intros acc; cbn [path.extRev]; auto.
  destruct (Ascii.eqb c "/"); auto.
  destruct (Ascii.eqb c "."); [right; simpl; lia|].
  destruct (IH (String c acc)) as [H|H]; auto.
  right. simpl in H. lia.
Qed.

Lemma Ext_zip p : path.Ext p = ".zip" <-> strings.HasSuffix p ".zip" = true.
Proof.
  unfold path.Ext, strings.HasSuffix.
  change (string_rev ".zip") with "piz.". generalize (string_rev p) as r. intros r.
  destruct r as [|c1 [|c2 [|c3 [|c4 r]]]];
    cbn [path.extRev strings.HasPrefix andb]; ext_cases;
    try (split; intros; try discriminate; try congruence; fail).
  all: try ext_tail extRev_long; try (split; intros; try discriminate; try congruence; fail).
Qed.

Lemma Ext_gz p : path.Ext p = ".gz" <-> strings.HasSuffix p ".gz" = true.
Proof.
  unfold path.Ext, strings.HasSuffix.
  change (string_rev ".gz") with "zg.". generalize (string_rev p) as r. intros r.
  destruct r as [|c1 [|c2 [|c3 r]]];
    cbn [path.extRev strings.HasPrefix andb]; ext_cases;
    try (split; intros; try discriminate; try congruence; fail).
  all: try ext_tail extRev_long; try (split; intros; try discriminate; try congruence; fail).
Qed.

Lemma Ext_bz2 p : path.Ext p = ".bz2" <-> strings.HasSuffix p ".bz2" = true.
Proof.
  unfold path.Ext, strings.HasSuffix.
  change (string_rev ".bz2") with "2zb.". generalize (string_rev p) as r. intros r.
  destruct r as [|c1 [|c2 [|c3 [|c4 r]]]];
    cbn [path.extRev strings.HasPrefix andb]; ext_cases;
    try (split; intros; try discriminate; try congruence; fail).
  all: try ext_tail extRev_long; try (split; intros; try discriminate; try congruence; fail).
Qed.

Lemma substring_skip a : forall n s,
  substring (String.length a) n (a ++ s) = substring 0 n s.
Proof. induction a as [|c a IH]; intros n s; simpl; auto. Qed.

Lemma substring_take b : forall s,
  substring 0 (String.length b) (b ++ s) = b.
Proof.
  induction b as [|c b IH]; intros s; simpl.
  - destruct s; auto.
  - now rewrite IH.
Qed.

Lemma length_app (a b : string) :
  String.length (a ++ b) = (String.length a + String.length b)%nat.
Proof. induction a; simpl; auto. Qed.

(** Between a prefix and a tail of [k] bytes. *)
Lemma slice_middle a b t :
  slice (a ++ b ++ t) (len a) (len (a ++ b ++ t) - len t) = Some b.
Proof.
  unfold slice.
  assert (H : (0 <=? len a) && (len a <=? len (a ++ b ++ t) - len t)
              && (len (a ++ b ++ t) - len t <=? len (a ++ b ++ t)) = true).
  { rewrite !andb_true_iff, !Z.leb_le. unfold len. rewrite !length_app. lia. }
  rewrite H. f_equal. unfold len. rewrite !length_app, Nat2Z.id.
  replace (Z.to_nat _) with (String.length b) by lia.
  now rewrite substring_skip, substring_take.
Qed.

(* ===================================================================== *)
(** ** The resolver loops *)
(* ===================================================================== *)

Section Resolvers.
Context {W : Type} {os : OS W} {sv : Semver}.

(** The loop over the releases computes [newest], and only logs. *)
Lemma releaseLoop_newest g rels : forall latest cur (s : State W),
  Forall (fun r => TagName r <> None) rels ->
  exists tr,
    init.releaseLoop g rels latest cur s =
    (Return (newest (releaseCandidates rels) latest cur),
     {| world := world s; calls := calls s ++ tr |}).
Proof.
  induction rels as [|r rels IH]; intros latest cur s Htags.
  - exists []. simpl. unfold ret. rewrite app_nil_r. now destruct s.
  - inversion Htags as [|? ? Htag Htags']; subst.
    cbn [init.releaseLoop releaseCandidates map newest].
    unfold releaseVersion, parsed.
    destruct (TagName r) as [tag|]; [|congruence].
    destruct (ParseTolerant tag) as [ver|e].
    + destruct (semver.GT ver latest); apply IH; auto.
    + unfold bind, glog.
      destruct (IH latest cur
                  {| world := world s;
                     calls := calls s ++
                       [Glog (VERBOSE 1) "Invalid tag name: %s/%s %s"
                          [AString (init.owner g); AString (init.repo g); AString tag]] |}
                  Htags') as [tr Htr].
      eexists. rewrite Htr. cbn [world calls]. rewrite <- app_assoc. reflexivity.
Qed.

Lemma releaseLoop_nil_tag g pre r post : forall latest cur (s : State W),
  Forall (fun r => TagName r <> None) pre ->
  TagName r = None ->
  fst (init.releaseLoop g (pre ++ r :: post) latest cur s) = Panic nilDeref.
Proof.
  induction pre as [|r0 pre IH]; intros latest cur s Hpre Hr.
  - cbn [app init.releaseLoop]. now rewrite Hr.
  - inversion Hpre as [|? ? Htag Hpre']; subst.
    cbn [app init.releaseLoop].
    destruct (TagName r0) as [tag|]; [|congruence].
    destruct (ParseTolerant tag) as [ver|e].
    + destruct (semver.GT ver latest); apply IH; auto.
    + unfold bind at 1. unfold glog at 1. apply IH; auto.
Qed.

(** The loop over the assets returns the first match. *)
Lemma assetLoop_FirstMatch assets filter u :
  FirstMatch assets filter u -> init.assetLoop assets filter = Some u.
Proof.
  intros (pre & a & post & -> & Ha & Hu & Hpre).
  induction Hpre as [|a' pre Ha' Hpre IH]; simpl.
  - now rewrite Ha, Hu.
  - destruct (BrowserDownloadURL a') as [u'|] eqn:E; auto.
    now rewrite (Ha' u' eq_refl).
Qed.

Lemma assetLoop_NoMatch assets filter :
  NoMatch assets filter -> init.assetLoop assets filter = None.
Proof.
  induction 1 as [|a' l Ha' Hl IH]; simpl; auto.
  destruct (BrowserDownloadURL a') as [u'|] eqn:E; auto.
  now rewrite (Ha' u' eq_refl).
Qed.

Lemma assetLoop_cases assets filter :
  NoMatch assets filter \/ exists u, FirstMatch assets filter u.
Proof.
  induction assets as [|a l IH].
  - left. constructor.
  - destruct (BrowserDownloadURL a) as [u|] eqn:E.
    + destruct (strings.Contains u filter) eqn:Eu.
      * right. exists u, [], a, l. repeat split; auto.
      * destruct IH as [IH | (u' & pre & a' & post & -> & H1 & H2 & H3)].
        -- left. constructor; auto. intros ? ?. congruence.
        -- right. exists u', (a :: pre), a', post. repeat split; auto.
           constructor; auto. intros ? ?. congruence.
    + destruct IH as [IH | (u' & pre & a' & post & -> & H1 & H2 & H3)].
      * left. constructor; auto. intros ? ?. congruence.
      * right. exists u', (a :: pre), a', post. repeat split; auto.
        constructor; auto. intros ? ?. congruence.
Qed.

(** The run of [latestGitHubRelease] once the listing is known. *)
Lemma latestGitHubRelease_run g rels (w w' : W) :
  github_ListReleases (init.owner g) (init.repo g) w = (Ok rels, w') ->
  Forall (fun r => TagName r <> None) rels ->
  fst (run (init.latestGitHubRelease g) w) =
  match snd (newest (releaseCandidates rels) semver.zero None) with
  | None => Panic nilDeref
  | Some r =>
      match init.assetLoop (Assets r) (init.filter g) with
      | Some u => Return (Ok u)
      | None =>
          Return (Err (Errorf "release for %s/%s containing %q not found"
                         [AString (init.owner g); AString (init.repo g);
                          AString (init.filter g)]))
      end
  end.
Proof.
  intros HL Htags.
  unfold run, init.latestGitHubRelease, bind at 1, call. cbn [world calls].
  rewrite HL.
  unfold bind.
  destruct (@releaseLoop_newest g rels semver.zero None
              {| world := w'; calls := [] ++ [ListReleases (init.owner g) (init.repo g)] |}
              Htags) as [tr ->].
  destruct (snd (newest (releaseCandidates rels) semver.zero None)) as [r|]; auto.
  destruct (init.assetLoop (Assets r) (init.filter g)); auto.
Qed.


Lemma slice_in_range s lo hi :
  0 <= lo -> lo <= hi -> hi <= len s -> exists n, slice s lo hi = Some n.
Proof.
  intros H1 H2 H3. unfold slice.
  apply Z.leb_le in H1, H2, H3. rewrite H1, H2, H3. simpl. eauto.
Qed.

Lemma objectVersion_empty : objectVersion "" = None.
Proof. reflexivity. Qed.

(** The loop over the objects computes [newest], and only logs. *)
Lemma objectLoop_newest objs : forall latest object (s : State W),
  Forall (fun o => longEnough (Name o)) objs ->
  exists tr,
    init.objectLoop objs latest object s =
    (Return (fst (newest (objectCandidates objs) latest None),
             match snd (newest (objectCandidates objs) latest None) with
             | Some n => n
             | None => object
             end),
     {| world := world s; calls := calls s ++ tr |}).
Proof.
  induction objs as [|o objs IH]; intros latest object s Hlong.
  - exists []. simpl. unfold ret. rewrite app_nil_r. now destruct s.
  - inversion Hlong as [|? ? Ho Hlong']; subst.
    cbn [init.objectLoop objectCandidates map newest].
    fold (objectCandidates objs).
    destruct (strings.Index (Name o) init.filePrefix <? 0) eqn:Ei.
    + replace (objectVersion (Name o)) with (@None semver.Version)
        by (unfold objectVersion; now rewrite Ei).
      apply IH; auto.
    + apply Z.ltb_ge in Ei.
      destruct Ho as [Ho|Ho]; [lia|].
      destruct (@slice_in_range (Name o)
                  (strings.Index (Name o) init.filePrefix + len init.filePrefix)
                  (len (Name o) - 4)) as [n Hn].
      { unfold len. lia. }
      { exact Ho. }
      { lia. }
      replace (objectVersion (Name o)) with (parsed n).
      2:{ unfold objectVersion. apply Z.ltb_ge in Ei. now rewrite Ei, Hn. }
      rewrite Hn. unfold parsed.
      destruct (ParseTolerant n) as [v|e].
      * destruct (semver.GT v latest).
        -- destruct (IH v (Name o) s Hlong') as [tr ->].
           exists tr. rewrite (newest_cur (objectCandidates objs) v (Some (Name o))).
           cbn [fst snd].
           destruct (snd (newest (objectCandidates objs) v None)); reflexivity.
        -- apply IH; auto.
      * unfold bind at 1. unfold glog at 1.
        match goal with |- context [init.objectLoop objs latest object ?s1] =>
          destruct (IH latest object s1 Hlong') as [tr Htr] end.
        eexists. rewrite Htr. cbn [world calls]. rewrite <- app_assoc. reflexivity.
Qed.

(** The run of [latestSeleniumRelease] once the listing is known. *)
Lemma latestSeleniumRelease_run objs (w w1 w2 : W) :
  storage_NewClient w = (None, w1) ->
  bucket_Objects init.storageBktName w1 = ((objs, None), w2) ->
  Forall (fun o => longEnough (Name o)) objs ->
  fst (run init.latestSeleniumRelease w) =
  match snd (newest (objectCandidates objs) semver.zero None) with
  | Some n =>
      if String.eqb n "" then Return (Err (Errorf "no release found" []))
      else Return (Ok n)
  | None => Return (Err (Errorf "no release found" []))
  end.
Proof.
  intros HC HO Hlong.
  unfold run, init.latestSeleniumRelease, bind at 1, call at 1. cbn [world calls].
  rewrite HC. unfold bind at 1, call at 1. cbn [world calls]. rewrite HO.
  unfold bind at 1. cbn [fst snd].
  match goal with |- context [init.objectLoop objs semver.zero "" ?s1] =>
    destruct (@objectLoop_newest objs semver.zero "" s1 Hlong) as [tr ->] end.
  cbn [snd].
  destruct (snd (newest (objectCandidates objs) semver.zero None)) as [n|]; cbn [fst snd].
  - destruct (String.eqb n ""); reflexivity.
  - reflexivity.
Qed.

Lemma objectCandidates_name objs n v :
  In (n, Some v) (objectCandidates objs) -> n <> "".
Proof.
  unfold objectCandidates. rewrite in_map_iff.
  intros (o & [= <- Hv] & _) E. rewrite E in Hv. discriminate.
Qed.

End Resolvers.

(* ===================================================================== *)
(** ** The resolvers *)
(* ===================================================================== *)

(** C1: the release-listing resolver is asked to return an error when the
    list of releases is empty or no tag parses as a semantic version.  The
    code does not: whenever every release carries a tag that fails to parse
    (the empty list included), [latestGitHubRelease] dereferences the nil
    [latestRelease] and panics. *)
Theorem C1_no_parseable_tag_panics
    (W : Type) (os : OS W) (sv : Semver)
    (g : init.gitHubRelease) (rels : list RepositoryRelease) (w w' : W) :
  github_ListReleases (init.owner g) (init.repo g) w = (Ok rels, w') ->
  Forall (fun r => exists tag, TagName r = Some tag /\ parsed tag = None) rels ->
  fst (run (init.latestGitHubRelease g) w) = Panic nilDeref.
Proof.
  intros HL Hnone.
  rewrite (@latestGitHubRelease_run W os sv g rels w w' HL).
  - rewrite newest_none; [reflexivity|].
    unfold releaseCandidates. apply Forall_map.
    eapply Forall_impl; [|exact Hnone].
    intros r (tag & Htag & Hp) v. unfold releaseVersion. simpl.
    rewrite Htag, Hp. discriminate.
  - eapply Forall_impl; [|exact Hnone].
    intros r (tag & Htag & _). congruence.
Qed.

Lemma C1_witness_unparseable_tag :
  fst (run (init.latestGitHubRelease geckodriver)
         (releaseWorld [release "not-a-version" ["https://example.org/driver-linux64.tar.gz"]]))
  = Panic nilDeref.
Proof.
  eapply (@C1_no_parseable_tag_panics Sim SimOS GoSemver geckodriver).
  - reflexivity.
  - constructor; [|constructor]. exists "not-a-version". split; reflexivity.
Defined.




(** The version of an object named prefix, version, four more bytes. *)
Lemma objectVersion_jar {sv : Semver} (ver ext : string) :
  String.length ext = 4%nat ->
  objectVersion (init.filePrefix ++ ver ++ ext) = parsed ver.
Proof.
  intros Hext. unfold objectVersion.
  assert (Hi : strings.Index (init.filePrefix ++ ver ++ ext) init.filePrefix = 0).
  { change (init.filePrefix ++ ver ++ ext)
      with (String "s" ("elenium-server-standalone-" ++ ver ++ ext)).
    rewrite Index_cons.
    change (String "s" ("elenium-server-standalone-" ++ ver ++ ext))
      with (init.filePrefix ++ ver ++ ext).
    now rewrite HasPrefix_app. }
  rewrite Hi. cbn [Z.ltb Z.compare].
  replace (len (init.filePrefix ++ ver ++ ext) - 4)
    with (len (init.filePrefix ++ ver ++ ext) - len ext)
    by (unfold len at 2; rewrite Hext; reflexivity).
  change (0 + len init.filePrefix) with (len init.filePrefix).
  now rewrite slice_middle.
Qed.

(** C5, as the code has it: when four bytes or more follow the file prefix
    in every listed name that contains it, the object-store listing
    resolver considers the objects whose names contain the prefix, takes
    the text between the prefix and the last four bytes as the version and
    skips the names whose version does not parse; it returns the first of
    the objects with the greatest version, provided that version is greater
    than 0.0.0, and fails with "no release found" when no candidate has a
    version above 0.0.0, so when no candidate parses.  One of the two cases
    always holds.  Given prefix-2.26.jar, prefix-3.0.1.jar, prefix-x.jar and
    prefix-3.4.0.jar it returns prefix-3.4.0.jar. *)
Theorem C5_latest_object_selected :
  (forall (W : Type) (os : OS W) (sv : Semver)
          (objs : list ObjectAttrs) (w w1 w2 : W),
      storage_NewClient w = (None, w1) ->
      bucket_Objects init.storageBktName w1 = ((objs, None), w2) ->
      Forall (fun o => longEnough (Name o)) objs ->
      (forall n v,
          FirstGreatest (objectCandidates objs) n v ->
          semver.GT v semver.zero = true ->
          fst (run init.latestSeleniumRelease w) = Return (Ok n)) /\
      (NoneAboveZero (objectCandidates objs) ->
       fst (run init.latestSeleniumRelease w)
       = Return (Err (Errorf "no release found" []))) /\
      (Forall (fun o => objectVersion (Name o) = None) objs ->
       fst (run init.latestSeleniumRelease w)
       = Return (Err (Errorf "no release found" []))) /\
      (NoneAboveZero (objectCandidates objs) \/
       exists n v, FirstGreatest (objectCandidates objs) n v /\
                   semver.GT v semver.zero = true)) /\
  (forall (sv : Semver) (ver ext : string),
      String.length ext = 4%nat ->
      objectVersion (init.filePrefix ++ ver ++ ext) = parsed ver) /\
  fst (run init.latestSeleniumRelease (bucketWorld listedJars))
  = Return (Ok "selenium-server-standalone-3.4.0.jar").
Proof.
  split; [|split; [intros; now apply objectVersion_jar | vm_compute; reflexivity]].
  intros W os sv objs w w1 w2 HC HO Hlong.
  pose proof (@latestSeleniumRelease_run W os sv objs w w1 w2 HC HO Hlong) as Hrun.
  assert (Hno : NoneAboveZero (objectCandidates objs) ->
                fst (run init.latestSeleniumRelease w)
                = Return (Err (Errorf "no release found" []))).
  { intros Hnone. rewrite Hrun.
    unfold NoneAboveZero in Hnone. now rewrite (newest_none _ _ None Hnone). }
  split; [|split; [|split]].
  - intros n v HF Hv. rewrite Hrun.
    rewrite (newest_FirstGreatest _ _ _ _ None HF Hv). cbn [snd].
    apply FirstGreatest_member, objectCandidates_name in HF.
    apply String.eqb_neq in HF. now rewrite HF.
  - exact Hno.
  - intros Hnone. apply Hno. unfold NoneAboveZero, objectCandidates.
    apply Forall_map. eapply Forall_impl; [|exact Hnone].
    cbn [snd]. intros o Ho v Hv. congruence.
  - apply newest_cases.
Qed.

Lemma C5_witness_listed_jars :
  fst (run init.latestSeleniumRelease (bucketWorld listedJars))
  = Return (Ok "selenium-server-standalone-3.4.0.jar").
Proof.
  pose proof (proj1 C5_latest_object_selected Sim SimOS GoSemver
                (map object listedJars) (bucketWorld listedJars)
                (bucketWorld listedJars) (bucketWorld listedJars)
                eq_refl eq_refl) as H.
  assert (Hlong : Forall (fun o => longEnough (Name o)) (map object listedJars)).
  { repeat (apply Forall_cons; [right; vm_compute; discriminate|]). apply Forall_nil. }
  destruct (H Hlong) as [Hsel _].
  apply (Hsel "selenium-server-standalone-3.4.0.jar"
              {| semver.Major := 3; semver.Minor := 4; semver.Patch := 0;
                 semver.Pre := []; semver.Build := [] |}); [|reflexivity].
  exists (firstn 3 (objectCandidates (map object listedJars))), [].
  split; [vm_compute; reflexivity|].
  split; vm_compute;
    repeat (apply Forall_cons;
            [intros w Hw; first [discriminate Hw | injection Hw as <-; reflexivity]|]);
    apply Forall_nil.
Defined.

(** C5, as stated, fails: the only listed object,
    selenium-server-standalone-0.0.0.jar, is a candidate whose version
    parses and it has the greatest version; it is not returned. *)
Lemma C5_counterexample_zero_version :
  objectVersion (sv := GoSemver) "selenium-server-standalone-0.0.0.jar"
    = Some semver.zero /\
  FirstGreatest
    (objectCandidates (sv := GoSemver) [object "selenium-server-standalone-0.0.0.jar"])
    "selenium-server-standalone-0.0.0.jar" semver.zero /\
  fst (run init.latestSeleniumRelease
         (bucketWorld ["selenium-server-standalone-0.0.0.jar"]))
    = Return (Err (Errorf "no release found" [])).
Proof.
  split; [vm_compute; reflexivity|]. split.
  - exists [], []. split; [vm_compute; reflexivity|]. split; apply Forall_nil.
  - vm_compute. reflexivity.
Qed.

(** A listed name with fewer than four bytes after the prefix makes the
    slice expression panic. *)
Example latestSeleniumRelease_short_name :
  fst (run init.latestSeleniumRelease (bucketWorld ["selenium-server-standalone-x"]))
  = Panic sliceBounds.
Proof. vm_compute. reflexivity. Qed.

(** C4: a resolved locator is asked to be an absolute URL when it reaches
    the download.  For the object the source names as an example the
    object-store resolver returns the object name, which has no scheme;
    that name is what [handleFile] passes to [http.Get]. *)
Theorem C4_object_name_reaches_download :
  fst (run init.latestSeleniumRelease (bucketWorld [objectName381]))
    = Return (Ok objectName381) /\
  url.IsAbs objectName381 = false /\
  calls (snd (run (init.seleniumTask true) (bucketWorld [objectName381])))
    = [ NewClient; Objects "selenium-release";
        Stat "selenium-server-standalone-3.8.1.jar";
        Glog INFO "Downloading %q from %q"
          [AString "selenium-server-standalone-3.8.1.jar"; AString objectName381];
        Create "selenium-server-standalone-3.8.1.jar";
        Get objectName381;
        Close "selenium-server-standalone-3.8.1.jar";
        Glog FATAL "Error fetching the latest Selenium release: %s"
          [AError (Some (Errorf "%s: error downloading %q: %v"
             [AString "selenium-server-standalone-3.8.1.jar"; AString objectName381;
              AError (Some (ErrExternal "unsupported protocol scheme"))]))] ].
Proof. repeat split; vm_compute; reflexivity. Qed.

Section ShortCircuit.
Context {W : Type} {os : OS W} {sv : Semver} {u : Unicode}.

(** A failed resolution ends the task before [handleFile] is reached. *)
Lemma seleniumTask_resolution_failure db (s s' : State W) e :
  init.latestSeleniumRelease s = (Return (Err e), s') ->
  init.seleniumTask db s =
  (Exited,
   {| world := world s';
      calls := calls s' ++
        [Glog FATAL "Error fetching the latest Selenium release: %s" [AError (Some e)]] |}).
Proof. intros H. unfold init.seleniumTask, bind. now rewrite H. Qed.

Lemma gitHubTask_resolution_failure db g (s s' : State W) e :
  init.latestGitHubRelease g s = (Return (Err e), s') ->
  init.gitHubTask db g s =
  (Exited,
   {| world := world s';
      calls := calls s' ++
        [Glog FATAL "Error handling %s/%s: %s"
           [AString (init.owner g); AString (init.repo g); AError (Some e)]] |}).
Proof. intros H. unfold init.gitHubTask, bind. now rewrite H. Qed.

End ShortCircuit.

(* ===================================================================== *)
(** ** The toggle, the extraction and the rename *)
(* ===================================================================== *)

(** C9: with the download-browsers toggle off, the task of a browser-only
    descriptor logs that it is skipped and returns nil: it makes no call to
    the outside (no stat, no fetch, no extraction, no rename) and leaves the
    world as it is, whatever the working directory holds. *)
Theorem C9_browser_descriptor_skipped
    (W : Type) (os : OS W) (u : Unicode) (f : init.file) (s : State W) :
  init.browser f = true ->
  init.handleFile false f s =
  (Return None,
   {| world := world s;
      calls := calls s ++
        [Glog INFO "Skipping %q because --download_browser is not set."
           [AString (init.name f)]] |}).
Proof.
  intros Hb. unfold init.handleFile. rewrite Hb. reflexivity.
Qed.

Lemma C9_witness_firefox :
  init.browser firefoxNightly = true /\
  run (init.handleFile false firefoxNightly) emptyWorld =
  (Return None,
   {| world := emptyWorld;
      calls := [Glog INFO "Skipping %q because --download_browser is not set."
                  [AString "firefox-57.0a1.en-US.linux-x86_64.tar.bz2"]] |}).
Proof.
  split; [reflexivity|].
  exact (C9_browser_descriptor_skipped Sim SimOS ASCIILower firefoxNightly
           {| world := emptyWorld; calls := [] |} eq_refl).
Defined.

Section Postprocess.
Context {W : Type} {os : OS W}.

Lemma unpack_run (f : init.file) (cmd flag : string) (s : State W) r w' :
  exec_Run cmd [flag; init.name f] (world s) = (r, w') ->
  init.unpack f cmd flag s =
  (Return (match r with
           | Some e => Some (Errorf "Error unzipping %q: %v"
                               [AString (init.name f); AError (Some e)])
           | None => None
           end),
   {| world := w';
      calls := calls s ++
        [Glog INFO "Unzipping %q" [AString (init.name f)];
         Run cmd [flag; init.name f]] |}).
Proof.
  intros H. unfold init.unpack, bind, glog, call. cbn [world calls].
  rewrite H. rewrite <- app_assoc. destruct r; reflexivity.
Qed.

Lemma init_renameStep_run (f : init.file) (from to : string) (s : State W)
    r1 w1 r2 w2 :
  init.rename f = [from; to] ->
  os_RemoveAll to (world s) = (r1, w1) ->
  os_Rename from to w1 = (r2, w2) ->
  init.renameStep f s =
  (Return tt,
   {| world := w2;
      calls := calls s ++
        [Glog INFO "Renaming %q to %q" [AString from; AString to];
         RemoveAll to; Rename from to] ++ renameWarning from to r2 |}).
Proof.
  intros Hr H1 H2. unfold init.renameStep. rewrite Hr.
  unfold bind, glog, call. cbn [world calls]. rewrite H1. cbn [world calls].
  rewrite H2. destruct r2; unfold glog, ret; cbn [world calls renameWarning];
    rewrite <- !app_assoc; reflexivity.
Qed.

Lemma vendor_renameStep_run (f : vendor_init.file) (from to : string) (s : State W)
    r w' :
  vendor_init.rename f = [from; to] ->
  os_Rename from to (world s) = (r, w') ->
  vendor_init.renameStep f s =
  (Return tt,
   {| world := w';
      calls := calls s ++ [Rename from to] ++ renameWarning from to r |}).
Proof.
  intros Hr H. unfold vendor_init.renameStep. rewrite Hr.
  unfold bind, call. cbn [world calls]. rewrite H.
  destruct r; unfold glog, ret; cbn [world calls renameWarning];
    rewrite <- ?app_assoc; reflexivity.
Qed.

End Postprocess.

(** C8, as the code has it: for a descriptor with a rename pair, the
    concurrent downloader ([handleFile]), once the fetch and the extraction
    have succeeded, removes the destination path, ignores the result of the
    removal, renames the produced path to the destination path and returns
    nil whatever the rename returns; a failed rename only adds a warning to
    the log.  The sequential downloader (vendor/init.go) renames without
    removing the destination first; there too a failed rename only adds a
    warning and the step returns. *)
Theorem C8_rename_step :
  (forall (W : Type) (os : OS W) (u : Unicode) (db : bool) (f : init.file)
          (from to : string) (s s1 s2 : State W) r1 w1 r2 w2,
      init.rename f = [from; to] ->
      init.browser f && negb db = false ->
      init.fetchStep f s = (Return None, s1) ->
      init.extractStep f s1 = (Return None, s2) ->
      os_RemoveAll to (world s2) = (r1, w1) ->
      os_Rename from to w1 = (r2, w2) ->
      init.handleFile db f s =
      (Return None,
       {| world := w2;
          calls := calls s2 ++
            [Glog INFO "Renaming %q to %q" [AString from; AString to];
             RemoveAll to; Rename from to] ++ renameWarning from to r2 |})) /\
  (forall (W : Type) (os : OS W) (f : vendor_init.file)
          (from to : string) (s : State W) r w',
      vendor_init.rename f = [from; to] ->
      os_Rename from to (world s) = (r, w') ->
      vendor_init.renameStep f s =
      (Return tt,
       {| world := w';
          calls := calls s ++ [Rename from to] ++ renameWarning from to r |})).
Proof.
  split.
  - intros W os u db f from to s s1 s2 r1 w1 r2 w2 Hr Hb Hf He H1 H2.
    unfold init.handleFile. rewrite Hb.
    unfold bind at 1. rewrite Hf. unfold bind at 1. rewrite He.
    unfold bind. rewrite (init_renameStep_run f from to s2 r1 w1 r2 w2 Hr H1 H2).
    reflexivity.
  - intros W os f from to s r w' Hr H.
    now apply vendor_renameStep_run.
Qed.

Lemma C8_witness_failed_rename :
  run (init.handleFile true chromedriverZip)
      (fileWorld "chromedriver_2.31_linux64.zip" [] "" [])
  = (Return None,
     {| world := fileWorld "chromedriver_2.31_linux64.zip" [] "" [];
        calls :=
          [ Stat "chromedriver_2.31_linux64.zip";
            Glog INFO "Unzipping %q" [AString "chromedriver_2.31_linux64.zip"];
            Run "unzip" ["-o"; "chromedriver_2.31_linux64.zip"];
            Glog INFO "Renaming %q to %q"
              [AString "chromedriver"; AString "chromedriver-linux64-2.31"];
            RemoveAll "chromedriver-linux64-2.31";
            Rename "chromedriver" "chromedriver-linux64-2.31";
            Glog WARNING "Error renaming %q to %q: %v"
              [AString "chromedriver"; AString "chromedriver-linux64-2.31";
               AError (Some (ErrExternal "no such file or directory"))] ] |}).
Proof.
  unfold run.
  set (s0 := {| world := fileWorld "chromedriver_2.31_linux64.zip" [] "" [];
                calls := [] |}).
  rewrite (proj1 C8_rename_step Sim SimOS ASCIILower true chromedriverZip
             "chromedriver" "chromedriver-linux64-2.31"
             s0 (snd (init.fetchStep chromedriverZip s0))
             (snd (init.extractStep chromedriverZip
                     (snd (init.fetchStep chromedriverZip s0))))
             None (fileWorld "chromedriver_2.31_linux64.zip" [] "" [])
             (Some (ErrExternal "no such file or directory"))
             (fileWorld "chromedriver_2.31_linux64.zip" [] "" [])).
  - vm_compute. reflexivity.
  - reflexivity.
  - reflexivity.
  - vm_compute. reflexivity.
  - vm_compute. reflexivity.
  - vm_compute. reflexivity.
  - vm_compute. reflexivity.
Defined.

(** C8, as stated, fails: for the chromedriver descriptor of the
    sequential downloader, which has a rename pair, the destination path is
    not removed before the rename: the rename is the only call. *)
Lemma C8_counterexample_no_removal :
  vendor_init.rename vendorChromedriver = ["chromedriver"; "chromedriver-linux64-2.26"] /\
  calls (snd (run (vendor_init.renameStep vendorChromedriver)
                (fileWorld "chromedriver" [] "" [])))
  = [Rename "chromedriver" "chromedriver-linux64-2.26"] /\
  existsb isRemoveAll
    (calls (snd (run (vendor_init.renameStep vendorChromedriver)
                   (fileWorld "chromedriver" [] "" [])))) = false.
Proof. repeat split; vm_compute; reflexivity. Qed.

Section Extraction.
Context {W : Type} {os : OS W}.

Lemma init_extractStep_zip (f : init.file) :
  strings.HasSuffix (init.name f) ".zip" = true ->
  init.extractStep f = init.unpack f "unzip" "-o".
Proof.
  intros H. apply Ext_zip in H. unfold init.extractStep. now rewrite H.
Qed.

Lemma init_extractStep_gz (f : init.file) :
  strings.HasSuffix (init.name f) ".gz" = true ->
  init.extractStep f = init.unpack f "tar" "-xzf".
Proof.
  intros H. apply Ext_gz in H. unfold init.extractStep. now rewrite H.
Qed.

Lemma init_extractStep_bz2 (f : init.file) :
  strings.HasSuffix (init.name f) ".bz2" = true ->
  init.extractStep f = init.unpack f "tar" "-xjf".
Proof.
  intros H. apply Ext_bz2 in H. unfold init.extractStep. now rewrite H.
Qed.

Lemma init_extractStep_other (f : init.file) :
  strings.HasSuffix (init.name f) ".zip" = false ->
  strings.HasSuffix (init.name f) ".gz" = false ->
  strings.HasSuffix (init.name f) ".bz2" = false ->
  init.extractStep f = ret None.
Proof.
  intros H1 H2 H3. unfold init.extractStep.
  destruct (String.eqb_spec (path.Ext (init.name f)) ".zip") as [E|_].
  { apply Ext_zip in E. congruence. }
  destruct (String.eqb_spec (path.Ext (init.name f)) ".gz") as [E|_].
  { apply Ext_gz in E. congruence. }
  destruct (String.eqb_spec (path.Ext (init.name f)) ".bz2") as [E|_].
  { apply Ext_bz2 in E. congruence. }
  reflexivity.
Qed.

Lemma vendor_extractStep_zip (f : vendor_init.file) (s : State W) r w' :
  strings.HasSuffix (vendor_init.name f) ".zip" = true ->
  exec_Run "unzip" [vendor_init.name f] (world s) = (r, w') ->
  vendor_init.extractStep f s =
  (match r with Some _ => Exited | None => Return tt end,
   {| world := w';
      calls := calls s ++ [Run "unzip" [vendor_init.name f]] ++
        match r with
        | Some e => [Glog FATAL "Error unzipping %q: %v"
                       [AString (vendor_init.name f); AError (Some e)]]
        | None => []
        end |}).
Proof.
  intros H HR. apply Ext_zip in H. unfold vendor_init.extractStep. rewrite H.
  cbn [String.eqb Ascii.eqb Bool.eqb]. unfold bind, call. rewrite HR.
  destruct r; unfold Exitf, ret; cbn [world calls];
    rewrite <- ?app_assoc; reflexivity.
Qed.

Lemma vendor_extractStep_other (f : vendor_init.file) :
  strings.HasSuffix (vendor_init.name f) ".zip" = false ->
  vendor_init.extractStep f = ret tt.
Proof.
  intros H1. unfold vendor_init.extractStep.
  destruct (String.eqb_spec (path.Ext (vendor_init.name f)) ".zip") as [E|_].
  { apply Ext_zip in E. congruence. }
  reflexivity.
Qed.

End Extraction.

(** C7, as the code has it: in the concurrent downloader the extraction
    step is chosen by the ending of the target name alone: a name that ends
    in .zip is unpacked by [unzip -o], one that ends in .gz (so .tar.gz) by
    [tar -xzf], one that ends in .bz2 by [tar -xjf], and any other name by
    no command at all; [handleFile] runs that step once the fetch step has
    succeeded.  The sequential downloader (vendor/init.go) unpacks the
    names that end in .zip, by [unzip], and no other name.  So file.zip is
    unzipped, file.tar.gz is untarred and nothing is run for file.jar. *)
Theorem C7_extraction_by_extension :
  (forall (W : Type) (os : OS W) (f : init.file),
      (strings.HasSuffix (init.name f) ".zip" = true ->
       init.extractStep f = init.unpack f "unzip" "-o") /\
      (strings.HasSuffix (init.name f) ".gz" = true ->
       init.extractStep f = init.unpack f "tar" "-xzf") /\
      (strings.HasSuffix (init.name f) ".bz2" = true ->
       init.extractStep f = init.unpack f "tar" "-xjf") /\
      (strings.HasSuffix (init.name f) ".zip" = false ->
       strings.HasSuffix (init.name f) ".gz" = false ->
       strings.HasSuffix (init.name f) ".bz2" = false ->
       init.extractStep f = ret None)) /\
  (forall (W : Type) (os : OS W) (f : init.file) (cmd flag : string)
          (s : State W) r w',
      exec_Run cmd [flag; init.name f] (world s) = (r, w') ->
      init.unpack f cmd flag s =
      (Return (match r with
               | Some e => Some (Errorf "Error unzipping %q: %v"
                                   [AString (init.name f); AError (Some e)])
               | None => None
               end),
       {| world := w';
          calls := calls s ++
            [Glog INFO "Unzipping %q" [AString (init.name f)];
             Run cmd [flag; init.name f]] |})) /\
  (forall (W : Type) (os : OS W) (u : Unicode) (db : bool) (f : init.file)
          (s s1 : State W),
      init.browser f && negb db = false ->
      init.fetchStep f s = (Return None, s1) ->
      init.handleFile db f s =
      (err <- init.extractStep f ;;
       match err with
       | Some e => ret (Some e)
       | None => init.renameStep f ;; ret None
       end) s1) /\
  (forall (W : Type) (os : OS W) (f : vendor_init.file),
      (forall (s : State W) r w',
          strings.HasSuffix (vendor_init.name f) ".zip" = true ->
          exec_Run "unzip" [vendor_init.name f] (world s) = (r, w') ->
          vendor_init.extractStep f s =
          (match r with Some _ => Exited | None => Return tt end,
           {| world := w';
              calls := calls s ++ [Run "unzip" [vendor_init.name f]] ++
                match r with
                | Some e => [Glog FATAL "Error unzipping %q: %v"
                               [AString (vendor_init.name f); AError (Some e)]]
                | None => []
                end |})) /\
      (strings.HasSuffix (vendor_init.name f) ".zip" = false ->
       vendor_init.extractStep f = ret tt)) /\
  (calls (snd (run (init.extractStep (named "file.zip")) emptyWorld))
     = [Glog INFO "Unzipping %q" [AString "file.zip"];
        Run "unzip" ["-o"; "file.zip"]] /\
   calls (snd (run (init.extractStep (named "file.tar.gz")) emptyWorld))
     = [Glog INFO "Unzipping %q" [AString "file.tar.gz"];
        Run "tar" ["-xzf"; "file.tar.gz"]] /\
   calls (snd (run (init.extractStep (named "file.jar")) emptyWorld)) = []).
Proof.
  split; [|split; [|split; [|split]]].
  - intros W os f. repeat split.
    + apply init_extractStep_zip.
    + apply init_extractStep_gz.
    + apply init_extractStep_bz2.
    + apply init_extractStep_other.
  - intros W os f cmd flag s r w'. apply unpack_run.
  - intros W os u db f s s1 Hb Hf.
    unfold init.handleFile. rewrite Hb. unfold bind at 1. now rewrite Hf.
  - intros W os f. split.
    + intros s r w'. apply vendor_extractStep_zip.
    + apply vendor_extractStep_other.
  - repeat split; vm_compute; reflexivity.
Qed.

Lemma C7_witness_tar_gz :
  strings.HasSuffix (init.name sauceConnect) ".gz" = true /\
  init.extractStep (W := Sim) sauceConnect = init.unpack sauceConnect "tar" "-xzf" /\
  run (init.extractStep sauceConnect) emptyWorld =
  (Return None,
   {| world := emptyWorld;
      calls := [Glog INFO "Unzipping %q" [AString "sauce-connect-4.4.9-linux.tar.gz"];
                Run "tar" ["-xzf"; "sauce-connect-4.4.9-linux.tar.gz"]] |}).
Proof.
  assert (H : init.extractStep (W := Sim) sauceConnect
              = init.unpack sauceConnect "tar" "-xzf").
  { exact (proj1 (proj2 (proj1 C7_extraction_by_extension Sim SimOS sauceConnect))
             eq_refl). }
  split; [reflexivity|]. split; [exact H|].
  unfold run. rewrite H.
  exact (proj1 (proj2 C7_extraction_by_extension) Sim SimOS sauceConnect
           "tar" "-xzf" {| world := emptyWorld; calls := [] |}
           None emptyWorld eq_refl).
Defined.

(** C7, as stated, fails: the sequential downloader runs no extraction
    for a target named file.tar.gz, a name that ends in .gz. *)
Lemma C7_counterexample_vendor_tar_gz :
  strings.HasSuffix (vendor_init.name tarball) ".gz" = true /\
  run (vendor_init.extractStep tarball) emptyWorld
  = (Return tt, {| world := emptyWorld; calls := [] |}).
Proof. split; vm_compute; reflexivity. Qed.

(* ===================================================================== *)
(** ** The download and its digest *)
(* ===================================================================== *)

Section Download.
Context {W : Type} {os : OS W}.

(** The sequential downloader compares the digest of the bytes copied with
    the expected one. *)
Lemma vendor_downloadFile_run {sha : Sha256} (f : vendor_init.file)
    (w w1 w2 w3 w4 w5 : W) data :
  os_Create (vendor_init.name f) w = (None, w1) ->
  http_Get (vendor_init.url f) w1 = (None, w2) ->
  io_Copy (vendor_init.url f) (vendor_init.name f) w2 = ((data, None), w3) ->
  body_Close (vendor_init.url f) w3 = (tt, w4) ->
  file_Close (vendor_init.name f) w4 = (None, w5) ->
  run (vendor_init.downloadFile f) w =
  (Return (if String.eqb (hex.EncodeToString (sha256_Sum data)) (vendor_init.hash f)
           then None
           else Some (Errorf "%s: got sha256 hash %q, want %q"
                        [AString (vendor_init.name f);
                         AString (hex.EncodeToString (sha256_Sum data));
                         AString (vendor_init.hash f)])),
   {| world := w5;
      calls := [Create (vendor_init.name f); Get (vendor_init.url f);
                Copy (vendor_init.url f) (vendor_init.name f) SHA256;
                BodyClose (vendor_init.url f); Close (vendor_init.name f)] |}).
Proof.
  intros H1 H2 H3 H4 H5.
  unfold run, vendor_init.downloadFile, vendor_init.closing, bind, call.
  cbn [world calls]. rewrite H1. cbn [world calls]. rewrite H2.
  cbn [world calls]. rewrite H3.
  destruct (String.eqb (hex.EncodeToString (sha256_Sum data)) (vendor_init.hash f));
    cbn [negb]; unfold ret; cbn [world calls]; rewrite H4; cbn [world calls];
    rewrite H5; reflexivity.
Qed.

(** A failed download ends the sequential run. *)
Lemma vendor_fetchStep_exits {sha : Sha256} (f : vendor_init.file)
    (s s1 s2 : State W) e :
  vendor_init.fileSameHash (vendor_init.name f) (vendor_init.hash f) s
    = (Return false, s1) ->
  vendor_init.downloadFile f s1 = (Return (Some e), s2) ->
  vendor_init.fetchStep f s =
  (Exited,
   {| world := world s2;
      calls := calls s2 ++ [Glog FATAL "%s" [AError (Some e)]] |}).
Proof.
  intros H1 H2. unfold vendor_init.fetchStep, bind. rewrite H1. cbn [negb].
  now rewrite H2.
Qed.

(** The sequential downloader skips the fetch, and says so, exactly when
    [fileSameHash] holds. *)
Lemma vendor_fetchStep_skips {sha : Sha256} (f : vendor_init.file) (s s1 : State W) :
  vendor_init.fileSameHash (vendor_init.name f) (vendor_init.hash f) s
    = (Return true, s1) ->
  vendor_init.fetchStep f s =
  (Return tt,
   {| world := world s1;
      calls := calls s1 ++
        [Glog INFO "Skipping file %q which has already been downloaded."
           [AString (vendor_init.name f)]] |}).
Proof.
  intros H. unfold vendor_init.fetchStep, bind. now rewrite H.
Qed.

(** Otherwise it goes on to the download. *)
Lemma vendor_fetchStep_fetches {sha : Sha256} (f : vendor_init.file) (s s1 : State W) :
  vendor_init.fileSameHash (vendor_init.name f) (vendor_init.hash f) s
    = (Return false, s1) ->
  vendor_init.fetchStep f s =
  (err <- vendor_init.downloadFile f ;;
   match err with
   | Some e => Exitf "%s" [AError (Some e)]
   | None => ret tt
   end) s1.
Proof.
  intros H. unfold vendor_init.fetchStep. unfold bind at 1. now rewrite H.
Qed.

(** [fileSameHash] holds exactly for a file that is there, can be read and
    has the wanted digest. *)
Lemma vendor_fileSameHash_true {sha : Sha256} (fileName wantHash : string) (s : State W) :
  fst (vendor_init.fileSameHash fileName wantHash s) = Return true <->
  exists w1 w2 w3 data,
    os_Stat fileName (world s) = (None, w1) /\
    os_Open fileName w1 = (None, w2) /\
    file_Read fileName w2 = ((data, None), w3) /\
    hex.EncodeToString (sha256_Sum data) = wantHash.
Proof.
  unfold vendor_init.fileSameHash, bind, call. cbn [world calls].
  destruct (os_Stat fileName (world s)) as [[e|] w1] eqn:E1; cbn [world calls fst].
  { split; [discriminate|]. intros (? & ? & ? & ? & ? & _). congruence. }
  destruct (os_Open fileName w1) as [[e|] w2] eqn:E2; cbn [world calls fst].
  { split; [discriminate|]. intros (x1 & x2 & x3 & d & H1 & H2 & _).
    assert (x1 = w1) by congruence. subst x1. congruence. }
  destruct (file_Read fileName w2) as [[data [e|]] w3] eqn:E3; cbn [world calls fst].
  { destruct (file_Close fileName w3). cbn [fst].
    split; [discriminate|]. intros (x1 & x2 & x3 & d & H1 & H2 & H3 & _).
    assert (x1 = w1) by congruence. subst x1.
    assert (x2 = w2) by congruence. subst x2. congruence. }
  destruct (file_Close fileName w3). cbn [fst]. unfold ret. cbn [fst].
  split.
  - intros [= H]. apply String.eqb_eq in H. exists w1, w2, w3, data. auto.
  - intros (x1 & x2 & x3 & d & H1 & H2 & H3 & H4).
    assert (x1 = w1) by congruence. subst x1.
    assert (x2 = w2) by congruence. subst x2.
    assert (d = data) by congruence. subst d.
    f_equal. now apply String.eqb_eq.
Qed.

(** An exit in the step of one file ends the run of the sequential
    downloader: the files after it are not handled. *)
Lemma vendor_forEach_exits {sha : Sha256} (f : vendor_init.file)
    (l : list vendor_init.file) (s s' : State W) :
  vendor_init.step f s = (Exited, s') ->
  vendor_init.forEach (f :: l) s = (Exited, s').
Proof.
  intros H. cbn [vendor_init.forEach]. unfold bind at 1. now rewrite H.
Qed.

Lemma vendor_step_exits {sha : Sha256} (f : vendor_init.file) (s s' : State W) :
  vendor_init.fetchStep f s = (Exited, s') ->
  vendor_init.step f s = (Exited, s').
Proof.
  intros H. unfold vendor_init.step. unfold bind at 1. now rewrite H.
Qed.

End Download.

(** C2: a download with an expected digest is asked to fail with an
    integrity error when the bytes do not have that digest.  In the
    concurrent downloader [downloadFile] tees the body into a digest
    accumulator and never reads it: once the file is created, the request
    answered and the body copied, it returns nil, whatever [hash file] and
    whatever the bytes copied. *)
Theorem C2_digest_never_compared
    (W : Type) (os : OS W) (u : Unicode) (f : init.file)
    (w w1 w2 w3 w4 w5 : W) (data : list Byte.byte) :
  os_Create (init.name f) w = (None, w1) ->
  http_Get (init.url f) w1 = (None, w2) ->
  io_Copy (init.url f) (init.name f) w2 = ((data, None), w3) ->
  body_Close (init.url f) w3 = (tt, w4) ->
  file_Close (init.name f) w4 = (None, w5) ->
  run (init.downloadFile f) w =
  (Return None,
   {| world := w5;
      calls := [Create (init.name f); Get (init.url f);
                Copy (init.url f) (init.name f) (init.newHash (init.hashType f));
                BodyClose (init.url f); Close (init.name f)] |}).
Proof.
  intros H1 H2 H3 H4 H5.
  unfold run, init.downloadFile, init.closing, bind, call.
  cbn [world calls]. rewrite H1. cbn [world calls]. rewrite H2.
  cbn [world calls]. rewrite H3. cbn [snd world calls]. unfold ret.
  cbn [world calls]. rewrite H4. cbn [world calls]. rewrite H5. reflexivity.
Qed.

Lemma C2_witness_selenium_jar :
  fst (run (init.downloadFile seleniumJar) (webWorld (init.url seleniumJar) []))
  = Return None.
Proof.
  set (w := webWorld (init.url seleniumJar) []).
  set (w' := withDisk w [(init.name seleniumJar, [])]).
  rewrite (C2_digest_never_compared Sim SimOS ASCIILower seleniumJar
             w w' w' w' w' w' []); try reflexivity.
Defined.

(** C3: the fetch is asked to be skipped only for a target file that is
    there with the expected digest.  In the concurrent downloader
    [handleFile] skips it for every file that is there: when [os.Stat]
    finds the target name, the fetch step makes that one call and nothing
    else, and the whole task neither issues a request nor writes or reads
    the file, whatever the file contains and whatever [hash file] is. *)
Theorem C3_present_file_never_checked
    (W : Type) (os : OS W) (u : Unicode) (db : bool) (f : init.file) (w w1 : W) :
  init.browser f && negb db = false ->
  os_Stat (init.name f) w = (None, w1) ->
  run (init.fetchStep f) w =
    (Return None, {| world := w1; calls := [Stat (init.name f)] |}) /\
  forallb (fun e => negb (isFetch e) && negb (isDigestRead e))
    (calls (snd (run (init.handleFile db f) w))) = true.
Proof.
  intros Hb HS.
  assert (HF : run (init.fetchStep f) w =
               (Return None, {| world := w1; calls := [Stat (init.name f)] |})).
  { unfold run, init.fetchStep, bind, call. cbn [world calls]. now rewrite HS. }
  split; [exact HF|].
  unfold run in *. unfold init.handleFile. rewrite Hb.
  unfold bind at 1. rewrite HF.
  assert (HU : forall cmd flag,
    forallb (fun e => negb (isFetch e) && negb (isDigestRead e))
      (calls (snd ((err <- init.unpack f cmd flag ;;
                    match err with
                    | Some e => ret (Some e)
                    | None => init.renameStep f ;; ret None
                    end) {| world := w1; calls := [Stat (init.name f)] |}))) = true).
  { intros cmd flag.
    unfold init.unpack, init.renameStep, bind, glog, call, ret. cbn [world calls].
    destruct (exec_Run cmd [flag; init.name f] w1) as [[e|] w2]; [reflexivity|].
    destruct (init.rename f) as [|a [|b [|c l]]]; cbn [world calls snd]; try reflexivity.
    destruct (os_RemoveAll b w2) as [r3 w3]. cbn [world calls].
    destruct (os_Rename a b w3) as [[e|] w4]; reflexivity. }
  unfold init.extractStep.
  destruct (String.eqb (path.Ext (init.name f)) ".zip"); [apply HU|].
  destruct (String.eqb (path.Ext (init.name f)) ".gz"); [apply HU|].
  destruct (String.eqb (path.Ext (init.name f)) ".bz2"); [apply HU|].
  unfold init.renameStep, bind, glog, call, ret. cbn [world calls].
  destruct (init.rename f) as [|a [|b [|c l]]]; cbn [world calls snd]; try reflexivity.
  destruct (os_RemoveAll b w1) as [r3 w3]. cbn [world calls].
  destruct (os_Rename a b w3) as [[e|] w4]; reflexivity.
Qed.

Lemma C3_witness_truncated_jar :
  run (init.handleFile true seleniumJar)
      (fileWorld (init.name seleniumJar) [] (init.url seleniumJar) [Byte.x50; Byte.x4b])
  = (Return None,
     {| world := fileWorld (init.name seleniumJar) []
                   (init.url seleniumJar) [Byte.x50; Byte.x4b];
        calls := [Stat "selenium-server-standalone-3.4.jar"] |}) /\
  forallb (fun e => negb (isFetch e) && negb (isDigestRead e))
    (calls (snd (run (init.handleFile true seleniumJar)
                   (fileWorld (init.name seleniumJar) []
                      (init.url seleniumJar) [Byte.x50; Byte.x4b])))) = true.
Proof.
  split; [vm_compute; reflexivity|].
  exact (proj2 (C3_present_file_never_checked Sim SimOS ASCIILower true seleniumJar
                  (fileWorld (init.name seleniumJar) []
                     (init.url seleniumJar) [Byte.x50; Byte.x4b])
                  (fileWorld (init.name seleniumJar) []
                     (init.url seleniumJar) [Byte.x50; Byte.x4b])
                  eq_refl eq_refl)).
Defined.










(* ===================================================================== *)
(** ** More on the downloads *)
(* ===================================================================== *)

(** X1: in the sequential downloader, once the file is created, the request
    answered and the body copied, [downloadFile] fails with the error
    "got sha256 hash ..., want ..." that carries the computed and the
    expected digest exactly when the two differ; when they are equal and
    the file closes, it returns nil. *)
Theorem X1_vendor_download_checks_digest
    (W : Type) (os : OS W) (sha : Sha256) (f : vendor_init.file)
    (w w1 w2 w3 w4 w5 : W) (data : list Byte.byte) (rc : option error) :
  os_Create (vendor_init.name f) w = (None, w1) ->
  http_Get (vendor_init.url f) w1 = (None, w2) ->
  io_Copy (vendor_init.url f) (vendor_init.name f) w2 = ((data, None), w3) ->
  body_Close (vendor_init.url f) w3 = (tt, w4) ->
  file_Close (vendor_init.name f) w4 = (rc, w5) ->
  (hex.EncodeToString (sha256_Sum data) <> vendor_init.hash f ->
   fst (run (vendor_init.downloadFile f) w) =
   Return (Some (Errorf "%s: got sha256 hash %q, want %q"
                   [AString (vendor_init.name f);
                    AString (hex.EncodeToString (sha256_Sum data));
                    AString (vendor_init.hash f)]))) /\
  (hex.EncodeToString (sha256_Sum data) = vendor_init.hash f ->
   rc = None ->
   fst (run (vendor_init.downloadFile f) w) = Return None).
Proof.
  intros H1 H2 H3 H4 H5.
  unfold run, vendor_init.downloadFile, vendor_init.closing, bind, call.
  cbn [world calls]. rewrite H1. cbn [world calls]. rewrite H2.
  cbn [world calls]. rewrite H3.
  destruct (String.eqb_spec (hex.EncodeToString (sha256_Sum data)) (vendor_init.hash f))
    as [E|E]; cbn [negb]; unfold ret; cbn [world calls]; rewrite H4;
    cbn [world calls]; rewrite H5; split; intros; try contradiction; subst;
    try reflexivity.
  destruct rc; reflexivity.
Qed.

Lemma X1_witness_abc :
  fst (run (vendor_init.downloadFile
              {| vendor_init.url := "https://example.org/abc.jar";
                 vendor_init.name := "abc.jar";
                 vendor_init.hash :=
                   "ba7816bf8f01cfea414140de5dae2223b00361a396177a9cb410ff61f20015ad";
                 vendor_init.rename := [] |})
         (webWorld "https://example.org/abc.jar" (list_byte_of_string "abc")))
  = Return None.
Proof.
  set (f := {| vendor_init.url := "https://example.org/abc.jar";
               vendor_init.name := "abc.jar";
               vendor_init.hash :=
                 "ba7816bf8f01cfea414140de5dae2223b00361a396177a9cb410ff61f20015ad";
               vendor_init.rename := [] |}).
  set (w := webWorld "https://example.org/abc.jar" (list_byte_of_string "abc")).
  refine (proj2 (X1_vendor_download_checks_digest Sim SimOS GoSha256 f
                   w (withDisk w [("abc.jar", [])])
                   (withDisk w [("abc.jar", [])])
                   (withDisk w [("abc.jar", list_byte_of_string "abc")])
                   (withDisk w [("abc.jar", list_byte_of_string "abc")])
                   (withDisk w [("abc.jar", list_byte_of_string "abc")])
                   (list_byte_of_string "abc") None _ _ _ _ _) _ _);
    vm_compute; reflexivity.
Defined.

Section DownloadPaths.
Context {W : Type} {os : OS W}.

(** The calls of the concurrent [downloadFile], by the results of the
    calls it makes. *)
Lemma init_downloadFile_cases {u : Unicode} (f : init.file) (w : W) :
  let r := run (init.downloadFile f) w in
  let n := init.name f in
  let l := init.url f in
  let h := init.newHash (init.hashType f) in
  (exists e w1, os_Create n w = (Some e, w1) /\
     fst r = Return (Some (Errorf "error creating %q: %v" [AString n; AError (Some e)])) /\
     calls (snd r) = [Create n]) \/
  (exists e w1 w2 rc w3,
     os_Create n w = (None, w1) /\ http_Get l w1 = (Some e, w2) /\
     file_Close n w2 = (rc, w3) /\
     fst r = Return (Some (Errorf "%s: error downloading %q: %v"
                             [AString n; AString l; AError (Some e)])) /\
     calls (snd r) = [Create n; Get l; Close n]) \/
  (exists e data w1 w2 w3 w4 rc w5,
     os_Create n w = (None, w1) /\ http_Get l w1 = (None, w2) /\
     io_Copy l n w2 = ((data, Some e), w3) /\ body_Close l w3 = (tt, w4) /\
     file_Close n w4 = (rc, w5) /\
     fst r = Return (Some (Errorf "%s: error downloading %q: %v"
                             [AString n; AString l; AError (Some e)])) /\
     calls (snd r) = [Create n; Get l; Copy l n h; BodyClose l; Close n]) \/
  (exists data w1 w2 w3 w4 rc w5,
     os_Create n w = (None, w1) /\ http_Get l w1 = (None, w2) /\
     io_Copy l n w2 = ((data, None), w3) /\ body_Close l w3 = (tt, w4) /\
     file_Close n w4 = (rc, w5) /\
     fst r = Return (match rc with
                     | Some _ => Some (Errorf "error closing %q: %v"
                                         [AString n; AError None])
                     | None => None
                     end) /\
     calls (snd r) = [Create n; Get l; Copy l n h; BodyClose l; Close n]).
Proof.
  cbv zeta.
  unfold run, init.downloadFile, init.closing, bind, call, ret. cbn [world calls].
  destruct (os_Create (init.name f) w) as [[e|] w1] eqn:E1; cbn [world calls fst snd].
  { left. eauto 10. }
  destruct (http_Get (init.url f) w1) as [[e|] w2] eqn:E2; cbn [world calls fst snd].
  { right; left.
    destruct (file_Close (init.name f) w2) as [rc w3] eqn:E3.
    exists e, w1, w2, rc, w3. destruct rc; cbn [world calls fst snd]; auto 10. }
  destruct (io_Copy (init.url f) (init.name f) w2) as [[data [e|]] w3] eqn:E3;
    cbn [world calls fst snd];
    destruct (body_Close (init.url f) w3) as [[] w4] eqn:E4; cbn [world calls fst snd];
    destruct (file_Close (init.name f) w4) as [rc w5] eqn:E5.
  - right; right; left.
    exists e, data, w1, w2, w3, w4, rc, w5. destruct rc; cbn [world calls fst snd]; auto 10.
  - right; right; right.
    exists data, w1, w2, w3, w4, rc, w5. destruct rc; cbn [world calls fst snd]; auto 10.
Qed.

End DownloadPaths.

Section VendorDownloadPaths.
Context {W : Type} {os : OS W} {sha : Sha256}.

(** The same for the sequential [downloadFile], with the digest. *)
Lemma vendor_downloadFile_cases (f : vendor_init.file) (w : W) :
  let r := run (vendor_init.downloadFile f) w in
  let n := vendor_init.name f in
  let l := vendor_init.url f in
  (exists e w1, os_Create n w = (Some e, w1) /\
     fst r = Return (Some (Errorf "error creating %q: %v" [AString n; AError (Some e)])) /\
     calls (snd r) = [Create n]) \/
  (exists e w1 w2 rc w3,
     os_Create n w = (None, w1) /\ http_Get l w1 = (Some e, w2) /\
     file_Close n w2 = (rc, w3) /\
     fst r = Return (Some (Errorf "%s: error downloading %q: %v"
                             [AString n; AString l; AError (Some e)])) /\
     calls (snd r) = [Create n; Get l; Close n]) \/
  (exists e data w1 w2 w3 w4 rc w5,
     os_Create n w = (None, w1) /\ http_Get l w1 = (None, w2) /\
     io_Copy l n w2 = ((data, Some e), w3) /\ body_Close l w3 = (tt, w4) /\
     file_Close n w4 = (rc, w5) /\
     fst r = Return (Some (Errorf "%s: error downloading %q: %v"
                             [AString n; AString l; AError (Some e)])) /\
     calls (snd r) = [Create n; Get l; Copy l n SHA256; BodyClose l; Close n]) \/
  (exists data w1 w2 w3 w4 rc w5,
     os_Create n w = (None, w1) /\ http_Get l w1 = (None, w2) /\
     io_Copy l n w2 = ((data, None), w3) /\ body_Close l w3 = (tt, w4) /\
     file_Close n w4 = (rc, w5) /\
     fst r = Return
               (if String.eqb (hex.EncodeToString (sha256_Sum data)) (vendor_init.hash f)
                then match rc with
                     | Some _ => Some (Errorf "error closing %q: %v"
                                         [AString n; AError None])
                     | None => None
                     end
                else Some (Errorf "%s: got sha256 hash %q, want %q"
                             [AString n; AString (hex.EncodeToString (sha256_Sum data));
                              AString (vendor_init.hash f)])) /\
     calls (snd r) = [Create n; Get l; Copy l n SHA256; BodyClose l; Close n]).
Proof.
  cbv zeta.
  unfold run, vendor_init.downloadFile, vendor_init.closing, bind, call, ret.
  cbn [world calls].
  destruct (os_Create (vendor_init.name f) w) as [[e|] w1] eqn:E1;
    cbn [world calls fst snd].
  { left. eauto 10. }
  destruct (http_Get (vendor_init.url f) w1) as [[e|] w2] eqn:E2;
    cbn [world calls fst snd].
  { right; left.
    destruct (file_Close (vendor_init.name f) w2) as [rc w3] eqn:E3.
    exists e, w1, w2, rc, w3. destruct rc; cbn [world calls fst snd]; auto 10. }
  destruct (io_Copy (vendor_init.url f) (vendor_init.name f) w2)
    as [[data [e|]] w3] eqn:E3; cbn [world calls fst snd].
  - destruct (body_Close (vendor_init.url f) w3) as [[] w4] eqn:E4;
      cbn [world calls fst snd].
    destruct (file_Close (vendor_init.name f) w4) as [rc w5] eqn:E5.
    right; right; left.
    exists e, data, w1, w2, w3, w4, rc, w5. destruct rc; cbn [world calls fst snd]; auto 10.
  - right; right; right.
    destruct (String.eqb (hex.EncodeToString (sha256_Sum data)) (vendor_init.hash f))
      eqn:Eh; cbn [negb world calls fst snd];
      destruct (body_Close (vendor_init.url f) w3) as [[] w4] eqn:E4;
      cbn [world calls fst snd];
      destruct (file_Close (vendor_init.name f) w4) as [rc w5] eqn:E5;
      exists data, w1, w2, w3, w4, rc, w5; rewrite Eh;
      destruct rc; cbn [world calls fst snd]; auto 10.
Qed.

End VendorDownloadPaths.

(** X2: neither [downloadFile] reports success early: when it returns nil
    it has created the file, sent the request, copied the whole body and
    closed both, each without error; the sequential one has also found the
    digest of the bytes copied equal to the expected one. *)
Theorem X2_download_success_is_complete :
  (forall (W : Type) (os : OS W) (u : Unicode) (f : init.file) (w : W),
      fst (run (init.downloadFile f) w) = Return None ->
      calls (snd (run (init.downloadFile f) w))
      = [Create (init.name f); Get (init.url f);
         Copy (init.url f) (init.name f) (init.newHash (init.hashType f));
         BodyClose (init.url f); Close (init.name f)] /\
      exists data w1 w2 w3 w4 w5,
        os_Create (init.name f) w = (None, w1) /\
        http_Get (init.url f) w1 = (None, w2) /\
        io_Copy (init.url f) (init.name f) w2 = ((data, None), w3) /\
        body_Close (init.url f) w3 = (tt, w4) /\
        file_Close (init.name f) w4 = (None, w5)) /\
  (forall (W : Type) (os : OS W) (sha : Sha256) (f : vendor_init.file) (w : W),
      fst (run (vendor_init.downloadFile f) w) = Return None ->
      calls (snd (run (vendor_init.downloadFile f) w))
      = [Create (vendor_init.name f); Get (vendor_init.url f);
         Copy (vendor_init.url f) (vendor_init.name f) SHA256;
         BodyClose (vendor_init.url f); Close (vendor_init.name f)] /\
      exists data w1 w2 w3 w4 w5,
        os_Create (vendor_init.name f) w = (None, w1) /\
        http_Get (vendor_init.url f) w1 = (None, w2) /\
        io_Copy (vendor_init.url f) (vendor_init.name f) w2 = ((data, None), w3) /\
        body_Close (vendor_init.url f) w3 = (tt, w4) /\
        file_Close (vendor_init.name f) w4 = (None, w5) /\
        hex.EncodeToString (sha256_Sum data) = vendor_init.hash f).
Proof.
  split.
  - intros W os u f w Hnil.
    destruct (init_downloadFile_cases f w)
      as [(e & w1 & _ & Hr & _)
         |[(e & w1 & w2 & rc & w3 & _ & _ & _ & Hr & _)
          |[(e & data & w1 & w2 & w3 & w4 & rc & w5 & _ & _ & _ & _ & _ & Hr & _)
           |(data & w1 & w2 & w3 & w4 & rc & w5 & H1 & H2 & H3 & H4 & H5 & Hr & Hc)]]];
      rewrite Hr in Hnil; try discriminate Hnil.
    destruct rc; [discriminate Hnil|].
    split; [exact Hc|]. exists data, w1, w2, w3, w4, w5. auto 10.
  - intros W os sha f w Hnil.
    destruct (vendor_downloadFile_cases f w)
      as [(e & w1 & _ & Hr & _)
         |[(e & w1 & w2 & rc & w3 & _ & _ & _ & Hr & _)
          |[(e & data & w1 & w2 & w3 & w4 & rc & w5 & _ & _ & _ & _ & _ & Hr & _)
           |(data & w1 & w2 & w3 & w4 & rc & w5 & H1 & H2 & H3 & H4 & H5 & Hr & Hc)]]];
      rewrite Hr in Hnil; try discriminate Hnil.
    destruct (String.eqb_spec (hex.EncodeToString (sha256_Sum data)) (vendor_init.hash f))
      as [E|E]; [|discriminate Hnil].
    destruct rc; [discriminate Hnil|].
    split; [exact Hc|]. exists data, w1, w2, w3, w4, w5. auto 10.
Qed.

Lemma X2_witness_selenium_jar :
  calls (snd (run (init.downloadFile seleniumJar) (webWorld (init.url seleniumJar) [])))
  = [Create (init.name seleniumJar); Get (init.url seleniumJar);
     Copy (init.url seleniumJar) (init.name seleniumJar) SHA256;
     BodyClose (init.url seleniumJar); Close (init.name seleniumJar)].
Proof.
  exact (proj1 (proj1 X2_download_success_is_complete Sim SimOS ASCIILower seleniumJar
                  (webWorld (init.url seleniumJar) []) eq_refl)).
Defined.





(* ===================================================================== *)
(** ** Calls made before do not matter *)
(* ===================================================================== *)

Section Framed.
Context {W : Type}.

Lemma framed_ret {A : Type} (a : A) : framed (W := W) (ret a).
Proof. intros w c. unfold run, ret. cbn. now rewrite app_nil_r. Qed.

Lemma framed_panic {A : Type} (msg : string) : framed (W := W) (panic (A := A) msg).
Proof. intros w c. unfold run, panic. cbn. now rewrite app_nil_r. Qed.

Lemma framed_call {R : Type} (e : event) (f : W -> R * W) : framed (call e f).
Proof. intros w c. unfold run, call. cbn. now destruct (f w). Qed.

Lemma framed_perform {R : Type} (f : W -> R * W) : framed (perform f).
Proof.
  intros w c. unfold run, perform. cbn. destruct (f w). cbn. now rewrite app_nil_r.
Qed.

Lemma framed_glog sev format args : framed (W := W) (glog sev format args).
Proof. intros w c. reflexivity. Qed.

Lemma framed_Exitf {A : Type} format args : framed (W := W) (Exitf (A := A) format args).
Proof. intros w c. reflexivity. Qed.

Lemma framed_bind {A B : Type} (m : M W A) (k : A -> M W B) :
  framed m -> (forall a, framed (k a)) -> framed (bind m k).
Proof.
  intros Hm Hk w c. unfold run, bind. rewrite (Hm w c).
  unfold run. destruct (m {| world := w; calls := [] |}) as [[a|msg|] [w' c']];
    cbn [fst snd world calls]; try reflexivity.
  rewrite (Hk a w' (c ++ c')%list), (Hk a w' c'). cbn [fst snd world calls].
  now rewrite app_assoc.
Qed.

(** The calls of a sequence are those of its first part, then those of the
    second. *)
Lemma framed_state {A : Type} (m : M W A) (s : State W) :
  framed m ->
  m s = (fst (run m (world s)),
         {| world := world (snd (run m (world s)));
            calls := (calls s ++ calls (snd (run m (world s))))%list |}).
Proof. intros Hm. destruct s as [w c]. apply Hm. Qed.

Lemma run_ret {A : Type} (a : A) (w : W) :
  run (ret a) w = (Return a, {| world := w; calls := [] |}).
Proof. reflexivity. Qed.

Lemma run_bind_Return {A B : Type} (m : M W A) (k : A -> M W B) (w : W) (a : A) :
  fst (run m w) = Return a -> framed (k a) ->
  run (bind m k) w =
  (fst (run (k a) (world (snd (run m w)))),
   {| world := world (snd (run (k a) (world (snd (run m w)))));
      calls := (calls (snd (run m w)) ++
                calls (snd (run (k a) (world (snd (run m w))))))%list |}).
Proof.
  intros Hm Hk. unfold run at 1. unfold bind. fold (run m w).
  destruct (run m w) as [o s1]. cbn [fst snd] in *. subst o.
  apply framed_state, Hk.
Qed.

Lemma run_bind_Panic {A B : Type} (m : M W A) (k : A -> M W B) (w : W) msg :
  fst (run m w) = Panic msg -> run (bind m k) w = (Panic msg, snd (run m w)).
Proof.
  intros Hm. unfold run at 1. unfold bind. fold (run m w).
  destruct (run m w) as [o s1]. cbn [fst snd] in *. now subst o.
Qed.

Lemma run_bind_Exited {A B : Type} (m : M W A) (k : A -> M W B) (w : W) :
  fst (run m w) = Exited -> run (bind m k) w = (Exited, snd (run m w)).
Proof.
  intros Hm. unfold run at 1. unfold bind. fold (run m w).
  destruct (run m w) as [o s1]. cbn [fst snd] in *. now subst o.
Qed.

End Framed.

Create HintDb framed.
#[export] Hint Resolve framed_ret framed_panic framed_call framed_perform
  framed_glog framed_Exitf : framed.
#[export] Hint Extern 2 (framed (bind _ _)) => apply framed_bind; [|intros] : framed.
#[export] Hint Extern 3 (framed (match ?x with _ => _ end)) => destruct x : framed.
#[export] Hint Extern 3 (framed (if ?b then _ else _)) => destruct b : framed.
#[export] Hint Extern 3 (framed (let (_, _) := ?x in _)) => destruct x : framed.

Section FramedPrograms.
Context {W : Type} {os : OS W}.

Lemma framed_init_downloadFile {u : Unicode} f : framed (init.downloadFile f).
Proof. unfold init.downloadFile, init.closing. auto 20 with framed. Qed.

Lemma framed_init_fetchStep {u : Unicode} f : framed (init.fetchStep f).
Proof.
  unfold init.fetchStep. pose proof (framed_init_downloadFile f). auto 20 with framed.
Qed.

Lemma framed_init_extractStep f : framed (init.extractStep f).
Proof. unfold init.extractStep, init.unpack. auto 20 with framed. Qed.

Lemma framed_init_renameStep f : framed (init.renameStep f).
Proof. unfold init.renameStep. auto 20 with framed. Qed.

Lemma framed_init_handleFile {u : Unicode} db f : framed (init.handleFile db f).
Proof.
  unfold init.handleFile.
  pose proof (framed_init_fetchStep f). pose proof (framed_init_extractStep f).
  pose proof (framed_init_renameStep f). auto 20 with framed.
Qed.

Lemma framed_vendor_downloadFile {sha : Sha256} f : framed (vendor_init.downloadFile f).
Proof. unfold vendor_init.downloadFile, vendor_init.closing. auto 20 with framed. Qed.

Lemma framed_vendor_fileSameHash {sha : Sha256} n h : framed (vendor_init.fileSameHash n h).
Proof. unfold vendor_init.fileSameHash. auto 20 with framed. Qed.

Lemma framed_vendor_step {sha : Sha256} f : framed (vendor_init.step f).
Proof.
  unfold vendor_init.step, vendor_init.fetchStep, vendor_init.extractStep,
    vendor_init.renameStep.
  pose proof (framed_vendor_downloadFile f).
  pose proof (framed_vendor_fileSameHash (vendor_init.name f) (vendor_init.hash f)).
  auto 30 with framed.
Qed.

Lemma framed_vendor_forEach {sha : Sha256} l : framed (vendor_init.forEach l).
Proof.
  induction l as [|f l IH]; cbn [vendor_init.forEach].
  - auto with framed.
  - pose proof (framed_vendor_step f). auto with framed.
Qed.

End FramedPrograms.


(* ===================================================================== *)
(** ** The sequential run *)
(* ===================================================================== *)

Section VendorRun.
Context {W : Type} {os : OS W} {sha : Sha256}.

Lemma vendor_fileSameHash_calls (n want : string) (w : W) :
  (exists b, fst (run (vendor_init.fileSameHash n want) w) = Return b) /\
  (calls (snd (run (vendor_init.fileSameHash n want) w)) = [Stat n] \/
   calls (snd (run (vendor_init.fileSameHash n want) w)) = [Stat n; Open n] \/
   calls (snd (run (vendor_init.fileSameHash n want) w))
   = [Stat n; Open n; CopyFile n SHA256; Close n]).
Proof.
  unfold run, vendor_init.fileSameHash, bind, call, ret. cbn [world calls].
  destruct (os_Stat n w) as [[e|] w1]; cbn [world calls fst snd]; [eauto|].
  destruct (os_Open n w1) as [[e|] w2]; cbn [world calls fst snd]; [eauto|].
  destruct (file_Read n w2) as [[data [e|]] w3]; cbn [world calls fst snd];
    destruct (file_Close n w3) as [rc w4]; cbn [world calls fst snd]; eauto 6.
Qed.

Lemma vendor_forEach_app (l1 l2 : list vendor_init.file) (s : State W) :
  vendor_init.forEach (l1 ++ l2) s =
  match vendor_init.forEach l1 s with
  | (Return _, s1) => vendor_init.forEach l2 s1
  | other => other
  end.
Proof.
  revert s. induction l1 as [|f l1 IH]; intros s; cbn [app vendor_init.forEach].
  - reflexivity.
  - unfold bind.
    destruct (vendor_init.step f s) as [[[]|msg|] s1]; auto.
Qed.

Lemma vendor_downloadFile_returns (f : vendor_init.file) (w : W) :
  exists r, fst (run (vendor_init.downloadFile f) w) = Return r.
Proof.
  destruct (vendor_downloadFile_cases f w)
    as [(e & x1 & _ & -> & _)
       |[(e & x1 & x2 & rc & x3 & _ & _ & _ & -> & _)
        |[(e & data & x1 & x2 & x3 & x4 & rc & x5 & _ & _ & _ & _ & _ & -> & _)
         |(data & x1 & x2 & x3 & x4 & rc & x5 & _ & _ & _ & _ & _ & -> & _)]]];
    eauto.
Qed.

Lemma vendor_renameStep_returns (f : vendor_init.file) (s : State W) :
  exists s', vendor_init.renameStep f s = (Return tt, s').
Proof.
  unfold vendor_init.renameStep, bind, call, glog, ret.
  destruct (vendor_init.rename f) as [|a [|b [|c l]]]; eauto.
  destruct (os_Rename a b (world s)) as [[e|] w']; eauto.
Qed.

End VendorRun.

(** X5: in the sequential downloader [fileSameHash] returns true exactly
    when [os.Stat] and [os.Open] succeed on the file, the whole file is
    read and the digest of its bytes, in hexadecimal, is the wanted one.
    It always returns, and only looks: its calls are the stat alone, the
    stat and the failed open, or stat, open, read and close. *)
Theorem X5_fileSameHash
    (W : Type) (os : OS W) (sha : Sha256) (fileName wantHash : string) (w : W) :
  (fst (run (vendor_init.fileSameHash fileName wantHash) w) = Return true <->
   exists w1 w2 w3 data,
     os_Stat fileName w = (None, w1) /\
     os_Open fileName w1 = (None, w2) /\
     file_Read fileName w2 = ((data, None), w3) /\
     hex.EncodeToString (sha256_Sum data) = wantHash) /\
  (exists b, fst (run (vendor_init.fileSameHash fileName wantHash) w) = Return b) /\
  (calls (snd (run (vendor_init.fileSameHash fileName wantHash) w)) = [Stat fileName] \/
   calls (snd (run (vendor_init.fileSameHash fileName wantHash) w))
   = [Stat fileName; Open fileName] \/
   calls (snd (run (vendor_init.fileSameHash fileName wantHash) w))
   = [Stat fileName; Open fileName; CopyFile fileName SHA256; Close fileName]).
Proof.
  split.
  - apply (vendor_fileSameHash_true fileName wantHash {| world := w; calls := [] |}).
  - apply vendor_fileSameHash_calls.
Qed.

Lemma X5_witness_abc :
  fst (run (vendor_init.fileSameHash "abc.jar"
              "ba7816bf8f01cfea414140de5dae2223b00361a396177a9cb410ff61f20015ad")
         (fileWorld "abc.jar" (list_byte_of_string "abc") "" []))
  = Return true.
Proof.
  set (w := fileWorld "abc.jar" (list_byte_of_string "abc") "" []).
  apply (proj2 (proj1 (X5_fileSameHash Sim SimOS GoSha256 "abc.jar"
           "ba7816bf8f01cfea414140de5dae2223b00361a396177a9cb410ff61f20015ad" w))).
  exists w, w, w, (list_byte_of_string "abc").
  repeat split; vm_compute; reflexivity.
Defined.



(** X7: the sequential run fails fast and only in two places.  When the
    step of a file ends the process, the files after it are not handled:
    the run ends in the state of that exit.  A step never panics, and once
    its fetch and its unzip have returned it returns, whatever the rename
    does. *)
Theorem X7_vendor_fail_fast :
  (forall (W : Type) (os : OS W) (sha : Sha256)
          (l1 l2 : list vendor_init.file) (f : vendor_init.file) (s s1 s2 : State W),
      vendor_init.forEach l1 s = (Return tt, s1) ->
      vendor_init.step f s1 = (Exited, s2) ->
      vendor_init.forEach (l1 ++ f :: l2) s = (Exited, s2)) /\
  (forall (W : Type) (os : OS W) (sha : Sha256) (f : vendor_init.file)
          (s s1 s2 : State W),
      vendor_init.fetchStep f s = (Return tt, s1) ->
      vendor_init.extractStep f s1 = (Return tt, s2) ->
      exists s3, vendor_init.step f s = (Return tt, s3)) /\
  (forall (W : Type) (os : OS W) (sha : Sha256) (f : vendor_init.file) (w : W),
      fst (run (vendor_init.step f) w) = Return tt \/
      fst (run (vendor_init.step f) w) = Exited).
Proof.
  split; [|split].
  - intros W os sha l1 l2 f s s1 s2 H1 H2.
    rewrite vendor_forEach_app, H1. cbn [vendor_init.forEach].
    unfold bind at 1. now rewrite H2.
  - intros W os sha f s s1 s2 H1 H2.
    unfold vendor_init.step, bind. rewrite H1, H2.
    apply vendor_renameStep_returns.
  - intros W os sha f w.
    unfold run, vendor_init.step, vendor_init.fetchStep, bind.
    destruct (vendor_fileSameHash_calls (vendor_init.name f) (vendor_init.hash f) w)
      as [[b Hb] _].
    unfold run in Hb.
    destruct (vendor_init.fileSameHash (vendor_init.name f) (vendor_init.hash f)
                {| world := w; calls := [] |}) as [o s1].
    cbn [fst] in Hb. subst o.
    assert (HE : forall s, fst (vendor_init.extractStep f s) = Return tt \/
                           fst (vendor_init.extractStep f s) = Exited).
    { intros s. unfold vendor_init.extractStep, bind, call, ret, Exitf.
      destruct (String.eqb (path.Ext (vendor_init.name f)) ".zip"); auto.
      destruct (exec_Run "unzip" [vendor_init.name f] (world s)) as [[e|] w']; auto. }
    assert (HT : forall s, fst (match vendor_init.extractStep f s with
                                | (Return _, s') => vendor_init.renameStep f s'
                                | (Panic msg, s') => (Panic msg, s')
                                | (Exited, s') => (Exited, s')
                                end) = Return tt \/
                           fst (match vendor_init.extractStep f s with
                                | (Return _, s') => vendor_init.renameStep f s'
                                | (Panic msg, s') => (Panic msg, s')
                                | (Exited, s') => (Exited, s')
                                end) = Exited).
    { intros s. destruct (HE s) as [H|H];
        destruct (vendor_init.extractStep f s) as [o s']; cbn [fst] in H; subst o; auto.
      destruct (vendor_renameStep_returns f s') as [s3 ->]. auto. }
    destruct b; cbn [negb].
    + unfold glog. apply HT.
    + destruct (vendor_init.downloadFile f s1) as [[[e|]|msg|] s2] eqn:ED;
        unfold Exitf, ret; cbn [fst]; auto.
      exfalso.
      pose proof (framed_state (vendor_init.downloadFile f) s1
                    (framed_vendor_downloadFile f)) as HF.
      rewrite ED in HF.
      destruct (vendor_downloadFile_returns f (world s1)) as [r Hr].
      rewrite Hr in HF. discriminate HF.
Qed.

Lemma X7_witness_first_request_fails :
  run vendor_init.main (lab emptyWorld [FGet])
  = (Exited,
     snd (run (vendor_init.step
                 {| vendor_init.url := "http://selenium-release.storage.googleapis.com/3.0/selenium-server-standalone-3.0.1.jar";
                    vendor_init.name := "selenium-server-standalone-3.0.1.jar";
                    vendor_init.hash := "1537b6d1b259191ed51586378791bc62b38b0cb18ae5ba1433009dc365e9f26b";
                    vendor_init.rename := [] |})
            (lab emptyWorld [FGet]))) /\
  calls (snd (run vendor_init.main (lab emptyWorld [FGet])))
  = [ Stat "selenium-server-standalone-3.0.1.jar";
      Create "selenium-server-standalone-3.0.1.jar";
      Get "http://selenium-release.storage.googleapis.com/3.0/selenium-server-standalone-3.0.1.jar";
      Close "selenium-server-standalone-3.0.1.jar";
      Glog FATAL "%s"
        [AError (Some (Errorf "%s: error downloading %q: %v"
           [AString "selenium-server-standalone-3.0.1.jar";
            AString "http://selenium-release.storage.googleapis.com/3.0/selenium-server-standalone-3.0.1.jar";
            AError (Some injected)]))] ].
Proof.
  split; [|vm_compute; reflexivity].
  unfold run, vendor_init.main.
  refine (proj1 X7_vendor_fail_fast Lab LabOS GoSha256 [] _ _ _ _ _ _ _).
  - reflexivity.
  - vm_compute. reflexivity.
Defined.

(* ===================================================================== *)
(** ** More on handleFile *)
(* ===================================================================== *)

Section HandleFile.
Context {W : Type} {os : OS W} {u : Unicode}.

Lemma init_downloadFile_allowed (f : init.file) (w : W) (e : event) :
  In e (calls (snd (run (init.downloadFile f) w))) -> allowed f e.
Proof.
  destruct (init_downloadFile_cases f w)
    as [(e0 & x1 & _ & _ & ->)
       |[(e0 & x1 & x2 & rc & x3 & _ & _ & _ & _ & ->)
        |[(e0 & data & x1 & x2 & x3 & x4 & rc & x5 & _ & _ & _ & _ & _ & _ & ->)
         |(data & x1 & x2 & x3 & x4 & rc & x5 & _ & _ & _ & _ & _ & _ & ->)]]];
    cbn [In]; intros H; repeat destruct H as [H|H]; subst; cbn; auto; contradiction.
Qed.

Lemma init_downloadFile_returns (f : init.file) (w : W) :
  exists r, fst (run (init.downloadFile f) w) = Return r.
Proof.
  destruct (init_downloadFile_cases f w)
    as [(e & x1 & _ & -> & _)
       |[(e & x1 & x2 & rc & x3 & _ & _ & _ & -> & _)
        |[(e & data & x1 & x2 & x3 & x4 & rc & x5 & _ & _ & _ & _ & _ & -> & _)
         |(data & x1 & x2 & x3 & x4 & rc & x5 & _ & _ & _ & _ & _ & -> & _)]]];
    eauto.
Qed.

(** The fetch step: the stat alone, or the stat, a log line and the calls
    of [downloadFile]. *)
Lemma init_fetchStep_run (f : init.file) (w : W) :
  (exists w1, os_Stat (init.name f) w = (None, w1) /\
     run (init.fetchStep f) w
     = (Return None, {| world := w1; calls := [Stat (init.name f)] |})) \/
  (exists e0 w1, os_Stat (init.name f) w = (Some e0, w1) /\
     fst (run (init.fetchStep f) w) = fst (run (init.downloadFile f) w1) /\
     calls (snd (run (init.fetchStep f) w))
     = ([Stat (init.name f);
         Glog INFO "Downloading %q from %q"
           [AString (init.name f); AString (init.url f)]]
        ++ calls (snd (run (init.downloadFile f) w1)))%list).
Proof.
  unfold run at 1 2 4. unfold init.fetchStep, bind, call, glog. cbn [world calls].
  destruct (os_Stat (init.name f) w) as [[e0|] w1].
  - right. exists e0, w1. split; [reflexivity|].
    rewrite (framed_init_downloadFile f w1). cbn [fst snd calls]. auto.
  - left. exists w1. auto.
Qed.

Lemma init_fetchStep_allowed (f : init.file) (w : W) (e : event) :
  In e (calls (snd (run (init.fetchStep f) w))) -> allowed f e.
Proof.
  destruct (init_fetchStep_run f w)
    as [(w1 & _ & ->)|(e0 & w1 & _ & _ & ->)]; cbn [snd calls In app].
  - intros [<-|[]]. reflexivity.
  - intros [<-|[<-|H]]; cbn; auto. eapply init_downloadFile_allowed; eauto.
Qed.

Lemma init_unpack_allowed (f : init.file) (cmd flag : string) (w : W) (e : event) :
  (cmd = "unzip" /\ flag = "-o") \/ (cmd = "tar" /\ flag = "-xzf") \/
  (cmd = "tar" /\ flag = "-xjf") ->
  In e (calls (snd (run (init.unpack f cmd flag) w))) -> allowed f e.
Proof.
  intros Hc. unfold run, init.unpack, bind, glog, call, ret. simpl.
  destruct (exec_Run cmd [flag; init.name f] w) as [[e0|] w1]; simpl;
    intros [<-|[<-|[]]]; cbn; auto;
    destruct Hc as [[-> ->]|[[-> ->]|[-> ->]]]; auto 6.
Qed.

Lemma init_extractStep_allowed (f : init.file) (w : W) (e : event) :
  In e (calls (snd (run (init.extractStep f) w))) -> allowed f e.
Proof.
  unfold init.extractStep.
  destruct (String.eqb (path.Ext (init.name f)) ".zip").
  { apply init_unpack_allowed. auto. }
  destruct (String.eqb (path.Ext (init.name f)) ".gz").
  { apply init_unpack_allowed. auto. }
  destruct (String.eqb (path.Ext (init.name f)) ".bz2").
  { apply init_unpack_allowed. auto. }
  intros [].
Qed.

Lemma init_extractStep_returns (f : init.file) (s : State W) :
  exists r, fst (init.extractStep f s) = Return r.
Proof.
  assert (HU : forall cmd flag, exists r, fst (init.unpack f cmd flag s) = Return r).
  { intros cmd flag.
    destruct (exec_Run cmd [flag; init.name f] (world s)) as [r w'] eqn:E.
    rewrite (unpack_run f cmd flag s r w' E). eexists. reflexivity. }
  unfold init.extractStep.
  destruct (String.eqb (path.Ext (init.name f)) ".zip"); [apply HU|].
  destruct (String.eqb (path.Ext (init.name f)) ".gz"); [apply HU|].
  destruct (String.eqb (path.Ext (init.name f)) ".bz2"); [apply HU|].
  eexists. reflexivity.
Qed.

Lemma init_renameStep_allowed (f : init.file) (w : W) (e : event) :
  In e (calls (snd (run (init.renameStep f) w))) -> allowed f e.
Proof.
  unfold run, init.renameStep.
  destruct (init.rename f) as [|a [|b [|c l]]] eqn:Er; try (intros []).
  unfold bind, glog, call, ret. simpl.
  destruct (os_RemoveAll b w) as [r1 w1]. simpl.
  destruct (os_Rename a b w1) as [[e0|] w2]; simpl;
    intros H; repeat destruct H as [H|H]; subst; cbn; eauto;
    try (destruct H; fail).
Qed.

Lemma init_renameStep_returns (f : init.file) (s : State W) :
  exists s', init.renameStep f s = (Return tt, s').
Proof.
  unfold init.renameStep.
  destruct (init.rename f) as [|a [|b [|c l]]]; try (eexists; reflexivity).
  unfold bind, glog, call, ret. simpl.
  destruct (os_RemoveAll b (world s)) as [r1 w1]. simpl.
  destruct (os_Rename a b w1) as [[e0|] w2]; eexists; reflexivity.
Qed.

(** [handleFile] after the toggle: the three steps, each on the world the
    step before has left. *)
Lemma init_handleFile_steps (db : bool) (f : init.file) (w : W) :
  init.browser f && negb db = false ->
  let s1 := snd (run (init.fetchStep f) w) in
  let s2 := snd (run (init.extractStep f) (world s1)) in
  let s3 := snd (run (init.renameStep f) (world s2)) in
  (exists e, fst (run (init.fetchStep f) w) = Return (Some e) /\
     fst (run (init.handleFile db f) w) = Return (Some e) /\
     calls (snd (run (init.handleFile db f) w)) = calls s1) \/
  (exists e, fst (run (init.fetchStep f) w) = Return None /\
     fst (run (init.extractStep f) (world s1)) = Return (Some e) /\
     fst (run (init.handleFile db f) w) = Return (Some e) /\
     calls (snd (run (init.handleFile db f) w)) = (calls s1 ++ calls s2)%list) \/
  (fst (run (init.fetchStep f) w) = Return None /\
   fst (run (init.extractStep f) (world s1)) = Return None /\
   fst (run (init.handleFile db f) w) = Return None /\
   calls (snd (run (init.handleFile db f) w))
   = (calls s1 ++ calls s2 ++ calls s3)%list).
Proof.
  intros Hb. cbv zeta.
  assert (HR : exists r, fst (run (init.fetchStep f) w) = Return r).
  { destruct (init_fetchStep_run f w) as [(w1 & _ & ->)|(e0 & w1 & _ & -> & _)].
    - exists None. reflexivity.
    - apply init_downloadFile_returns. }
  destruct HR as [r Hr].
  destruct (init_extractStep_returns f
              {| world := world (snd (run (init.fetchStep f) w)); calls := [] |})
    as [r2 Hr2].
  fold (run (init.extractStep f) (world (snd (run (init.fetchStep f) w)))) in Hr2.
  destruct (init_renameStep_returns f
              {| world := world (snd (run (init.extractStep f)
                                        (world (snd (run (init.fetchStep f) w)))));
                 calls := [] |}) as [s3 Hs3].
  fold (run (init.renameStep f)
          (world (snd (run (init.extractStep f)
                         (world (snd (run (init.fetchStep f) w))))))) in Hs3.
  unfold init.handleFile. rewrite Hb.
  destruct r as [e|].
  { left. exists e. rewrite (run_bind_Return _ _ w (Some e) Hr) by auto with framed.
    rewrite run_ret. cbn [fst snd calls]. rewrite app_nil_r. auto. }
  right.
  rewrite (run_bind_Return _ _ w None Hr)
    by (apply framed_bind; [apply framed_init_extractStep|];
        intros [?|]; auto with framed; apply framed_bind;
        [apply framed_init_renameStep|auto with framed]).
  destruct r2 as [e|].
  { left. exists e. rewrite (run_bind_Return _ _ _ (Some e) Hr2) by auto with framed.
    rewrite run_ret. cbn [fst snd calls]. rewrite app_nil_r. auto. }
  right.
  rewrite (run_bind_Return _ _ _ None Hr2)
    by (apply framed_bind; [apply framed_init_renameStep|auto with framed]).
  rewrite (run_bind_Return _ _ _ tt (f_equal fst Hs3)) by auto with framed.
  rewrite run_ret. cbn [fst snd calls world]. rewrite app_nil_r. auto.
Qed.

End HandleFile.

(* ===================================================================== *)
(** ** The task of a descriptor as a whole *)
(* ===================================================================== *)

Lemma forallb_negb_existsb {A : Type} (p : A -> bool) (l : list A) :
  forallb (fun e => negb (p e)) l = true -> existsb p l = false.
Proof.
  induction l as [|c l IH]; simpl; auto.
  intros H. apply andb_prop in H. destruct H as [Hc Hl].
  rewrite (IH Hl). now destruct (p c).
Qed.

Lemma forallb_weaken {A : Type} (p q : A -> bool) (l : list A) :
  (forall a, p a = true -> q a = true) ->
  forallb p l = true -> forallb q l = true.
Proof.
  intros Hpq. induction l as [|c l IH]; simpl; auto.
  intros H. apply andb_prop in H. destruct H as [Hc Hl].
  now rewrite (Hpq c Hc), (IH Hl).
Qed.

Section HandleFileShape.
Context {W : Type} {os : OS W} {u : Unicode}.

Lemma init_fetchStep_not_later (f : init.file) (w : W) :
  forallb (fun e => negb (isLater e)) (calls (snd (run (init.fetchStep f) w))) = true.
Proof.
  destruct (init_fetchStep_run f w) as [(w1 & _ & ->)|(e0 & w1 & _ & _ & ->)];
    [reflexivity|].
  destruct (init_downloadFile_cases f w1)
    as [(e1 & x1 & _ & _ & ->)
       |[(e1 & x1 & x2 & rc & x3 & _ & _ & _ & _ & ->)
        |[(e1 & data & x1 & x2 & x3 & x4 & rc & x5 & _ & _ & _ & _ & _ & _ & ->)
         |(data & x1 & x2 & x3 & x4 & rc & x5 & _ & _ & _ & _ & _ & _ & ->)]]];
    reflexivity.
Qed.

Lemma init_extractStep_calls (f : init.file) (w : W) :
  calls (snd (run (init.extractStep f) w)) = [] \/
  exists cmd flag,
    calls (snd (run (init.extractStep f) w))
    = [Glog INFO "Unzipping %q" [AString (init.name f)];
       Run cmd [flag; init.name f]].
Proof.
  assert (HU : forall cmd flag,
             exists cmd' flag',
               calls (snd (run (init.unpack f cmd flag) w))
               = [Glog INFO "Unzipping %q" [AString (init.name f)];
                  Run cmd' [flag'; init.name f]]).
  { intros cmd flag. exists cmd, flag. unfold run.
    destruct (exec_Run cmd [flag; init.name f] w) as [r w'] eqn:E.
    now rewrite (unpack_run f cmd flag {| world := w; calls := [] |} r w' E). }
  unfold init.extractStep.
  destruct (String.eqb (path.Ext (init.name f)) ".zip"); [right; apply HU|].
  destruct (String.eqb (path.Ext (init.name f)) ".gz"); [right; apply HU|].
  destruct (String.eqb (path.Ext (init.name f)) ".bz2"); [right; apply HU|].
  now left.
Qed.

Lemma init_renameStep_calls (f : init.file) (w : W) :
  (length (init.rename f) <> 2%nat /\
   calls (snd (run (init.renameStep f) w)) = []) \/
  exists a b r,
    init.rename f = [a; b] /\
    calls (snd (run (init.renameStep f) w))
    = ([Glog INFO "Renaming %q to %q" [AString a; AString b];
        RemoveAll b; Rename a b] ++ renameWarning a b r)%list.
Proof.
  unfold run, init.renameStep.
  destruct (init.rename f) as [|a [|b [|c l]]] eqn:Er;
    try (left; split; [discriminate|reflexivity]).
  right. unfold bind, glog, call, ret. simpl.
  destruct (os_RemoveAll b w) as [r1 w1]. simpl.
  destruct (os_Rename a b w1) as [r w2]. exists a, b, r.
  split; [reflexivity|]. destruct r; reflexivity.
Qed.

End HandleFileShape.

(** X8: a rename list whose length is not two is ignored by both programs:
    the rename step makes no call, logs nothing and leaves the state as it
    is. *)
Theorem X8_rename_needs_two_names :
  (forall (W : Type) (os : OS W) (f : init.file) (s : State W),
      length (init.rename f) <> 2%nat ->
      init.renameStep f s = (Return tt, s)) /\
  (forall (W : Type) (os : OS W) (f : vendor_init.file) (s : State W),
      length (vendor_init.rename f) <> 2%nat ->
      vendor_init.renameStep f s = (Return tt, s)).
Proof.
  split; intros W os f s H.
  - unfold init.renameStep.
    destruct (init.rename f) as [|a [|b [|c l]]]; try reflexivity.
    now elim H.
  - unfold vendor_init.renameStep.
    destruct (vendor_init.rename f) as [|a [|b [|c l]]]; try reflexivity.
    now elim H.
Qed.

Lemma X8_witness_one_and_three_names :
  init.renameStep
    {| init.url := ""; init.name := "driver.zip"; init.hash := "";
       init.hashType := ""; init.rename := ["chromedriver"];
       init.browser := false |}
    {| world := emptyWorld; calls := [] |}
  = (Return tt, {| world := emptyWorld; calls := [] |}) /\
  vendor_init.renameStep
    {| vendor_init.url := ""; vendor_init.name := "driver.zip";
       vendor_init.hash := "";
       vendor_init.rename := ["chromedriver"; "chromedriver-2.26"; "extra"] |}
    {| world := emptyWorld; calls := [] |}
  = (Return tt, {| world := emptyWorld; calls := [] |}).
Proof.
  split.
  - apply (proj1 X8_rename_needs_two_names Sim SimOS). simpl. discriminate.
  - apply (proj2 X8_rename_needs_two_names Sim SimOS). simpl. discriminate.
Defined.

(** X9: [handleFile] stops at the first failing step.  When the target is
    absent and the download fails, its error is the result and no unpack
    command, removal or rename is made; when the unpack command fails, the
    result is the "Error unzipping" error and nothing is removed or renamed,
    whatever rename pair the descriptor carries. *)
Theorem X9_handleFile_stops_at_first_error
    (W : Type) (os : OS W) (u : Unicode) (db : bool) (f : init.file) (w : W) :
  init.browser f && negb db = false ->
  (forall e0 w1 e,
      os_Stat (init.name f) w = (Some e0, w1) ->
      fst (run (init.downloadFile f) w1) = Return (Some e) ->
      fst (run (init.handleFile db f) w) = Return (Some e) /\
      existsb isLater (calls (snd (run (init.handleFile db f) w))) = false) /\
  (forall e,
      fst (run (init.fetchStep f) w) = Return None ->
      fst (run (init.extractStep f) (world (snd (run (init.fetchStep f) w))))
      = Return (Some e) ->
      fst (run (init.handleFile db f) w) = Return (Some e) /\
      (exists e1, e = Errorf "Error unzipping %q: %v"
                        [AString (init.name f); AError (Some e1)]) /\
      existsb (fun c => isRemoveAll c || isRename c)
        (calls (snd (run (init.handleFile db f) w))) = false).
Proof.
  intros Hb.
  pose proof (init_fetchStep_not_later f w) as HF.
  destruct (init_handleFile_steps db f w Hb)
    as [(e' & H1 & H2 & H3)|[(e' & H1 & H2 & H3 & H4)|(H1 & H2 & H3 & H4)]].
  - split.
    + intros e0 w1 e HS HD.
      destruct (init_fetchStep_run f w) as [(x & Hx & _)|(y & x & Hx & Hy & _)];
        [congruence|].
      assert (x = w1) by congruence. subst x.
      rewrite H2, H3. split; [congruence|].
      now apply forallb_negb_existsb.
    + intros e HN. congruence.
  - split.
    + intros e0 w1 e HS HD.
      destruct (init_fetchStep_run f w) as [(x & Hx & _)|(y & x & Hx & Hy & _)];
        congruence.
    + intros e _ HE. rewrite H3, H4. split; [congruence|]. split.
      * assert (e' = e) by congruence. subst e'. clear - H2.
        unfold init.extractStep in H2.
        assert (HU : forall cmd flag s,
                   fst (run (init.unpack f cmd flag) s) = Return (Some e) ->
                   exists e1, e = Errorf "Error unzipping %q: %v"
                                    [AString (init.name f); AError (Some e1)]).
        { intros cmd flag s. unfold run.
          destruct (exec_Run cmd [flag; init.name f] s) as [r w'] eqn:E.
          rewrite (unpack_run f cmd flag {| world := s; calls := [] |} r w' E).
          cbn [fst]. destruct r as [e1|]; intros [= <-]. now exists e1. }
        destruct (String.eqb (path.Ext (init.name f)) ".zip"); [eapply HU; eauto|].
        destruct (String.eqb (path.Ext (init.name f)) ".gz"); [eapply HU; eauto|].
        destruct (String.eqb (path.Ext (init.name f)) ".bz2"); [eapply HU; eauto|].
        discriminate H2.
      * rewrite existsb_app. apply orb_false_iff. split.
        -- apply forallb_negb_existsb.
           eapply forallb_weaken; [|exact HF].
           intros c. unfold isLater. destruct c; simpl; auto.
        -- destruct (init_extractStep_calls f (world (snd (run (init.fetchStep f) w))))
             as [->|(cmd & flag & ->)]; reflexivity.
  - split.
    + intros e0 w1 e HS HD.
      destruct (init_fetchStep_run f w) as [(x & Hx & _)|(y & x & Hx & Hy & _)];
        congruence.
    + intros e _ HE. congruence.
Qed.

Lemma X9_witness_failed_request_and_unpack :
  (fst (run (init.handleFile false chromedriverZip) (lab emptyWorld [FGet]))
   = Return (Some (Errorf "%s: error downloading %q: %v"
                     [AString "chromedriver_2.31_linux64.zip";
                      AString "https://chromedriver.storage.googleapis.com/2.31/chromedriver_linux64.zip";
                      AError (Some injected)])) /\
   existsb isLater
     (calls (snd (run (init.handleFile false chromedriverZip)
                    (lab emptyWorld [FGet])))) = false) /\
  (fst (run (init.handleFile false chromedriverZip)
          (lab (fileWorld "chromedriver_2.31_linux64.zip" [] "" []) [FRun]))
   = Return (Some (Errorf "Error unzipping %q: %v"
                     [AString "chromedriver_2.31_linux64.zip";
                      AError (Some injected)])) /\
   (exists e1,
       Errorf "Error unzipping %q: %v"
         [AString "chromedriver_2.31_linux64.zip"; AError (Some injected)]
       = Errorf "Error unzipping %q: %v"
           [AString (init.name chromedriverZip); AError (Some e1)]) /\
   existsb (fun c => isRemoveAll c || isRename c)
     (calls (snd (run (init.handleFile false chromedriverZip)
                    (lab (fileWorld "chromedriver_2.31_linux64.zip" [] "" [])
                       [FRun])))) = false).
Proof.
  split.
  - apply (proj1 (X9_handleFile_stops_at_first_error Lab LabOS ASCIILower false
                    chromedriverZip (lab emptyWorld [FGet]) eq_refl)
             (ErrExternal "no such file or directory") (lab emptyWorld [FGet])).
    + vm_compute. reflexivity.
    + vm_compute. reflexivity.
  - apply (proj2 (X9_handleFile_stops_at_first_error Lab LabOS ASCIILower false
                    chromedriverZip
                    (lab (fileWorld "chromedriver_2.31_linux64.zip" [] "" []) [FRun])
                    eq_refl)).
    + vm_compute. reflexivity.
    + vm_compute. reflexivity.
Defined.

(** X10: whatever the world answers, every call [handleFile] makes for a
    descriptor names only what the descriptor names: the target for the
    stat, the creation, the copy and the close, the URL for the request,
    one of the three unpack commands on the target, and the rename pair;
    the only path it removes is the destination of the rename pair.  It
    never opens a file, reads one back or lists anything. *)
Theorem X10_handleFile_calls_are_the_descriptors
    (W : Type) (os : OS W) (u : Unicode) (db : bool) (f : init.file) (w : W)
    (e : event) :
  In e (calls (snd (run (init.handleFile db f) w))) -> allowed f e.
Proof.
  destruct (init.browser f && negb db) eqn:Hb.
  - unfold run, init.handleFile. rewrite Hb. cbn.
    intros [<-|[]]. exact I.
  - destruct (init_handleFile_steps db f w Hb)
      as [(e' & H1 & H2 & H3)|[(e' & H1 & H2 & H3 & H4)|(H1 & H2 & H3 & H4)]].
    + rewrite H3. apply init_fetchStep_allowed.
    + rewrite H4. intros H. apply in_app_or in H. destruct H as [H|H].
      * now apply init_fetchStep_allowed in H.
      * now apply init_extractStep_allowed in H.
    + rewrite H4. intros H. apply in_app_or in H. destruct H as [H|H].
      * now apply init_fetchStep_allowed in H.
      * apply in_app_or in H. destruct H as [H|H].
        -- now apply init_extractStep_allowed in H.
        -- now apply init_renameStep_allowed in H.
Qed.

Lemma X10_witness_rename_destination :
  allowed sauceConnect (RemoveAll "sauce-connect").
Proof.
  apply (X10_handleFile_calls_are_the_descriptors Sim SimOS ASCIILower true
           sauceConnect
           (webWorld "https://saucelabs.com/downloads/sc-4.4.9-linux.tar.gz" [])).
  vm_compute. repeat first [left; reflexivity | right].
Defined.

(** X11: [handleFile] always returns to its caller (it neither panics nor
    exits), and its calls come in one order: first the calls of the stat and
    the download, none of which is a command, a removal or a rename; then
    at most one unpack command on the target, after its log line; then at
    most one removal followed by one rename, those of the rename pair. *)
Theorem X11_handleFile_order
    (W : Type) (os : OS W) (u : Unicode) (db : bool) (f : init.file) (w : W) :
  (exists r, fst (run (init.handleFile db f) w) = Return r) /\
  exists F E R,
    calls (snd (run (init.handleFile db f) w)) = (F ++ E ++ R)%list /\
    forallb (fun e => negb (isLater e)) F = true /\
    (E = [] \/
     exists cmd flag,
       E = [Glog INFO "Unzipping %q" [AString (init.name f)];
            Run cmd [flag; init.name f]]) /\
    (R = [] \/
     exists a b r,
       init.rename f = [a; b] /\
       R = ([Glog INFO "Renaming %q to %q" [AString a; AString b];
             RemoveAll b; Rename a b] ++ renameWarning a b r)%list).
Proof.
  destruct (init.browser f && negb db) eqn:Hb.
  - unfold run, init.handleFile. rewrite Hb. cbn. split; [eauto|].
    eexists _, [], []. rewrite app_nil_r. split; [reflexivity|]. auto.
  - pose proof (init_fetchStep_not_later f w) as HF.
    destruct (init_handleFile_steps db f w Hb)
      as [(e' & H1 & H2 & H3)|[(e' & H1 & H2 & H3 & H4)|(H1 & H2 & H3 & H4)]].
    + split; [eauto|].
      exists (calls (snd (run (init.fetchStep f) w))), [], [].
      rewrite app_nil_r. auto.
    + split; [eauto|].
      exists (calls (snd (run (init.fetchStep f) w))),
        (calls (snd (run (init.extractStep f)
                       (world (snd (run (init.fetchStep f) w)))))), [].
      rewrite app_nil_r. repeat split; auto.
      apply init_extractStep_calls.
    + split; [eauto|].
      exists (calls (snd (run (init.fetchStep f) w))),
        (calls (snd (run (init.extractStep f)
                       (world (snd (run (init.fetchStep f) w)))))),
        (calls (snd (run (init.renameStep f)
                       (world (snd (run (init.extractStep f)
                                     (world (snd (run (init.fetchStep f) w))))))))).
      repeat split; auto.
      * apply init_extractStep_calls.
      * match goal with |- context [run (init.renameStep f) ?x] =>
          destruct (init_renameStep_calls f x) as [[_ ->]|(a & b & r & Hr & ->)]
        end; [now left|right; eauto].
Qed.

(* ===================================================================== *)
(** ** More on the resolvers *)
(* ===================================================================== *)

Section ResolverPaths.
Context {W : Type} {os : OS W} {sv : Semver}.

Lemma tagged_or_not (rels : list RepositoryRelease) :
  Forall (fun r => TagName r <> None) rels \/
  exists pre r post,
    rels = (pre ++ r :: post)%list /\
    Forall (fun r => TagName r <> None) pre /\ TagName r = None.
Proof.
  induction rels as [|r rels IH]; [left; constructor|].
  destruct (TagName r) as [tag|] eqn:Et.
  - destruct IH as [IH|(pre & r' & post & -> & Hpre & Hr')].
    + left. constructor; auto. congruence.
    + right. exists (r :: pre), r', post. repeat split; auto.
      constructor; auto. congruence.
  - right. exists [], r, rels. repeat split; auto.
Qed.

Lemma first_untagged (rels : list RepositoryRelease) :
  Exists (fun r => TagName r = None) rels ->
  exists pre r post,
    rels = (pre ++ r :: post)%list /\
    Forall (fun r => TagName r <> None) pre /\ TagName r = None.
Proof.
  intros HE. destruct (tagged_or_not rels) as [HF|H]; auto.
  exfalso. apply Exists_exists in HE. destruct HE as (r & Hin & Hr).
  rewrite Forall_forall in HF. now apply (HF r Hin).
Qed.

(** The run of [latestGitHubRelease] when a listed release has no tag. *)
Lemma latestGitHubRelease_untagged g rels (w w' : W) :
  github_ListReleases (init.owner g) (init.repo g) w = (Ok rels, w') ->
  Exists (fun r => TagName r = None) rels ->
  fst (run (init.latestGitHubRelease g) w) = Panic nilDeref.
Proof.
  intros HL HE. destruct (first_untagged rels HE) as (pre & r & post & -> & Hpre & Hr).
  unfold run, init.latestGitHubRelease, bind at 1, call. cbn [world calls].
  rewrite HL. unfold bind.
  pose proof (releaseLoop_nil_tag g pre r post semver.zero None
                {| world := w';
                   calls := [] ++ [ListReleases (init.owner g) (init.repo g)] |}
                Hpre Hr) as HP.
  destruct (init.releaseLoop g (pre ++ r :: post) semver.zero None _) as [o s1].
  cbn [fst] in HP. now subst o.
Qed.

(** Every outcome of [latestGitHubRelease], by what the listing holds. *)
Lemma latestGitHubRelease_outcomes g (w : W) :
  (exists e w', github_ListReleases (init.owner g) (init.repo g) w = (Err e, w') /\
     fst (run (init.latestGitHubRelease g) w) = Return (Err e)) \/
  (exists rels w', github_ListReleases (init.owner g) (init.repo g) w = (Ok rels, w') /\
     (Exists (fun r => TagName r = None) rels \/
      NoneAboveZero (releaseCandidates rels)) /\
     fst (run (init.latestGitHubRelease g) w) = Panic nilDeref) \/
  (exists rels w' r v,
     github_ListReleases (init.owner g) (init.repo g) w = (Ok rels, w') /\
     Forall (fun r => TagName r <> None) rels /\
     FirstGreatest (releaseCandidates rels) r v /\
     semver.GT v semver.zero = true /\
     ((exists u, FirstMatch (Assets r) (init.filter g) u /\
         fst (run (init.latestGitHubRelease g) w) = Return (Ok u)) \/
      (NoMatch (Assets r) (init.filter g) /\
       fst (run (init.latestGitHubRelease g) w)
       = Return (Err (Errorf "release for %s/%s containing %q not found"
                        [AString (init.owner g); AString (init.repo g);
                         AString (init.filter g)]))))).
Proof.
  destruct (github_ListReleases (init.owner g) (init.repo g) w) as [[rels|e] w'] eqn:HL.
  2:{ left. exists e, w'. split; auto.
      unfold run, init.latestGitHubRelease, bind, call. cbn [world calls].
      now rewrite HL. }
  right.
  destruct (tagged_or_not rels) as [Htags|(pre & r & post & -> & Hpre & Hr)].
  2:{ left. exists (pre ++ r :: post)%list, w'. split; auto. split.
      - left. apply Exists_exists. exists r. split; auto.
        apply in_or_app. right. now left.
      - apply (latestGitHubRelease_untagged g _ w w' HL).
        apply Exists_exists. exists r. split; auto.
        apply in_or_app. right. now left. }
  pose proof (@latestGitHubRelease_run W os sv g rels w w' HL Htags) as Hrun.
  destruct (newest_cases (releaseCandidates rels) semver.zero)
    as [Hnone|(r & v & HF & Hv)].
  - left. exists rels, w'. split; auto. split; [now right|].
    rewrite Hrun. now rewrite (newest_none _ _ None Hnone).
  - right. exists rels, w', r, v. repeat split; auto.
    rewrite Hrun, (newest_FirstGreatest _ _ _ _ None HF Hv). cbn [snd].
    destruct (assetLoop_cases (Assets r) (init.filter g)) as [Hno|(u & Hu)].
    + right. split; auto. now rewrite (assetLoop_NoMatch _ _ Hno).
    + left. exists u. split; auto. now rewrite (assetLoop_FirstMatch _ _ _ Hu).
Qed.

End ResolverPaths.

(** X12: when the listing of the releases fails, [latestGitHubRelease]
    returns the error of the listing after that one call, and the task of
    the repository logs "Error handling owner/repo: ..." and exits: nothing
    is stat'ed, created or requested. *)
Theorem X12_release_listing_error
    (W : Type) (os : OS W) (sv : Semver) (u : Unicode) (db : bool)
    (g : init.gitHubRelease) (w w1 : W) (e : error) :
  github_ListReleases (init.owner g) (init.repo g) w = (Err e, w1) ->
  run (init.latestGitHubRelease g) w
  = (Return (Err e),
     {| world := w1; calls := [ListReleases (init.owner g) (init.repo g)] |}) /\
  run (init.gitHubTask db g) w
  = (Exited,
     {| world := w1;
        calls := [ListReleases (init.owner g) (init.repo g);
                  Glog FATAL "Error handling %s/%s: %s"
                    [AString (init.owner g); AString (init.repo g);
                     AError (Some e)]] |}).
Proof.
  intros HL.
  assert (H : run (init.latestGitHubRelease g) w
              = (Return (Err e),
                 {| world := w1;
                    calls := [ListReleases (init.owner g) (init.repo g)] |})).
  { unfold run, init.latestGitHubRelease, bind, call, ret. cbn [world calls].
    now rewrite HL. }
  split; [exact H|].
  unfold run in *. now rewrite (gitHubTask_resolution_failure db g _ _ e H).
Qed.

Lemma X12_witness_failed_listing :
  run (init.latestGitHubRelease geckodriver)
    (lab (releaseWorld taggedReleases) [FListReleases])
  = (Return (Err injected),
     {| world := lab (releaseWorld taggedReleases) [FListReleases];
        calls := [ListReleases "mozilla" "geckodriver"] |}) /\
  run (init.gitHubTask true geckodriver)
    (lab (releaseWorld taggedReleases) [FListReleases])
  = (Exited,
     {| world := lab (releaseWorld taggedReleases) [FListReleases];
        calls := [ListReleases "mozilla" "geckodriver";
                  Glog FATAL "Error handling %s/%s: %s"
                    [AString "mozilla"; AString "geckodriver";
                     AError (Some injected)]] |}).
Proof.
  apply (X12_release_listing_error Lab LabOS GoSemver ASCIILower true geckodriver
           (lab (releaseWorld taggedReleases) [FListReleases])
           (lab (releaseWorld taggedReleases) [FListReleases]) injected).
  reflexivity.
Defined.

(** X13: a listed release without a tag name makes [latestGitHubRelease]
    panic on the nil pointer, wherever the release is in the listing and
    whatever the other releases are; the task of the repository panics with
    it. *)
Theorem X13_untagged_release_panics
    (W : Type) (os : OS W) (sv : Semver) (u : Unicode) (db : bool)
    (g : init.gitHubRelease) (rels : list RepositoryRelease) (w w' : W) :
  github_ListReleases (init.owner g) (init.repo g) w = (Ok rels, w') ->
  Exists (fun r => TagName r = None) rels ->
  fst (run (init.latestGitHubRelease g) w) = Panic nilDeref /\
  fst (run (init.gitHubTask db g) w) = Panic nilDeref.
Proof.
  intros HL HE.
  pose proof (latestGitHubRelease_untagged g rels w w' HL HE) as H.
  split; [exact H|].
  unfold run in *. unfold init.gitHubTask, bind.
  destruct (init.latestGitHubRelease g {| world := w; calls := [] |}) as [o s1].
  cbn [fst] in H. now subst o.
Qed.

Lemma X13_witness_untagged_last :
  fst (run (init.latestGitHubRelease geckodriver)
         (releaseWorld (taggedReleases ++ [{| TagName := None; Assets := [] |}])))
  = Panic nilDeref /\
  fst (run (init.gitHubTask true geckodriver)
         (releaseWorld (taggedReleases ++ [{| TagName := None; Assets := [] |}])))
  = Panic nilDeref.
Proof.
  apply (X13_untagged_release_panics Sim SimOS GoSemver ASCIILower true geckodriver
           (taggedReleases ++ [{| TagName := None; Assets := [] |}])
           (releaseWorld (taggedReleases ++ [{| TagName := None; Assets := [] |}]))
           (releaseWorld (taggedReleases ++ [{| TagName := None; Assets := [] |}]))).
  - reflexivity.
  - apply Exists_exists. exists {| TagName := None; Assets := [] |}.
    split; [|reflexivity]. simpl. auto 10.
Defined.

(** X14: what [latestGitHubRelease] returns is always accounted for by the
    listing.  A returned URL is the download URL of the first asset that
    contains the filter, among the assets of the first release with the
    greatest version, that version being above 0.0.0 and every listed
    release being tagged; a returned error is the error of the listing or
    the "not found" error; the resolver itself never exits the program. *)
Theorem X14_release_result_sound
    (W : Type) (os : OS W) (sv : Semver) (g : init.gitHubRelease) (w : W) :
  (forall u,
      fst (run (init.latestGitHubRelease g) w) = Return (Ok u) ->
      exists rels w' r v,
        github_ListReleases (init.owner g) (init.repo g) w = (Ok rels, w') /\
        Forall (fun r => TagName r <> None) rels /\
        FirstGreatest (releaseCandidates rels) r v /\
        semver.GT v semver.zero = true /\
        FirstMatch (Assets r) (init.filter g) u) /\
  (forall e,
      fst (run (init.latestGitHubRelease g) w) = Return (Err e) ->
      (exists w', github_ListReleases (init.owner g) (init.repo g) w = (Err e, w')) \/
      e = Errorf "release for %s/%s containing %q not found"
            [AString (init.owner g); AString (init.repo g);
             AString (init.filter g)]) /\
  fst (run (init.latestGitHubRelease g) w) <> Exited.
Proof.
  destruct (latestGitHubRelease_outcomes g w)
    as [(e & w' & HL & ->)
       |[(rels & w' & HL & _ & ->)
        |(rels & w' & r & v & HL & Htags & HF & Hv & [(u & Hu & ->)|(Hno & ->)])]].
  - repeat split; try discriminate.
    intros e' [= <-]. left. eauto.
  - repeat split; discriminate.
  - repeat split; try discriminate.
    intros u' [= <-]. exists rels, w', r, v. auto.
  - repeat split; try discriminate.
    intros e' [= <-]. now right.
Qed.

Lemma X14_witness_tagged_releases :
  (exists rels w' r v,
      github_ListReleases "mozilla" "geckodriver" (releaseWorld taggedReleases)
      = (Ok rels, w') /\
      Forall (fun r => TagName r <> None) rels /\
      FirstGreatest (releaseCandidates rels) r v /\
      semver.GT v semver.zero = true /\
      FirstMatch (Assets r) "-linux64"
        "https://example.org/v1.10.0/driver-linux64.tar.gz") /\
  ((exists w',
       github_ListReleases "mozilla" "geckodriver"
         (releaseWorld [release "v1.0.0" ["https://example.org/driver-macos.tar.gz"]])
       = (Err (Errorf "release for %s/%s containing %q not found"
                 [AString "mozilla"; AString "geckodriver"; AString "-linux64"]),
          w')) \/
   Errorf "release for %s/%s containing %q not found"
     [AString "mozilla"; AString "geckodriver"; AString "-linux64"]
   = Errorf "release for %s/%s containing %q not found"
       [AString (init.owner geckodriver); AString (init.repo geckodriver);
        AString (init.filter geckodriver)]).
Proof.
  split.
  - apply (proj1 (X14_release_result_sound Sim SimOS GoSemver geckodriver
                    (releaseWorld taggedReleases))
             "https://example.org/v1.10.0/driver-linux64.tar.gz").
    vm_compute. reflexivity.
  - apply (proj1 (proj2 (X14_release_result_sound Sim SimOS GoSemver geckodriver
                    (releaseWorld
                       [release "v1.0.0" ["https://example.org/driver-macos.tar.gz"]])))
             (Errorf "release for %s/%s containing %q not found"
                [AString "mozilla"; AString "geckodriver"; AString "-linux64"])).
    vm_compute. reflexivity.
Defined.

Section SeleniumPaths.
Context {W : Type} {os : OS W} {sv : Semver}.

Lemma longEnough_or_not (name : string) : longEnough name \/ ~ longEnough name.
Proof. unfold longEnough. cbv zeta. lia. Qed.

Lemma long_or_not (objs : list ObjectAttrs) :
  Forall (fun o => longEnough (Name o)) objs \/
  exists pre o post,
    objs = (pre ++ o :: post)%list /\
    Forall (fun o => longEnough (Name o)) pre /\ ~ longEnough (Name o).
Proof.
  induction objs as [|o objs IH]; [left; constructor|].
  destruct (longEnough_or_not (Name o)) as [Ho|Ho].
  - destruct IH as [IH|(pre & o' & post & -> & Hpre & Ho')].
    + left. now constructor.
    + right. exists (o :: pre), o', post. repeat split; auto.
  - right. exists [], o, objs. repeat split; auto.
Qed.

(** The loop panics at the first name with fewer than four bytes after the
    prefix. *)
Lemma objectLoop_short_name pre o post : forall latest object (s : State W),
  Forall (fun o => longEnough (Name o)) pre ->
  ~ longEnough (Name o) ->
  fst (init.objectLoop (pre ++ o :: post) latest object s) = Panic sliceBounds.
Proof.
  induction pre as [|o0 pre IH]; intros latest object s Hpre Ho.
  - cbn [app init.objectLoop]. unfold longEnough in Ho. cbv zeta in Ho.
    destruct (strings.Index (Name o) init.filePrefix <? 0) eqn:Ei.
    { apply Z.ltb_lt in Ei. lia. }
    apply Z.ltb_ge in Ei. unfold slice.
    replace (strings.Index (Name o) init.filePrefix + len init.filePrefix
             <=? len (Name o) - 4) with false
      by (symmetry; apply Z.leb_gt; lia).
    rewrite andb_false_r. reflexivity.
  - inversion Hpre as [|? ? Ho0 Hpre']; subst.
    cbn [app init.objectLoop].
    destruct (strings.Index (Name o0) init.filePrefix <? 0) eqn:Ei; [now apply IH|].
    apply Z.ltb_ge in Ei. destruct Ho0 as [Ho0|Ho0]; [lia|].
    destruct (@slice_in_range (Name o0)
                (strings.Index (Name o0) init.filePrefix + len init.filePrefix)
                (len (Name o0) - 4)) as [n Hn].
    { unfold len. lia. }
    { exact Ho0. }
    { lia. }
    rewrite Hn.
    destruct (ParseTolerant n) as [v|e].
    + destruct (semver.GT v latest); now apply IH.
    + unfold bind at 1. unfold glog at 1. now apply IH.
Qed.

(** The run of [latestSeleniumRelease] once the client is there and the
    iteration is known, with the error that ended it. *)
Lemma latestSeleniumRelease_listed objs oerr (w w1 w2 : W) :
  storage_NewClient w = (None, w1) ->
  bucket_Objects init.storageBktName w1 = ((objs, oerr), w2) ->
  Forall (fun o => longEnough (Name o)) objs ->
  fst (run init.latestSeleniumRelease w) =
  match oerr with
  | Some e => Return (Err e)
  | None =>
      match snd (newest (objectCandidates objs) semver.zero None) with
      | Some n =>
          if String.eqb n "" then Return (Err (Errorf "no release found" []))
          else Return (Ok n)
      | None => Return (Err (Errorf "no release found" []))
      end
  end.
Proof.
  intros HC HO Hlong.
  unfold run, init.latestSeleniumRelease, bind at 1, call at 1. cbn [world calls].
  rewrite HC. unfold bind at 1, call at 1. cbn [world calls]. rewrite HO.
  unfold bind at 1. cbn [fst snd].
  match goal with |- context [init.objectLoop objs semver.zero "" ?s1] =>
    destruct (@objectLoop_newest W sv objs semver.zero "" s1 Hlong) as [tr ->] end.
  cbn [snd]. destruct oerr as [e|]; [reflexivity|].
  destruct (snd (newest (objectCandidates objs) semver.zero None)) as [n|]; cbn [fst snd].
  - destruct (String.eqb n ""); reflexivity.
  - reflexivity.
Qed.

Lemma latestSeleniumRelease_short objs oerr (w w1 w2 : W) :
  storage_NewClient w = (None, w1) ->
  bucket_Objects init.storageBktName w1 = ((objs, oerr), w2) ->
  Exists (fun o => ~ longEnough (Name o)) objs ->
  fst (run init.latestSeleniumRelease w) = Panic sliceBounds.
Proof.
  intros HC HO HE.
  destruct (long_or_not objs) as [HF|(pre & o & post & -> & Hpre & Ho)].
  { exfalso. apply Exists_exists in HE. destruct HE as (o & Hin & Ho).
    rewrite Forall_forall in HF. now apply Ho, HF. }
  unfold run, init.latestSeleniumRelease, bind at 1, call at 1. cbn [world calls].
  rewrite HC. unfold bind at 1, call at 1. cbn [world calls]. rewrite HO.
  unfold bind at 1. cbn [fst snd].
  match goal with |- context [init.objectLoop _ semver.zero "" ?s1] =>
    pose proof (objectLoop_short_name pre o post semver.zero "" s1 Hpre Ho) as HP;
    destruct (init.objectLoop (pre ++ o :: post) semver.zero "" s1) as [r s2]
  end.
  cbn [fst] in HP. now subst r.
Qed.

Lemma latestSeleniumRelease_no_client (w w1 : W) e :
  storage_NewClient w = (Some e, w1) ->
  run init.latestSeleniumRelease w
  = (Return (Err (Errorf "cannot create a storage client for downloading the chrome browser: %v"
                    [AError (Some e)])),
     {| world := w1; calls := [NewClient] |}).
Proof.
  intros HC. unfold run, init.latestSeleniumRelease, bind, call, ret.
  cbn [world calls]. now rewrite HC.
Qed.

End SeleniumPaths.

(** X15: when the storage client cannot be created, [latestSeleniumRelease]
    returns at once, with an error that speaks of "downloading the chrome
    browser" and wraps the cause; the bucket is never listed, and the task
    logs "Error fetching the latest Selenium release: ..." and exits. *)
Theorem X15_no_storage_client
    (W : Type) (os : OS W) (sv : Semver) (u : Unicode) (db : bool)
    (w w1 : W) (e : error) :
  storage_NewClient w = (Some e, w1) ->
  run init.latestSeleniumRelease w
  = (Return (Err (Errorf "cannot create a storage client for downloading the chrome browser: %v"
                    [AError (Some e)])),
     {| world := w1; calls := [NewClient] |}) /\
  run (init.seleniumTask db) w
  = (Exited,
     {| world := w1;
        calls := [NewClient;
                  Glog FATAL "Error fetching the latest Selenium release: %s"
                    [AError (Some (Errorf "cannot create a storage client for downloading the chrome browser: %v"
                                     [AError (Some e)]))]] |}).
Proof.
  intros HC. pose proof (latestSeleniumRelease_no_client w w1 e HC) as H.
  split; [exact H|].
  unfold run in *. now rewrite (seleniumTask_resolution_failure db _ _ _ H).
Qed.

Lemma X15_witness_no_client :
  run init.latestSeleniumRelease (lab (bucketWorld listedJars) [FNewClient])
  = (Return (Err (Errorf "cannot create a storage client for downloading the chrome browser: %v"
                    [AError (Some injected)])),
     {| world := lab (bucketWorld listedJars) [FNewClient];
        calls := [NewClient] |}) /\
  run (init.seleniumTask true) (lab (bucketWorld listedJars) [FNewClient])
  = (Exited,
     {| world := lab (bucketWorld listedJars) [FNewClient];
        calls := [NewClient;
                  Glog FATAL "Error fetching the latest Selenium release: %s"
                    [AError (Some (Errorf "cannot create a storage client for downloading the chrome browser: %v"
                                     [AError (Some injected)]))]] |}).
Proof.
  apply (X15_no_storage_client Lab LabOS GoSemver ASCIILower true
           (lab (bucketWorld listedJars) [FNewClient])
           (lab (bucketWorld listedJars) [FNewClient]) injected).
  reflexivity.
Defined.

(** X16: an error of the iteration over the bucket wins over whatever was
    listed before it: when the names yielded before the error are long
    enough, [latestSeleniumRelease] returns that error, also when some of
    them are releases, and the task exits with that error in its last log
    line. *)
Theorem X16_iteration_error_wins
    (W : Type) (os : OS W) (sv : Semver) (u : Unicode) (db : bool)
    (objs : list ObjectAttrs) (w w1 w2 : W) (e : error) :
  storage_NewClient w = (None, w1) ->
  bucket_Objects init.storageBktName w1 = ((objs, Some e), w2) ->
  Forall (fun o => longEnough (Name o)) objs ->
  fst (run init.latestSeleniumRelease w) = Return (Err e) /\
  fst (run (init.seleniumTask db) w) = Exited /\
  last (calls (snd (run (init.seleniumTask db) w))) NewClient
  = Glog FATAL "Error fetching the latest Selenium release: %s" [AError (Some e)].
Proof.
  intros HC HO Hlong.
  pose proof (latestSeleniumRelease_listed objs (Some e) w w1 w2 HC HO Hlong) as H.
  split; [exact H|].
  unfold run in *.
  destruct (init.latestSeleniumRelease {| world := w; calls := [] |}) as [o s1] eqn:E.
  cbn [fst] in H. subst o.
  rewrite (seleniumTask_resolution_failure db _ _ _ E). cbn [fst snd calls].
  split; [reflexivity|]. apply last_last.
Qed.

Lemma X16_witness_listed_jars :
  fst (run init.latestSeleniumRelease (lab (bucketWorld listedJars) [FObjects]))
  = Return (Err injected) /\
  fst (run (init.seleniumTask true) (lab (bucketWorld listedJars) [FObjects]))
  = Exited /\
  last (calls (snd (run (init.seleniumTask true)
                      (lab (bucketWorld listedJars) [FObjects])))) NewClient
  = Glog FATAL "Error fetching the latest Selenium release: %s"
      [AError (Some injected)].
Proof.
  apply (X16_iteration_error_wins Lab LabOS GoSemver ASCIILower true
           (map object listedJars)
           (lab (bucketWorld listedJars) [FObjects])
           (lab (bucketWorld listedJars) [FObjects])
           (lab (bucketWorld listedJars) [FObjects]) injected).
  - reflexivity.
  - reflexivity.
  - repeat (apply Forall_cons; [right; vm_compute; discriminate|]).
    apply Forall_nil.
Defined.

(** X17: a listed name that contains the file prefix with fewer than four
    bytes after it makes [latestSeleniumRelease] panic on the slice
    bounds, wherever the name is in the listing, whatever the other names
    are and however the iteration ends. *)
Theorem X17_short_name_panics
    (W : Type) (os : OS W) (sv : Semver)
    (objs : list ObjectAttrs) (oerr : option error) (w w1 w2 : W) :
  storage_NewClient w = (None, w1) ->
  bucket_Objects init.storageBktName w1 = ((objs, oerr), w2) ->
  Exists (fun o =>
            0 <= strings.Index (Name o) init.filePrefix /\
            len (Name o) - 4
            < strings.Index (Name o) init.filePrefix + len init.filePrefix) objs ->
  fst (run init.latestSeleniumRelease w) = Panic sliceBounds.
Proof.
  intros HC HO HE.
  apply (latestSeleniumRelease_short objs oerr w w1 w2 HC HO).
  apply Exists_exists in HE. destruct HE as (o & Hin & H0 & H1).
  apply Exists_exists. exists o. split; auto.
  unfold longEnough. cbv zeta. lia.
Qed.

Lemma X17_witness_short_after_jars :
  fst (run init.latestSeleniumRelease
         (bucketWorld (listedJars ++ ["3.9/selenium-server-standalone-3"])))
  = Panic sliceBounds.
Proof.
  apply (X17_short_name_panics Sim SimOS GoSemver
           (map object (listedJars ++ ["3.9/selenium-server-standalone-3"])) None
           (bucketWorld (listedJars ++ ["3.9/selenium-server-standalone-3"]))
           (bucketWorld (listedJars ++ ["3.9/selenium-server-standalone-3"]))
           (bucketWorld (listedJars ++ ["3.9/selenium-server-standalone-3"]))).
  - reflexivity.
  - reflexivity.
  - apply Exists_exists. exists (object "3.9/selenium-server-standalone-3").
    split; [simpl; auto 10|]. vm_compute. split; [discriminate|reflexivity].
Defined.

(** X18: what [latestSeleniumRelease] returns is always accounted for by
    the bucket.  A returned name is the name of the first listed object
    with the greatest version, that version being above 0.0.0, after an
    iteration that ended without error over names that are all long enough;
    the name is not empty and contains the file prefix.  A returned error
    is the wrapped error of the client, the error of the iteration or "no
    release found".  The resolver itself never exits the program. *)
Theorem X18_object_result_sound
    (W : Type) (os : OS W) (sv : Semver) (w : W) :
  (forall n,
      fst (run init.latestSeleniumRelease w) = Return (Ok n) ->
      exists objs w1 w2 v,
        storage_NewClient w = (None, w1) /\
        bucket_Objects init.storageBktName w1 = ((objs, None), w2) /\
        Forall (fun o => longEnough (Name o)) objs /\
        FirstGreatest (objectCandidates objs) n v /\
        semver.GT v semver.zero = true /\
        n <> "" /\ strings.Contains n init.filePrefix = true) /\
  (forall e,
      fst (run init.latestSeleniumRelease w) = Return (Err e) ->
      (exists e0 w1,
          storage_NewClient w = (Some e0, w1) /\
          e = Errorf "cannot create a storage client for downloading the chrome browser: %v"
                [AError (Some e0)]) \/
      (exists w1 objs w2,
          storage_NewClient w = (None, w1) /\
          bucket_Objects init.storageBktName w1 = ((objs, Some e), w2)) \/
      e = Errorf "no release found" []) /\
  fst (run init.latestSeleniumRelease w) <> Exited.
Proof.
  destruct (storage_NewClient w) as [[e0|] w1] eqn:HC.
  { rewrite (latestSeleniumRelease_no_client w w1 e0 HC). cbn [fst].
    repeat split; try discriminate.
    intros e [= <-]. left. eauto. }
  destruct (bucket_Objects init.storageBktName w1) as [[objs oerr] w2] eqn:HO.
  destruct (long_or_not objs) as [Hlong|(pre & o & post & -> & Hpre & Ho)].
  2:{ rewrite (latestSeleniumRelease_short _ oerr w w1 w2 HC HO).
      - repeat split; discriminate.
      - apply Exists_exists. exists o. split; auto.
        apply in_or_app. right. now left. }
  rewrite (latestSeleniumRelease_listed objs oerr w w1 w2 HC HO Hlong).
  destruct oerr as [e1|].
  { repeat split; try discriminate.
    intros e [= <-]. right. left. eauto. }
  destruct (newest_cases (objectCandidates objs) semver.zero)
    as [Hnone|(n & v & HF & Hv)].
  - rewrite (newest_none _ _ None Hnone). cbn [snd].
    repeat split; try discriminate.
    intros e [= <-]. now right; right.
  - rewrite (newest_FirstGreatest _ _ _ _ None HF Hv). cbn [snd].
    pose proof (FirstGreatest_member _ _ _ HF) as Hin.
    pose proof (objectCandidates_name _ _ _ Hin) as Hn.
    apply String.eqb_neq in Hn. rewrite Hn. apply String.eqb_neq in Hn.
    repeat split; try discriminate.
    intros n' [= <-]. exists objs, w1, w2, v. repeat split; auto.
    unfold objectCandidates in Hin. apply in_map_iff in Hin.
    destruct Hin as (o & [= <- Hv'] & _).
    unfold objectVersion in Hv'. unfold strings.Contains.
    destruct (strings.Index (Name o) init.filePrefix <? 0) eqn:Ei; [discriminate|].
    apply Z.ltb_ge in Ei. now apply Z.leb_le.
Qed.

Lemma X18_witness_listed_jars :
  (exists objs w1 w2 v,
      storage_NewClient (bucketWorld listedJars) = (None, w1) /\
      bucket_Objects init.storageBktName w1 = ((objs, None), w2) /\
      Forall (fun o => longEnough (Name o)) objs /\
      FirstGreatest (objectCandidates objs) "selenium-server-standalone-3.4.0.jar" v /\
      semver.GT v semver.zero = true /\
      "selenium-server-standalone-3.4.0.jar" <> "" /\
      strings.Contains "selenium-server-standalone-3.4.0.jar" init.filePrefix = true) /\
  ((exists e0 w1,
       storage_NewClient (bucketWorld ["README"]) = (Some e0, w1) /\
       Errorf "no release found" []
       = Errorf "cannot create a storage client for downloading the chrome browser: %v"
           [AError (Some e0)]) \/
   (exists w1 objs w2,
       storage_NewClient (bucketWorld ["README"]) = (None, w1) /\
       bucket_Objects init.storageBktName w1
       = ((objs, Some (Errorf "no release found" [])), w2)) \/
   Errorf "no release found" [] = Errorf "no release found" []).
Proof.
  split.
  - apply (proj1 (X18_object_result_sound Sim SimOS GoSemver (bucketWorld listedJars))
             "selenium-server-standalone-3.4.0.jar").
    vm_compute. reflexivity.
  - apply (proj1 (proj2 (X18_object_result_sound Sim SimOS GoSemver
                           (bucketWorld ["README"])))
             (Errorf "no release found" [])).
    vm_compute. reflexivity.
Defined.

(* ===================================================================== *)
(** ** The order of a listing *)
(* ===================================================================== *)

Lemma GT_both_false a b :
  semver.GT a b = false -> semver.GT b a = false -> semver.Compare a b = Eq.
Proof.
  unfold semver.GT. rewrite (tw_sym ThreeWay_Compare a b).
  destruct (semver.Compare a b); simpl; congruence.
Qed.

Section SameMembers.
Context {X : Type}.

(** The first greatest candidate is no older than any candidate. *)
Lemma FirstGreatest_greatest (l : list (X * option semver.Version)) x v y w :
  FirstGreatest l x v -> In (y, Some w) l -> semver.GT w v = false.
Proof.
  intros (pre & post & -> & Hpre & Hpost) Hin.
  apply in_app_or in Hin. destruct Hin as [Hin|[Hin|Hin]].
  - rewrite Forall_forall in Hpre. apply GT_asym. exact (Hpre _ Hin w eq_refl).
  - injection Hin as <- <-. apply GT_irrefl.
  - rewrite Forall_forall in Hpost. exact (Hpost _ Hin w eq_refl).
Qed.

(** Two listings with the same candidates, no two of which have equal
    versions unless they are the same, have the same newest candidate. *)
Lemma newest_same_members (l l' : list (X * option semver.Version)) :
  (forall c, In c l <-> In c l') ->
  (forall x v x' v',
      In (x, Some v) l -> In (x', Some v') l ->
      semver.Compare v v' = Eq -> x = x') ->
  snd (newest l semver.zero None) = snd (newest l' semver.zero None).
Proof.
  intros Hsame Hd.
  destruct (newest_cases l semver.zero) as [Hnone|(x & v & HF & Hv)].
  - assert (Hnone' : Forall (fun c => forall w, snd c = Some w ->
                                semver.GT w semver.zero = false) l').
    { rewrite Forall_forall in *. intros c Hc. apply Hnone, Hsame, Hc. }
    now rewrite (newest_none _ _ None Hnone), (newest_none _ _ None Hnone').
  - rewrite (newest_FirstGreatest _ _ _ _ None HF Hv).
    destruct (newest_cases l' semver.zero) as [Hnone'|(x' & v' & HF' & Hv')].
    + exfalso. rewrite Forall_forall in Hnone'.
      pose proof (Hnone' _ (proj1 (Hsame _) (FirstGreatest_member _ _ _ HF)) v eq_refl).
      congruence.
    + rewrite (newest_FirstGreatest _ _ _ _ None HF' Hv'). cbn [snd]. f_equal.
      pose proof (FirstGreatest_member _ _ _ HF) as Hin.
      pose proof (proj2 (Hsame _) (FirstGreatest_member _ _ _ HF')) as Hin'.
      apply (Hd x v x' v' Hin Hin').
      apply GT_both_false.
      * apply (FirstGreatest_greatest l' x' v' x v HF'). now apply Hsame.
      * apply (FirstGreatest_greatest l x v x' v' HF Hin').
Qed.

End SameMembers.

(** X19: the order of a listing does not matter to either resolver as long
    as no two different candidates have versions that compare equal: two
    listings with the same releases (every one tagged), or with the same
    objects (every name long enough), give the same result. *)
Theorem X19_listing_order_irrelevant :
  (forall (W : Type) (os : OS W) (sv : Semver) (g : init.gitHubRelease)
          (rels rels' : list RepositoryRelease) (w w1 w' w1' : W),
      github_ListReleases (init.owner g) (init.repo g) w = (Ok rels, w1) ->
      github_ListReleases (init.owner g) (init.repo g) w' = (Ok rels', w1') ->
      (forall r, In r rels <-> In r rels') ->
      Forall (fun r => TagName r <> None) rels ->
      (forall r r' v v',
          In r rels -> In r' rels ->
          releaseVersion r = Some v -> releaseVersion r' = Some v' ->
          semver.Compare v v' = Eq -> r = r') ->
      fst (run (init.latestGitHubRelease g) w)
      = fst (run (init.latestGitHubRelease g) w')) /\
  (forall (W : Type) (os : OS W) (sv : Semver)
          (objs objs' : list ObjectAttrs) (w w1 w2 w' w1' w2' : W),
      storage_NewClient w = (None, w1) ->
      bucket_Objects init.storageBktName w1 = ((objs, None), w2) ->
      storage_NewClient w' = (None, w1') ->
      bucket_Objects init.storageBktName w1' = ((objs', None), w2') ->
      (forall o, In o objs <-> In o objs') ->
      Forall (fun o => longEnough (Name o)) objs ->
      (forall o o' v v',
          In o objs -> In o' objs ->
          objectVersion (Name o) = Some v -> objectVersion (Name o') = Some v' ->
          semver.Compare v v' = Eq -> Name o = Name o') ->
      fst (run init.latestSeleniumRelease w)
      = fst (run init.latestSeleniumRelease w')).
Proof.
  split.
  - intros W os sv g rels rels' w w1 w' w1' HL HL' Hsame Htags Hd.
    assert (Htags' : Forall (fun r => TagName r <> None) rels').
    { rewrite Forall_forall in *. intros r Hr. apply Htags, Hsame, Hr. }
    rewrite (latestGitHubRelease_run g rels w w1 HL Htags).
    rewrite (latestGitHubRelease_run g rels' w' w1' HL' Htags').
    rewrite (newest_same_members (releaseCandidates rels) (releaseCandidates rels'));
      [reflexivity| |].
    + intros c. unfold releaseCandidates. rewrite !in_map_iff. split.
      * intros (r & <- & Hr). exists r. split; auto. now apply Hsame.
      * intros (r & <- & Hr). exists r. split; auto. now apply Hsame.
    + intros x v x' v'. unfold releaseCandidates. rewrite !in_map_iff.
      intros (r & [= <- Hv] & Hr) (r' & [= <- Hv'] & Hr'). eauto.
  - intros W os sv objs objs' w w1 w2 w' w1' w2' HC HO HC' HO' Hsame Hlong Hd.
    assert (Hlong' : Forall (fun o => longEnough (Name o)) objs').
    { rewrite Forall_forall in *. intros o Ho. apply Hlong, Hsame, Ho. }
    rewrite (latestSeleniumRelease_run objs w w1 w2 HC HO Hlong).
    rewrite (latestSeleniumRelease_run objs' w' w1' w2' HC' HO' Hlong').
    rewrite (newest_same_members (objectCandidates objs) (objectCandidates objs'));
      [reflexivity| |].
    + intros c. unfold objectCandidates. rewrite !in_map_iff. split.
      * intros (o & <- & Ho). exists o. split; auto. now apply Hsame.
      * intros (o & <- & Ho). exists o. split; auto. now apply Hsame.
    + intros x v x' v'. unfold objectCandidates. rewrite !in_map_iff.
      intros (o & [= <- Hv] & Ho) (o' & [= <- Hv'] & Ho'). eauto.
Qed.

Lemma X19_witness_reversed_listings :
  fst (run (init.latestGitHubRelease geckodriver) (releaseWorld taggedReleases))
  = fst (run (init.latestGitHubRelease geckodriver)
           (releaseWorld (rev taggedReleases))) /\
  fst (run init.latestSeleniumRelease (bucketWorld listedJars))
  = fst (run init.latestSeleniumRelease (bucketWorld (rev listedJars))).
Proof.
  split.
  - apply (proj1 X19_listing_order_irrelevant Sim SimOS GoSemver geckodriver
             taggedReleases (rev taggedReleases)
             (releaseWorld taggedReleases) (releaseWorld taggedReleases)
             (releaseWorld (rev taggedReleases)) (releaseWorld (rev taggedReleases))).
    + reflexivity.
    + reflexivity.
    + intros r. apply in_rev.
    + repeat (apply Forall_cons; [discriminate|]). apply Forall_nil.
    + intros r r' v v' Hr Hr'. simpl in Hr, Hr'.
      repeat (destruct Hr as [<-|Hr]; [|]); try contradiction;
        repeat (destruct Hr' as [<-|Hr']; [|]); try contradiction;
        vm_compute; intros Hv Hv' Hc;
        first [ reflexivity | discriminate Hv | discriminate Hv'
              | injection Hv as <-; injection Hv' as <-; discriminate Hc ].
  - apply (proj2 X19_listing_order_irrelevant Sim SimOS GoSemver
             (map object listedJars) (map object (rev listedJars))
             (bucketWorld listedJars) (bucketWorld listedJars)
             (bucketWorld listedJars)
             (bucketWorld (rev listedJars)) (bucketWorld (rev listedJars))
             (bucketWorld (rev listedJars))).
    + reflexivity.
    + reflexivity.
    + reflexivity.
    + reflexivity.
    + intros o. rewrite map_rev. apply in_rev.
    + repeat (apply Forall_cons; [right; vm_compute; discriminate|]).
      apply Forall_nil.
    + intros o o' v v' Ho Ho'. simpl in Ho, Ho'.
      repeat (destruct Ho as [<-|Ho]; [|]); try contradiction;
        repeat (destruct Ho' as [<-|Ho']; [|]); try contradiction;
        vm_compute; intros Hv Hv' Hc;
        first [ reflexivity | discriminate Hv | discriminate Hv'
              | injection Hv as <-; injection Hv' as <-; discriminate Hc ].
Defined.

(* ===================================================================== *)
(** ** The tasks of the resolved files *)
(* ===================================================================== *)

Lemma IndexByte_ge s c : -1 <= strings.IndexByte s c.
Proof.
  induction s as [|d s IH]; cbn [strings.IndexByte]; [lia|].
  destruct (Ascii.eqb d c); [lia|].
  destruct (strings.IndexByte s c <? 0) eqn:E; [lia|]. apply Z.ltb_ge in E. lia.
Qed.

Lemma IndexByte_cons_none d s c :
  strings.IndexByte (String d s) c = -1 <->
  Ascii.eqb d c = false /\ strings.IndexByte s c = -1.
Proof.
  cbn [strings.IndexByte]. pose proof (IndexByte_ge s c) as Hge.
  destruct (Ascii.eqb d c).
  - split; [discriminate|]. intros [H _]. discriminate.
  - destruct (strings.IndexByte s c <? 0) eqn:E.
    + apply Z.ltb_lt in E. split; [intros _; split; [reflexivity|lia]|reflexivity].
    + apply Z.ltb_ge in E. split; [lia|]. intros [_ H]. lia.
Qed.

Lemma IndexByte_app_none a b c :
  strings.IndexByte (a ++ b) c = -1 <->
  strings.IndexByte a c = -1 /\ strings.IndexByte b c = -1.
Proof.
  induction a as [|d a IH]; cbn [String.append].
  - cbn [strings.IndexByte]. tauto.
  - rewrite !IndexByte_cons_none, IH. tauto.
Qed.

Lemma IndexByte_rev_none s c :
  strings.IndexByte s c = -1 -> strings.IndexByte (string_rev s) c = -1.
Proof.
  induction s as [|d s IH]; auto.
  rewrite IndexByte_cons_none, string_rev_cons, IndexByte_app_none,
    IndexByte_cons_none.
  intros [Hd Hs]. auto.
Qed.

Lemma lastElemRev_noslash r : forall acc,
  strings.IndexByte acc "/" = -1 ->
  strings.IndexByte (path.lastElemRev r acc) "/" = -1.
Proof.
  induction r as [|c r IH]; intros acc Hacc; cbn [path.lastElemRev]; auto.
  destruct (Ascii.eqb c "/") eqn:Ec; auto.
  apply IH. now apply IndexByte_cons_none.
Qed.

(** The scan stops at the first slash and has collected what was before. *)
Lemma lastElemRev_element r rest : forall acc,
  strings.IndexByte r "/" = -1 ->
  path.lastElemRev (r ++ String "/" rest) acc = string_rev r ++ acc.
Proof.
  induction r as [|c r IH]; intros acc Hr.
  - reflexivity.
  - apply IndexByte_cons_none in Hr. destruct Hr as [Hc Hr].
    cbn [String.append path.lastElemRev]. rewrite Hc, (IH _ Hr).
    now rewrite string_rev_cons, append_assoc.
Qed.

Lemma lastElemRev_whole r : forall acc,
  strings.IndexByte r "/" = -1 ->
  path.lastElemRev r acc = string_rev r ++ acc.
Proof.
  induction r as [|c r IH]; intros acc Hr.
  - reflexivity.
  - apply IndexByte_cons_none in Hr. destruct Hr as [Hc Hr].
    cbn [path.lastElemRev]. rewrite Hc, (IH _ Hr).
    now rewrite string_rev_cons, append_assoc.
Qed.

Lemma dropSlashes_element r rest :
  r <> "" -> strings.IndexByte r "/" = -1 ->
  path.dropSlashes (r ++ rest) = r ++ rest.
Proof.
  destruct r as [|c r]; [congruence|]. intros _ Hr.
  apply IndexByte_cons_none in Hr. destruct Hr as [Hc _].
  cbn [String.append path.dropSlashes]. now rewrite Hc.
Qed.

Lemma string_rev_nonempty s : s <> "" -> string_rev s <> "".
Proof.
  intros Hs E. apply Hs. rewrite <- (string_rev_involutive s), E. reflexivity.
Qed.

Lemma Base_element dir e :
  e <> "" -> strings.IndexByte e "/" = -1 ->
  path.Base (dir ++ "/" ++ e) = e /\ path.Base e = e.
Proof.
  intros He Hs.
  pose proof (IndexByte_rev_none e "/" Hs) as Hr.
  pose proof (string_rev_nonempty e He) as Hne.
  assert (Hnil : String.eqb e "" = false) by now apply String.eqb_neq.
  split.
  - unfold path.Base.
    replace (String.eqb (dir ++ "/" ++ e) "") with false
      by (symmetry; apply String.eqb_neq; destruct dir; discriminate).
    rewrite !string_rev_app, append_assoc. change (string_rev "/") with "/".
    rewrite (dropSlashes_element _ _ Hne Hr).
    change ("/" ++ string_rev dir) with (String "/" (string_rev dir)).
    rewrite (lastElemRev_element _ _ "" Hr).
    now rewrite string_rev_involutive, append_nil_r, Hnil.
  - unfold path.Base. rewrite Hnil.
    pose proof (dropSlashes_element (string_rev e) "" Hne Hr) as Hd.
    rewrite append_nil_r in Hd. rewrite Hd.
    rewrite (lastElemRev_whole _ "" Hr).
    rewrite string_rev_involutive, append_nil_r, Hnil. reflexivity.
Qed.

Lemma Base_no_slash p :
  path.Base p <> "" /\
  (path.Base p = "/" \/ strings.IndexByte (path.Base p) "/" = -1).
Proof.
  unfold path.Base.
  destruct (String.eqb p ""); [split; [discriminate|right; reflexivity]|].
  destruct (String.eqb (path.lastElemRev (path.dropSlashes (string_rev p)) "") "")
    eqn:E.
  - split; [discriminate|now left].
  - split; [now apply String.eqb_neq|].
    right. now apply lastElemRev_noslash.
Qed.

(** X20: the name under which a resolved file is stored is never empty and
    holds no slash, unless it is the root itself: the file is written into
    the working directory.  For a URL whose last element is not empty,
    alone or after a slash, the name is that element. *)
Theorem X20_resolved_target_name :
  (forall url,
      init.url (init.resolved url) = url /\
      init.name (init.resolved url) <> "" /\
      (init.name (init.resolved url) = "/" \/
       strings.IndexByte (init.name (init.resolved url)) "/" = -1)) /\
  (forall dir e,
      e <> "" -> strings.IndexByte e "/" = -1 ->
      init.name (init.resolved (dir ++ "/" ++ e)) = e /\
      init.name (init.resolved e) = e).
Proof.
  split.
  - intros url. split; [reflexivity|]. apply Base_no_slash.
  - intros dir e He Hs. now apply Base_element.
Qed.

Lemma X20_witness_driver_archive :
  init.name (init.resolved ("https://example.org/v1.10.0" ++ "/" ++ "driver-linux64.tar.gz"))
  = "driver-linux64.tar.gz" /\
  init.name (init.resolved "driver-linux64.tar.gz") = "driver-linux64.tar.gz".
Proof.
  apply (proj2 X20_resolved_target_name "https://example.org/v1.10.0"
           "driver-linux64.tar.gz").
  - discriminate.
  - reflexivity.
Defined.

Section ResolvedTasks.
Context {W : Type} {os : OS W} {sv : Semver} {u : Unicode}.

Lemma handleFile_no_pair (db : bool) (f : init.file) (w : W) :
  length (init.rename f) <> 2%nat ->
  existsb (fun c => isRemoveAll c || isRename c)
    (calls (snd (run (init.handleFile db f) w))) = false.
Proof.
  intros Hr.
  assert (HF : existsb (fun c => isRemoveAll c || isRename c)
                 (calls (snd (run (init.fetchStep f) w))) = false).
  { apply forallb_negb_existsb.
    eapply forallb_weaken; [|exact (init_fetchStep_not_later f w)].
    intros c. unfold isLater. destruct c; simpl; auto. }
  assert (HE : forall w', existsb (fun c => isRemoveAll c || isRename c)
                 (calls (snd (run (init.extractStep f) w'))) = false).
  { intros w'. destruct (init_extractStep_calls f w') as [->|(cmd & flag & ->)];
      reflexivity. }
  assert (HR : forall w', existsb (fun c => isRemoveAll c || isRename c)
                 (calls (snd (run (init.renameStep f) w'))) = false).
  { intros w'. destruct (init_renameStep_calls f w') as [[_ ->]|(a & b & r & E & _)];
      [reflexivity|]. rewrite E in Hr. now elim Hr. }
  destruct (init.browser f && negb db) eqn:Hb.
  - unfold run, init.handleFile. rewrite Hb. reflexivity.
  - destruct (init_handleFile_steps db f w Hb)
      as [(e' & H1 & H2 & H3)|[(e' & H1 & H2 & H3 & H4)|(H1 & H2 & H3 & H4)]].
    + now rewrite H3.
    + rewrite H4, existsb_app, HF, HE. reflexivity.
    + rewrite H4, !existsb_app, HF, HE, HR. reflexivity.
Qed.

End ResolvedTasks.

(** X21: the tasks [main] starts for the resolved files do not depend on
    the download-browsers toggle, since their descriptors are not browser
    descriptors; and as these descriptors carry no rename pair, handling
    them never removes or renames anything. *)
Theorem X21_resolved_tasks
    (W : Type) (os : OS W) (sv : Semver) (u : Unicode) (db : bool) :
  (forall g (s : State W), init.gitHubTask db g s = init.gitHubTask true g s) /\
  (forall s : State W, init.seleniumTask db s = init.seleniumTask true s) /\
  (forall url (w : W),
      existsb (fun c => isRemoveAll c || isRename c)
        (calls (snd (run (init.handleFile db (init.resolved url)) w))) = false).
Proof.
  split; [|split].
  - intros g s. unfold init.gitHubTask, bind.
    destruct (init.latestGitHubRelease g s) as [[[u0|e]|msg|] s1];
      reflexivity.
  - intros s. unfold init.seleniumTask, bind.
    destruct (init.latestSeleniumRelease s) as [[[u0|e]|msg|] s1];
      reflexivity.
  - intros url w. apply handleFile_no_pair. simpl. discriminate.
Qed.

(* ===================================================================== *)
(** ** addChrome and the start of main *)
(* ===================================================================== *)

Lemma plainElement_head e :
  plainElement e ->
  exists c e', e = String c e' /\ Ascii.eqb c "/" = false /\
               Ascii.eqb c "." = false /\ strings.IndexByte e "/" = -1.
Proof.
  destruct e as [|c e']; [intros []|]. intros [Hd Hs].
  exists c, e'. repeat split; auto.
  - now apply IndexByte_cons_none in Hs.
  - now apply Ascii.eqb_neq.
Qed.

Lemma copyElement_element e rest : forall out,
  strings.IndexByte e "/" = -1 ->
  path_clean.endsElement rest = true ->
  path_clean.copyElement (e ++ rest) out = (rest, string_rev e ++ out).
Proof.
  induction e as [|c e IH]; intros out He Hrest.
  - cbn [String.append]. destruct rest as [|d rest]; [reflexivity|].
    cbn [path_clean.endsElement] in Hrest. cbn [path_clean.copyElement].
    now rewrite Hrest.
  - apply IndexByte_cons_none in He. destruct He as [Hc He].
    cbn [String.append path_clean.copyElement]. rewrite Hc, (IH _ He Hrest).
    now rewrite string_rev_cons, append_assoc.
Qed.

(** One round of the loop of [Clean] on an element that is copied. *)
Lemma loop_element fuel rooted e rest out dotdot :
  plainElement e ->
  path_clean.endsElement rest = true ->
  path_clean.loop (S fuel) rooted (e ++ rest) out dotdot
  = path_clean.loop fuel rooted rest
      (string_rev e ++
       (if (rooted && negb (String.length out =? 1)%nat)
           || (negb rooted && negb (String.length out =? 0)%nat)
        then String "/" out else out))
      dotdot.
Proof.
  intros He Hrest.
  destruct (plainElement_head e He) as (c & e' & -> & Hs & Hd & Hi).
  cbn [String.append path_clean.loop]. rewrite Hs, Hd. cbn [andb].
  change (String c (e' ++ rest)) with (String c e' ++ rest).
  now rewrite (copyElement_element _ _ _ Hi Hrest).
Qed.

Lemma loop_end fuel rooted out dotdot :
  path_clean.loop fuel rooted "" out dotdot = out.
Proof. destruct fuel; reflexivity. Qed.

Lemma plainElement_length e : plainElement e -> exists n, String.length e = S n.
Proof. destruct e as [|c e]; [intros []|]. simpl. eauto. Qed.

Lemma loop_slash fuel rooted r out dotdot :
  path_clean.loop (S fuel) rooted (String "/" r) out dotdot
  = path_clean.loop fuel rooted r out dotdot.
Proof. reflexivity. Qed.

Lemma length_cons_nonzero a out :
  a <> "" -> (String.length (string_rev a ++ out) =? 0)%nat = false.
Proof.
  intros Ha. apply Nat.eqb_neq. rewrite length_app.
  pose proof (string_rev_nonempty a Ha) as Hr.
  destruct (string_rev a); [congruence|simpl; lia].
Qed.

Lemma plainElement_nonempty e : plainElement e -> e <> "".
Proof. destruct e; [intros []|discriminate]. Qed.

Lemma loop_three fuel a b c :
  plainElement a -> plainElement b -> plainElement c ->
  path_clean.loop (S (S (S (S (S fuel))))) false
    (a ++ String "/" (b ++ String "/" c)) "" 0%nat
  = string_rev c ++ String "/" (string_rev b ++ String "/" (string_rev a)).
Proof.
  intros Ha Hb Hc.
  rewrite (loop_element _ false a (String "/" (b ++ String "/" c)) "" 0%nat Ha eq_refl).
  cbn [andb orb negb String.length Nat.eqb].
  rewrite loop_slash.
  rewrite (loop_element _ false b (String "/" c) _ 0%nat Hb eq_refl).
  cbn [andb orb negb].
  rewrite (length_cons_nonzero a "" (plainElement_nonempty a Ha)). cbn [negb].
  rewrite loop_slash.
  rewrite <- (append_nil_r c) at 1.
  rewrite (loop_element _ false c "" _ 0%nat Hc eq_refl), loop_end.
  cbn [andb orb negb].
  rewrite (length_cons_nonzero b _ (plainElement_nonempty b Hb)). cbn [negb].
  now rewrite append_nil_r.
Qed.

(** [Clean] leaves three copied elements joined by slashes as they are. *)
Lemma Clean_three a b c :
  plainElement a -> plainElement b -> plainElement c ->
  path_clean.Clean (a ++ "/" ++ b ++ "/" ++ c) = a ++ "/" ++ b ++ "/" ++ c.
Proof.
  intros Ha Hb Hc.
  destruct (plainElement_length a Ha) as [na Hna].
  destruct (plainElement_length b Hb) as [nb Hnb].
  destruct (plainElement_length c Hc) as [nc Hnc].
  destruct (plainElement_head a Ha) as (c0 & a' & Ea & Hs & _ & _).
  cbn [String.append].
  assert (Hfuel : String.length (a ++ String "/" (b ++ String "/" c))
                  = S (S (S (S (S (na + nb + nc)))))).
  { rewrite length_app. cbn [String.length]. rewrite length_app.
    cbn [String.length]. lia. }
  pose proof (loop_three (na + nb + nc) a b c Ha Hb Hc) as HL.
  rewrite <- Hfuel in HL.
  unfold path_clean.Clean.
  destruct (a ++ String "/" (b ++ String "/" c)) as [|d rest] eqn:Ep.
  { rewrite Ea in Ep. discriminate. }
  assert (Hd : Ascii.eqb d "/" = false).
  { rewrite Ea in Ep. cbn [String.append] in Ep. injection Ep as <- _. exact Hs. }
  rewrite Hd, HL.
  rewrite (length_cons_nonzero c _ (plainElement_nonempty c Hc)).
  change (String "/" (string_rev b ++ String "/" (string_rev a)))
    with ("/" ++ string_rev b ++ "/" ++ string_rev a).
  rewrite !string_rev_app, !string_rev_involutive.
  change (string_rev "/") with "/".
  rewrite !append_assoc. rewrite <- Ep. reflexivity.
Qed.

Section ChromeRun.
Context {W : Type} {os : OS W} {store : ObjectStore W}.

(** Every run of [addChrome], by what the calls return. *)
Lemma addChrome_cases (files : list init.file) (w : W) :
  (exists e w1,
      storage_NewClient w = (Some e, w1) /\
      run (addChrome files) w
      = (Return (Some (Errorf "cannot create a storage client for downloading the chrome browser: %v"
                         [AError (Some e)]), files),
         {| world := w1; calls := [NewClient] |})) \/
  (exists e w1 w2,
      storage_NewClient w = (None, w1) /\
      object_NewReader chromeBktName lastChangeFile w1 = (Some e, w2) /\
      run (addChrome files) w
      = (Return (Some (Errorf "cannot create a reader for %s%s file: %v"
                         [AString gcsPath; AString lastChangeFile; AError (Some e)]),
                 files),
         {| world := w2; calls := [NewClient] |})) \/
  (exists e data w1 w2 w3 w4,
      storage_NewClient w = (None, w1) /\
      object_NewReader chromeBktName lastChangeFile w1 = (None, w2) /\
      reader_ReadAll chromeBktName lastChangeFile w2 = ((data, Some e), w3) /\
      reader_Close chromeBktName lastChangeFile w3 = (tt, w4) /\
      run (addChrome files) w
      = (Return (Some (Errorf "cannot read from %s%s file: %v"
                         [AString gcsPath; AString lastChangeFile; AError (Some e)]),
                 files),
         {| world := w4; calls := [NewClient] |})) \/
  (exists data res w1 w2 w3 w4 w5,
      storage_NewClient w = (None, w1) /\
      object_NewReader chromeBktName lastChangeFile w1 = (None, w2) /\
      reader_ReadAll chromeBktName lastChangeFile w2 = ((data, None), w3) /\
      object_Attrs chromeBktName
        (path_clean.Join [prefixLinux64; string_of_list_byte data; chromeFilename]) w3
      = (res, w4) /\
      reader_Close chromeBktName lastChangeFile w4 = (tt, w5) /\
      run (addChrome files) w
      = (Return
           match res with
           | Err e =>
               (Some (Errorf "cannot get the chrome package %s%s attrs: %v"
                        [AString gcsPath;
                         AString (path_clean.Join
                                    [prefixLinux64; string_of_list_byte data;
                                     chromeFilename]);
                         AError (Some e)]), files)
           | Ok cpAttrs => (None, (files ++ [chromeFile cpAttrs])%list)
           end,
         {| world := w5; calls := [NewClient] |})).
Proof.
  unfold run, addChrome, bind, call, perform, ret. cbn [world calls app].
  destruct (storage_NewClient w) as [[e|] w1] eqn:HC.
  { left. exists e, w1. split; first [eassumption|reflexivity]. }
  right. cbn [world calls].
  destruct (object_NewReader chromeBktName lastChangeFile w1) as [[e|] w2] eqn:HR;
    cbn [world calls].
  { left. exists e, w1, w2. repeat split; first [eassumption|reflexivity]. }
  right. cbn [world calls].
  destruct (reader_ReadAll chromeBktName lastChangeFile w2) as [[data [e|]] w3] eqn:HA;
    cbn [fst snd world calls].
  { left. destruct (reader_Close chromeBktName lastChangeFile w3) as [[] w4] eqn:HX.
    exists e, data, w1, w2, w3, w4. repeat split; first [eassumption|reflexivity]. }
  right. cbn [world calls fst snd].
  destruct (object_Attrs chromeBktName
              (path_clean.Join [prefixLinux64; string_of_list_byte data; chromeFilename])
              w3) as [res w4] eqn:HT.
  destruct res as [a|e]; cbn [world calls];
    destruct (reader_Close chromeBktName lastChangeFile w4) as [[] w5] eqn:HX;
    eexists data, _, w1, w2, w3, w4, w5;
    repeat split; first [eassumption|reflexivity].
Qed.

(** The package of a build whose name is copied as it is. *)
Lemma chrome_package_path (build : string) :
  plainElement build ->
  path_clean.Join [prefixLinux64; build; chromeFilename]
  = "Linux_x64/" ++ build ++ "/chrome-linux.zip".
Proof.
  intros Hb. cbn [path_clean.Join]. change (String.eqb prefixLinux64 "") with false.
  cbv iota. cbn [strings.Join].
  rewrite (Clean_three prefixLinux64 build chromeFilename).
  - reflexivity.
  - split; [discriminate|reflexivity].
  - exact Hb.
  - split; [discriminate|reflexivity].
Qed.

End ChromeRun.


(** X23: when the LAST_CHANGE object holds a build name that is copied as
    it is (not empty, without a slash, not starting with a dot), the package
    whose attributes [addChrome] asks for is Linux_x64/<build>/chrome-linux.zip;
    with these attributes the descriptor of the package is appended, and
    without them the error names that package and the list is as it was.
    Either way the reader is closed last. *)
Theorem X23_addChrome_plain_build
    (W : Type) (os : OS W) (store : ObjectStore W)
    (files : list init.file) (build : string) (res : result PackageAttrs)
    (w w1 w2 w3 w4 w5 : W) :
  plainElement build ->
  storage_NewClient w = (None, w1) ->
  object_NewReader chromeBktName lastChangeFile w1 = (None, w2) ->
  reader_ReadAll chromeBktName lastChangeFile w2
  = ((list_byte_of_string build, None), w3) ->
  object_Attrs chromeBktName ("Linux_x64/" ++ build ++ "/chrome-linux.zip") w3
  = (res, w4) ->
  reader_Close chromeBktName lastChangeFile w4 = (tt, w5) ->
  run (addChrome files) w
  = (Return
       match res with
       | Err e =>
           (Some (Errorf "cannot get the chrome package %s%s attrs: %v"
                    [AString "gs://chromium-browser-snapshots/";
                     AString ("Linux_x64/" ++ build ++ "/chrome-linux.zip");
                     AError (Some e)]), files)
       | Ok cpAttrs => (None, (files ++ [chromeFile cpAttrs])%list)
       end,
     {| world := w5; calls := [NewClient] |}).
Proof.
  intros Hb HC HR HA HT HX.
  destruct (addChrome_cases files w)
    as [(e & x1 & H1 & _)
       |[(e & x1 & x2 & H1 & H2 & _)
        |[(e & data & x1 & x2 & x3 & x4 & H1 & H2 & H3 & _)
         |(data & res' & x1 & x2 & x3 & x4 & x5 & H1 & H2 & H3 & H4 & H5 & ->)]]].
  - congruence.
  - assert (x1 = w1) by congruence. subst x1. congruence.
  - assert (x1 = w1) by congruence. subst x1.
    assert (x2 = w2) by congruence. subst x2. congruence.
  - assert (x1 = w1) by congruence. subst x1.
    assert (x2 = w2) by congruence. subst x2.
    assert (data = list_byte_of_string build /\ x3 = w3) as [-> ->]
      by (split; congruence).
    rewrite string_of_list_byte_of_string, (chrome_package_path build Hb) in *.
    assert (res' = res /\ x4 = w4) as [-> ->] by (split; congruence).
    assert (x5 = w5) by congruence. subst x5.
    reflexivity.
Qed.

Lemma X23_witness_build_499098 :
  run (addChrome init.files)
    (chromeLab "499098"
       {| AttrsMD5 := list_byte_of_string "abc";
          MediaLink := "https://example.org/chrome-linux.zip" |} [])
  = (Return
       (None,
        (init.files ++
         [chromeFile {| AttrsMD5 := list_byte_of_string "abc";
                        MediaLink := "https://example.org/chrome-linux.zip" |}])%list),
     {| world := chromeLab "499098"
                   {| AttrsMD5 := list_byte_of_string "abc";
                      MediaLink := "https://example.org/chrome-linux.zip" |} [];
        calls := [NewClient] |}).
Proof.
  apply (X23_addChrome_plain_build Lab LabOS LabStore init.files "499098"
           (Ok {| AttrsMD5 := list_byte_of_string "abc";
                  MediaLink := "https://example.org/chrome-linux.zip" |})
           (chromeLab "499098"
              {| AttrsMD5 := list_byte_of_string "abc";
                 MediaLink := "https://example.org/chrome-linux.zip" |} [])
           (chromeLab "499098"
              {| AttrsMD5 := list_byte_of_string "abc";
                 MediaLink := "https://example.org/chrome-linux.zip" |} [])
           (chromeLab "499098"
              {| AttrsMD5 := list_byte_of_string "abc";
                 MediaLink := "https://example.org/chrome-linux.zip" |} [])
           (chromeLab "499098"
              {| AttrsMD5 := list_byte_of_string "abc";
                 MediaLink := "https://example.org/chrome-linux.zip" |} [])
           (chromeLab "499098"
              {| AttrsMD5 := list_byte_of_string "abc";
                 MediaLink := "https://example.org/chrome-linux.zip" |} [])
           (chromeLab "499098"
              {| AttrsMD5 := list_byte_of_string "abc";
                 MediaLink := "https://example.org/chrome-linux.zip" |} [])).
  - split; [discriminate|reflexivity].
  - reflexivity.
  - reflexivity.
  - reflexivity.
  - reflexivity.
  - reflexivity.
Defined.

(** X24: the start of [main].  With the toggle off nothing is called and
    the file list is as it was.  With the toggle on a failure of
    [addChrome] is not fatal: it is logged as an error, "unable to Download
    Google Chrome browser", and the run goes on with the list as it was;
    a success goes on with the list [addChrome] returned and logs nothing. *)
Theorem X24_main_setup
    (W : Type) (os : OS W) (store : ObjectStore W) (files : list init.file) :
  (forall s : State W, mainSetup false files s = (Return files, s)) /\
  (forall w : W,
      exists r files',
        fst (run (addChrome files) w) = Return (r, files') /\
        run (mainSetup true files) w
        = (Return files',
           {| world := world (snd (run (addChrome files) w));
              calls := match r with
                       | Some e =>
                           [NewClient;
                            Glog ERROR "unable to Download Google Chrome browser: %v"
                              [AError (Some e)]]
                       | None => [NewClient]
                       end |}) /\
        (r = None \/ files' = files)).
Proof.
  split; [reflexivity|].
  intros w. unfold run at 2. unfold mainSetup, bind.
  fold (run (addChrome files) w).
  destruct (addChrome_cases files w)
    as [(e & w1 & _ & ->)
       |[(e & w1 & w2 & _ & _ & ->)
        |[(e & data & w1 & w2 & w3 & w4 & _ & _ & _ & _ & ->)
         |(data & res & w1 & w2 & w3 & w4 & w5 & _ & _ & _ & _ & _ & ->)]]];
    cbn [fst snd calls world].
  - eexists _, _. repeat split. now right.
  - eexists _, _. repeat split. now right.
  - eexists _, _. repeat split. now right.
  - destruct res as [a|e]; eexists _, _; (split; [reflexivity|]);
      (split; [reflexivity|]); [now left|now right].
Qed.

(* ===================================================================== *)
(** ** The two downloaders side by side *)
(* ===================================================================== *)

(** X25: on the same world, for the same URL and target name and a hash
    type that is not md5, the [downloadFile] of the concurrent downloader
    makes the calls of the sequential one, and returns what the sequential
    one returns, save for one case: where the sequential one reports a
    digest that differs from the expected one, the concurrent one reports
    nil, or the closing error if the file does not close. *)
Theorem X25_downloaders_agree
    (W : Type) (os : OS W) (u : Unicode) (sha : Sha256)
    (f : init.file) (vf : vendor_init.file) (w : W) :
  init.url f = vendor_init.url vf ->
  init.name f = vendor_init.name vf ->
  init.newHash (init.hashType f) = SHA256 ->
  calls (snd (run (init.downloadFile f) w))
  = calls (snd (run (vendor_init.downloadFile vf) w)) /\
  (fst (run (vendor_init.downloadFile vf) w) = fst (run (init.downloadFile f) w) \/
   exists data w2 w3,
     io_Copy (init.url f) (init.name f) w2 = ((data, None), w3) /\
     String.eqb (hex.EncodeToString (sha256_Sum data)) (vendor_init.hash vf) = false /\
     fst (run (vendor_init.downloadFile vf) w)
     = Return (Some (Errorf "%s: got sha256 hash %q, want %q"
                       [AString (vendor_init.name vf);
                        AString (hex.EncodeToString (sha256_Sum data));
                        AString (vendor_init.hash vf)])) /\
     (fst (run (init.downloadFile f) w) = Return None \/
      fst (run (init.downloadFile f) w)
      = Return (Some (Errorf "error closing %q: %v"
                        [AString (init.name f); AError None])))).
Proof.
  intros Hu Hn Hh.
  pose proof (init_downloadFile_cases f w) as HI.
  pose proof (vendor_downloadFile_cases vf w) as HV.
  cbv zeta in HI, HV. rewrite Hh in HI. rewrite <- Hu, <- Hn in HV. rewrite <- Hn.
  destruct HI
    as [(e & x1 & I1 & -> & ->)
       |[(e & x1 & x2 & rc & x3 & I1 & I2 & I3 & -> & ->)
        |[(e & data & x1 & x2 & x3 & x4 & rc & x5 & I1 & I2 & I3 & I4 & I5 & -> & ->)
         |(data & x1 & x2 & x3 & x4 & rc & x5 & I1 & I2 & I3 & I4 & I5 & -> & ->)]]];
  destruct HV
    as [(e' & y1 & V1 & -> & ->)
       |[(e' & y1 & y2 & rc' & y3 & V1 & V2 & V3 & -> & ->)
        |[(e' & data' & y1 & y2 & y3 & y4 & rc' & y5 & V1 & V2 & V3 & V4 & V5 & -> & ->)
         |(data' & y1 & y2 & y3 & y4 & rc' & y5 & V1 & V2 & V3 & V4 & V5 & -> & ->)]]];
  try congruence;
  try (assert (y1 = x1) by congruence; subst y1);
  try congruence;
  try (assert (y2 = x2) by congruence; subst y2);
  try congruence.
  - split; [reflexivity|]. left. repeat f_equal; congruence.
  - split; [reflexivity|]. left. repeat f_equal; congruence.
  - split; [reflexivity|]. left. repeat f_equal; congruence.
  - split; [reflexivity|].
    assert (data' = data /\ y3 = x3) as [-> ->] by (split; congruence).
    assert (y4 = x4) by congruence. subst y4.
    assert (rc' = rc) by congruence. subst rc'.
    destruct (String.eqb (hex.EncodeToString (sha256_Sum data)) (vendor_init.hash vf))
      eqn:E.
    + now left.
    + right. exists data, x2, x3. repeat split; auto.
      destruct rc; auto.
Qed.

Lemma X25_witness_selenium_jar :
  calls (snd (run (init.downloadFile seleniumJar)
                (webWorld (init.url seleniumJar) (list_byte_of_string "abc"))))
  = calls (snd (run (vendor_init.downloadFile
                       {| vendor_init.url := init.url seleniumJar;
                          vendor_init.name := init.name seleniumJar;
                          vendor_init.hash := init.hash seleniumJar;
                          vendor_init.rename := [] |})
                  (webWorld (init.url seleniumJar) (list_byte_of_string "abc")))) /\
  fst (run (init.downloadFile seleniumJar)
         (webWorld (init.url seleniumJar) (list_byte_of_string "abc")))
  = Return None /\
  fst (run (vendor_init.downloadFile
              {| vendor_init.url := init.url seleniumJar;
                 vendor_init.name := init.name seleniumJar;
                 vendor_init.hash := init.hash seleniumJar;
                 vendor_init.rename := [] |})
         (webWorld (init.url seleniumJar) (list_byte_of_string "abc")))
  = Return (Some (Errorf "%s: got sha256 hash %q, want %q"
                    [AString "selenium-server-standalone-3.4.jar";
                     AString "ba7816bf8f01cfea414140de5dae2223b00361a396177a9cb410ff61f20015ad";
                     AString "21cbbd775678821b6b72c208b8d59664a4c7381b3c50b008b331914d2834ec8d"])).
Proof.
  destruct (X25_downloaders_agree Sim SimOS ASCIILower GoSha256 seleniumJar
              {| vendor_init.url := init.url seleniumJar;
                 vendor_init.name := init.name seleniumJar;
                 vendor_init.hash := init.hash seleniumJar;
                 vendor_init.rename := [] |}
              (webWorld (init.url seleniumJar) (list_byte_of_string "abc"))
              eq_refl eq_refl eq_refl) as [Hc _].
  split; [exact Hc|]. split; vm_compute; reflexivity.
Defined.

(* ===================================================================== *)
(** ** What the resolvers call *)
(* ===================================================================== *)

Section ResolverCalls.
Context {W : Type} {os : OS W} {sv : Semver}.

Lemma releaseLoop_calls g rels : forall latest cur (s : State W),
  Forall (fun r => TagName r <> None) rels ->
  snd (init.releaseLoop g rels latest cur s)
  = {| world := world s; calls := (calls s ++ invalidTagLogs g rels)%list |}.
Proof.
  induction rels as [|r rels IH]; intros latest cur s Htags.
  - cbn. rewrite app_nil_r. now destruct s.
  - inversion Htags as [|? ? Htag Htags']; subst.
    cbn [init.releaseLoop invalidTagLogs flat_map].
    fold (invalidTagLogs g rels).
    destruct (TagName r) as [tag|]; [|congruence].
    destruct (ParseTolerant tag) as [ver|e].
    + cbn [app]. destruct (semver.GT ver latest); now apply IH.
    + unfold bind at 1. unfold glog at 1. rewrite IH by assumption.
      cbn [world calls]. now rewrite <- app_assoc.
Qed.

Lemma objectLoop_calls objs : forall latest object (s : State W),
  Forall (fun o => longEnough (Name o)) objs ->
  snd (init.objectLoop objs latest object s)
  = {| world := world s; calls := (calls s ++ objectParseLogs objs)%list |}.
Proof.
  induction objs as [|o objs IH]; intros latest object s Hlong.
  - cbn. rewrite app_nil_r. now destruct s.
  - inversion Hlong as [|? ? Ho Hlong']; subst.
    cbn [init.objectLoop objectParseLogs flat_map].
    fold (objectParseLogs objs).
    destruct (strings.Index (Name o) init.filePrefix <? 0) eqn:Ei.
    + cbn [app]. now apply IH.
    + apply Z.ltb_ge in Ei. destruct Ho as [Ho|Ho]; [lia|].
      destruct (@slice_in_range (Name o)
                  (strings.Index (Name o) init.filePrefix + len init.filePrefix)
                  (len (Name o) - 4)) as [n Hn].
      { unfold len. lia. }
      { exact Ho. }
      { lia. }
      rewrite Hn.
      destruct (ParseTolerant n) as [v|e].
      * cbn [app]. destruct (semver.GT v latest); now apply IH.
      * unfold bind at 1. unfold glog at 1. rewrite IH by assumption.
        cbn [world calls]. now rewrite <- app_assoc.
Qed.

End ResolverCalls.

(** X26: the resolvers only look.  When every listed release is tagged,
    [latestGitHubRelease] makes the one listing call and then logs, at
    verbosity 1 and in the order of the listing, one line for each tag that
    does not parse; the world is left as the listing left it.  When every
    listed name is long enough, [latestSeleniumRelease] creates the client,
    lists the bucket selenium-release and logs one line for each name with
    the file prefix whose version does not parse, whether or not the
    iteration ended with an error. *)
Theorem X26_resolver_calls :
  (forall (W : Type) (os : OS W) (sv : Semver) (g : init.gitHubRelease)
          (rels : list RepositoryRelease) (w w' : W),
      github_ListReleases (init.owner g) (init.repo g) w = (Ok rels, w') ->
      Forall (fun r => TagName r <> None) rels ->
      snd (run (init.latestGitHubRelease g) w)
      = {| world := w';
           calls := ListReleases (init.owner g) (init.repo g)
                    :: invalidTagLogs g rels |}) /\
  (forall (W : Type) (os : OS W) (sv : Semver)
          (objs : list ObjectAttrs) (oerr : option error) (w w1 w2 : W),
      storage_NewClient w = (None, w1) ->
      bucket_Objects init.storageBktName w1 = ((objs, oerr), w2) ->
      Forall (fun o => longEnough (Name o)) objs ->
      snd (run init.latestSeleniumRelease w)
      = {| world := w2;
           calls := NewClient :: Objects "selenium-release"
                    :: objectParseLogs objs |}).
Proof.
  split.
  - intros W os sv g rels w w' HL Htags.
    unfold run, init.latestGitHubRelease, bind at 1, call. cbn [world calls].
    rewrite HL. unfold bind.
    pose proof (releaseLoop_calls g rels semver.zero None
                  {| world := w';
                     calls := [] ++ [ListReleases (init.owner g) (init.repo g)] |}
                  Htags) as HS.
    destruct (@releaseLoop_newest W sv g rels semver.zero None
                {| world := w';
                   calls := [] ++ [ListReleases (init.owner g) (init.repo g)] |}
                Htags) as [tr Htr].
    rewrite Htr in HS |- *. cbn [snd] in HS. rewrite HS.
    destruct (snd (newest (releaseCandidates rels) semver.zero None)) as [r|];
      [|reflexivity].
    destruct (init.assetLoop (Assets r) (init.filter g)); reflexivity.
  - intros W os sv objs oerr w w1 w2 HC HO Hlong.
    unfold run, init.latestSeleniumRelease, bind at 1, call at 1. cbn [world calls].
    rewrite HC. unfold bind at 1, call at 1. cbn [world calls]. rewrite HO.
    unfold bind at 1. cbn [fst snd].
    match goal with |- context [init.objectLoop objs semver.zero "" ?s1] =>
      pose proof (objectLoop_calls objs semver.zero "" s1 Hlong) as HS;
      destruct (@objectLoop_newest W sv objs semver.zero "" s1 Hlong) as [tr Htr]
    end.
    rewrite Htr in HS |- *. cbn [snd] in HS. rewrite HS. cbn [snd].
    destruct oerr as [e|]; [reflexivity|].
    destruct (snd (newest (objectCandidates objs) semver.zero None)) as [n|];
      [|reflexivity].
    destruct (String.eqb n ""); reflexivity.
Qed.

Lemma X26_witness_listings :
  snd (run (init.latestGitHubRelease geckodriver) (releaseWorld taggedReleases))
  = {| world := releaseWorld taggedReleases;
       calls := [ListReleases "mozilla" "geckodriver";
                 Glog (VERBOSE 1) "Invalid tag name: %s/%s %s"
                   [AString "mozilla"; AString "geckodriver";
                    AString "not-a-version"]] |} /\
  snd (run init.latestSeleniumRelease (bucketWorld listedJars))
  = {| world := bucketWorld listedJars;
       calls := [NewClient; Objects "selenium-release";
                 Glog (VERBOSE 1) "Error parsing object name %s in bucket %s: %s"
                   [AString "selenium-server-standalone-x.jar";
                    AString "selenium-release";
                    AError (Some (ErrExternal "invalid version"))]] |}.
Proof.
  split.
  - rewrite (proj1 X26_resolver_calls Sim SimOS GoSemver geckodriver taggedReleases
               (releaseWorld taggedReleases) (releaseWorld taggedReleases) eq_refl).
    + vm_compute. reflexivity.
    + repeat (apply Forall_cons; [discriminate|]). apply Forall_nil.
  - rewrite (proj2 X26_resolver_calls Sim SimOS GoSemver (map object listedJars) None
               (bucketWorld listedJars) (bucketWorld listedJars)
               (bucketWorld listedJars) eq_refl eq_refl).
    + vm_compute. reflexivity.
    + repeat (apply Forall_cons; [right; vm_compute; discriminate|]).
      apply Forall_nil.
Defined.

(* ===================================================================== *)
(** ** A second run of the sequential downloader *)
(* ===================================================================== *)

(** X27: the two digest checks of the sequential downloader agree.  When
    [downloadFile] has accepted a file (created it, copied the body and
    closed it, and returned nil) and the file is then read back with the
    bytes that were copied, [fileSameHash] holds for it: the fetch step of a
    second run logs that the file is skipped, makes no request and writes
    no file. *)
Theorem X27_accepted_file_is_skipped
    (W : Type) (os : OS W) (sha : Sha256) (f : vendor_init.file)
    (data : list Byte.byte) (w w1 w2 w3 w4 w5 w6 w7 w8 : W) :
  os_Create (vendor_init.name f) w = (None, w1) ->
  http_Get (vendor_init.url f) w1 = (None, w2) ->
  io_Copy (vendor_init.url f) (vendor_init.name f) w2 = ((data, None), w3) ->
  body_Close (vendor_init.url f) w3 = (tt, w4) ->
  file_Close (vendor_init.name f) w4 = (None, w5) ->
  fst (run (vendor_init.downloadFile f) w) = Return None ->
  os_Stat (vendor_init.name f) w5 = (None, w6) ->
  os_Open (vendor_init.name f) w6 = (None, w7) ->
  file_Read (vendor_init.name f) w7 = ((data, None), w8) ->
  world (snd (run (vendor_init.downloadFile f) w)) = w5 /\
  fst (run (vendor_init.fileSameHash (vendor_init.name f) (vendor_init.hash f)) w5)
  = Return true /\
  fst (run (vendor_init.fetchStep f) w5) = Return tt /\
  existsb isFetch (calls (snd (run (vendor_init.fetchStep f) w5))) = false.
Proof.
  intros H1 H2 H3 H4 H5 HD H6 H7 H8.
  rewrite (vendor_downloadFile_run f w w1 w2 w3 w4 w5 data H1 H2 H3 H4 H5) in HD |- *.
  cbn [fst snd world] in *.
  destruct (String.eqb (hex.EncodeToString (sha256_Sum data)) (vendor_init.hash f))
    eqn:E; [|discriminate].
  apply String.eqb_eq in E.
  assert (HT : fst (run (vendor_init.fileSameHash (vendor_init.name f)
                           (vendor_init.hash f)) w5) = Return true).
  { unfold run. apply vendor_fileSameHash_true. cbn [world].
    exists w6, w7, w8, data. auto. }
  split; [reflexivity|]. split; [exact HT|].
  pose proof (vendor_fileSameHash_calls (vendor_init.name f) (vendor_init.hash f) w5)
    as [_ Hc].
  unfold run in *. unfold vendor_init.fetchStep, bind.
  destruct (vendor_init.fileSameHash (vendor_init.name f) (vendor_init.hash f)
              {| world := w5; calls := [] |}) as [o [x c1]].
  cbn [fst snd calls] in *. subst o. cbn [negb]. unfold glog.
  cbn [fst snd world calls]. split; [reflexivity|].
  destruct Hc as [ -> | [ -> | -> ] ]; reflexivity.
Qed.

Lemma X27_witness_abc :
  world (snd (run (vendor_init.downloadFile
                     {| vendor_init.url := "http://example.org/abc.txt";
                        vendor_init.name := "abc.txt";
                        vendor_init.hash := "ba7816bf8f01cfea414140de5dae2223b00361a396177a9cb410ff61f20015ad";
                        vendor_init.rename := [] |})
                (webWorld "http://example.org/abc.txt" (list_byte_of_string "abc"))))
  = fileWorld "abc.txt" (list_byte_of_string "abc")
      "http://example.org/abc.txt" (list_byte_of_string "abc") /\
  fst (run (vendor_init.fileSameHash "abc.txt"
              "ba7816bf8f01cfea414140de5dae2223b00361a396177a9cb410ff61f20015ad")
         (fileWorld "abc.txt" (list_byte_of_string "abc")
            "http://example.org/abc.txt" (list_byte_of_string "abc")))
  = Return true /\
  fst (run (vendor_init.fetchStep
              {| vendor_init.url := "http://example.org/abc.txt";
                 vendor_init.name := "abc.txt";
                 vendor_init.hash := "ba7816bf8f01cfea414140de5dae2223b00361a396177a9cb410ff61f20015ad";
                 vendor_init.rename := [] |})
         (fileWorld "abc.txt" (list_byte_of_string "abc")
            "http://example.org/abc.txt" (list_byte_of_string "abc")))
  = Return tt /\
  existsb isFetch
    (calls (snd (run (vendor_init.fetchStep
                        {| vendor_init.url := "http://example.org/abc.txt";
                           vendor_init.name := "abc.txt";
                           vendor_init.hash := "ba7816bf8f01cfea414140de5dae2223b00361a396177a9cb410ff61f20015ad";
                           vendor_init.rename := [] |})
                   (fileWorld "abc.txt" (list_byte_of_string "abc")
                      "http://example.org/abc.txt" (list_byte_of_string "abc")))))
  = false.
Proof.
  apply (X27_accepted_file_is_skipped Sim SimOS GoSha256
           {| vendor_init.url := "http://example.org/abc.txt";
              vendor_init.name := "abc.txt";
              vendor_init.hash := "ba7816bf8f01cfea414140de5dae2223b00361a396177a9cb410ff61f20015ad";
              vendor_init.rename := [] |}
           (list_byte_of_string "abc")
           (webWorld "http://example.org/abc.txt" (list_byte_of_string "abc"))
           {| disk := [("abc.txt", [])];
              web := [("http://example.org/abc.txt", list_byte_of_string "abc")];
              releases := []; objects := []; broken := [] |}
           {| disk := [("abc.txt", [])];
              web := [("http://example.org/abc.txt", list_byte_of_string "abc")];
              releases := []; objects := []; broken := [] |}
           (fileWorld "abc.txt" (list_byte_of_string "abc")
              "http://example.org/abc.txt" (list_byte_of_string "abc"))
           (fileWorld "abc.txt" (list_byte_of_string "abc")
              "http://example.org/abc.txt" (list_byte_of_string "abc"))
           (fileWorld "abc.txt" (list_byte_of_string "abc")
              "http://example.org/abc.txt" (list_byte_of_string "abc"))
           (fileWorld "abc.txt" (list_byte_of_string "abc")
              "http://example.org/abc.txt" (list_byte_of_string "abc"))
           (fileWorld "abc.txt" (list_byte_of_string "abc")
              "http://example.org/abc.txt" (list_byte_of_string "abc"))
           (fileWorld "abc.txt" (list_byte_of_string "abc")
              "http://example.org/abc.txt" (list_byte_of_string "abc")));
    vm_compute; reflexivity.
Defined.
